(** * The console driver, the interrupt core and the game logic of the
      2048 kernel

    A shallow embedding of [console.c], of [int.c] and of the game logic
    of [game.c].  Every C function is
    a Rocq function of the same name over an explicit machine state:
    the globals of the translation unit become record fields, pointers
    become addresses in [Z], [int] values are integers in [Z] (all the
    arithmetic done on them stays far inside the 32-bit range on the
    states the drivers can reach, see [cursor_ok]), the one [uint32_t]
    counter wraps modulo [2^32], and port I/O and calls that leave the
    repository are recorded in a trace.

    Part I holds the definitions, Part II and the parts after it the
    theorems. *)

From Stdlib Require Import ZArith List Lia.
From Stdlib Require Strings.Byte.
From stdpp Require Import base list.
Import ListNotations.
Open Scope Z_scope.

(* ================================================================== *)
(** * Part I: the programs *)
(* ================================================================== *)

(** ** Bytes and C characters *)

Abbreviation byte := Init.Byte.byte.

(** The value of a byte as an [unsigned char]. *)
Definition Z_of_byte (b : byte) : Z := Z.of_N (Byte.to_N b).

(** Conversion of an integer to an 8-bit object: the low eight bits. *)
Definition byte_of_Z (z : Z) : byte :=
  match Byte.of_N (Z.to_N (z mod 256)) with
  | Some b => b
  | None => Byte.x00
  end.

(** The value of a byte read through a [char *] ([char] is signed on x86). *)
Definition char_of_byte (b : byte) : Z :=
  let u := Z_of_byte b in if u <? 128 then u else u - 256.

(** Conversion of an integer to [char], as the compiler does it. *)
Definition to_char (z : Z) : Z := char_of_byte (byte_of_Z z).

(** Conversion of an integer to [uint8_t]. *)
Definition to_uint8 (z : Z) : Z := z mod 256.

(** Flat physical memory, one byte per address. *)
Definition memory : Type := Z -> byte.

Definition store (m : memory) (a : Z) (v : byte) : memory :=
  fun x => if x =? a then v else m x.

Module Console.

(** The constants [console.c] takes from the headers it includes
    ([p1kern.h] and, through it, the video definitions).  The headers are
    not part of the sources, so the constants are parameters. *)
Class VideoDefines : Type := {
  CONSOLE_MEM_BASE : Z;
  CONSOLE_WIDTH : Z;
  CONSOLE_HEIGHT : Z;
  CRTC_IDX_REG : Z;
  CRTC_DATA_REG : Z;
  CRTC_CURSOR_LSB_IDX : Z;
  CRTC_CURSOR_MSB_IDX : Z;
  FGND_LGRAY : Z
}.

(** [#define CONSOLE_SZ 80*25]: the macro is an unparenthesised product;
    its three uses ([CONSOLE_SZ * 2] twice and [CONSOLE_SZ + 1]) expand
    to [80*25*2] and [80*25+1], so reading it as the number is sound. *)
Definition CONSOLE_SZ : Z := 80 * 25.
Definition COLOR_BOUND : Z := 256.
Definition VISIBLE : Z := 0.
Definition HIDDEN : Z := 1.

(** What the driver needs from the header constants: a grid of positive
    dimensions whose cell count is the [CONSOLE_SZ] of the source. *)
Definition video_ok `{VideoDefines} : Prop :=
  0 < CONSOLE_WIDTH /\ 0 < CONSOLE_HEIGHT /\
  CONSOLE_WIDTH * CONSOLE_HEIGHT = CONSOLE_SZ.

(** The globals of [console.c], the memory the driver writes through its
    [char *] casts, and the port writes issued so far (oldest first). *)
Record console : Type := MkConsole {
  cursor_row : Z;
  cursor_col : Z;
  cursor_hidden : Z;
  cursor_color : Z;
  mem : memory;
  outb_log : list (Z * Z)
}.

Definition set_row (r : Z) (st : console) : console :=
  MkConsole r (cursor_col st) (cursor_hidden st) (cursor_color st)
            (mem st) (outb_log st).
Definition set_col (c : Z) (st : console) : console :=
  MkConsole (cursor_row st) c (cursor_hidden st) (cursor_color st)
            (mem st) (outb_log st).
Definition set_hidden (h : Z) (st : console) : console :=
  MkConsole (cursor_row st) (cursor_col st) h (cursor_color st)
            (mem st) (outb_log st).
Definition set_color (c : Z) (st : console) : console :=
  MkConsole (cursor_row st) (cursor_col st) (cursor_hidden st) c
            (mem st) (outb_log st).
Definition set_mem (m : memory) (st : console) : console :=
  MkConsole (cursor_row st) (cursor_col st) (cursor_hidden st)
            (cursor_color st) m (outb_log st).

(** [outb(port, val)]. *)
Definition outb (port val : Z) (st : console) : console :=
  MkConsole (cursor_row st) (cursor_col st) (cursor_hidden st)
            (cursor_color st) (mem st) (outb_log st ++ [(port, val)]).

(** The blank character [' ']. *)
Definition blank : byte := Byte.x20.

Section Driver.
Context `{VideoDefines}.

(** [while(start != end) *head++ = *start++;] *)
Fixpoint scroll_copy (fuel : nat) (head start end_ : Z) (m : memory) : memory :=
  match fuel with
  | O => m
  | S k =>
      if start =? end_ then m
      else scroll_copy k (head + 1) (start + 1) end_ (store m head (m start))
  end.

(** [while(start != end){ *start++ = ' '; *start++ = cursor_color; }] *)
Fixpoint scroll_fill (fuel : nat) (start end_ color : Z) (m : memory) : memory :=
  match fuel with
  | O => m
  | S k =>
      if start =? end_ then m
      else scroll_fill k (start + 2) end_ color
             (store (store m start blank) (start + 1) (byte_of_Z color))
  end.

(** [console_scroll].  Both loops run until [start] meets [end].  The
    fuel is the byte size of the grid; when [video_ok] holds the loops
    stop on their own test well before it is used up
    ([scroll_copy_spec], [scroll_fill_spec]). *)
Definition console_scroll (st : console) : console :=
  let fuel := Z.to_nat (CONSOLE_SZ * 2) in
  let head := CONSOLE_MEM_BASE in
  let start := CONSOLE_MEM_BASE + CONSOLE_WIDTH * 2 in
  let end_ := CONSOLE_MEM_BASE + CONSOLE_SZ * 2 in
  let m := scroll_copy fuel head start end_ (mem st) in
  let start := end_ - CONSOLE_WIDTH * 2 in
  set_mem (scroll_fill fuel start end_ (cursor_color st) m) st.

(** [draw_char]: a guarded store of two bytes. *)
Definition draw_char (row col ch color : Z) (st : console) : console :=
  if (row <? 0) || (row >=? CONSOLE_HEIGHT) ||
     (col <? 0) || (col >=? CONSOLE_WIDTH) ||
     (color >=? COLOR_BOUND) || (color <? 0)
  then st
  else
    let pos := row * CONSOLE_WIDTH + col in
    let m := store (mem st) (CONSOLE_MEM_BASE + pos * 2) (byte_of_Z ch) in
    let m := store m (CONSOLE_MEM_BASE + pos * 2 + 1) (byte_of_Z color) in
    set_mem m st.

(** [get_char]. *)
Definition get_char (row col : Z) (st : console) : Z :=
  let pos := row * CONSOLE_WIDTH + col in
  char_of_byte (mem st (CONSOLE_MEM_BASE + pos * 2)).

(** [set_cursor]. *)
Definition set_cursor (row col : Z) (st : console) : Z * console :=
  if (row <? 0) || (row >=? CONSOLE_HEIGHT) ||
     (col <? 0) || (col >=? CONSOLE_WIDTH)
  then (-1, st)
  else (0, set_col col (set_row row st)).

(** [get_cursor]: the two values written through [row] and [col]. *)
Definition get_cursor (st : console) : Z * Z :=
  (cursor_row st, cursor_col st).

(** [set_term_color] and [get_term_color]. *)
Definition set_term_color (color : Z) (st : console) : Z * console :=
  if (color >=? COLOR_BOUND) || (color <? 0) then (-1, st)
  else (0, set_color color st).

Definition get_term_color (st : console) : Z := cursor_color st.

(** The four port writes shared by [hide_cursor] and [show_cursor]. *)
Definition crtc_write (pos : Z) (st : console) : console :=
  let lsb_index := Z.land pos 255 in
  let msb_index := Z.land (Z.shiftr pos 8) 255 in
  let st := outb CRTC_IDX_REG CRTC_CURSOR_MSB_IDX st in
  let st := outb CRTC_DATA_REG msb_index st in
  let st := outb CRTC_IDX_REG CRTC_CURSOR_LSB_IDX st in
  outb CRTC_DATA_REG lsb_index st.

(** [hide_cursor]. *)
Definition hide_cursor (st : console) : console :=
  set_hidden HIDDEN (crtc_write (CONSOLE_SZ + 1) st).

(** [show_cursor]. *)
Definition show_cursor (st : console) : console :=
  crtc_write (cursor_col st + cursor_row st * CONSOLE_WIDTH) st.

(** [putbyte].  ['\n'] is 10, ['\r'] is 13, ['\b'] is 8; [/] and [%] of
    C are [Z.quot] and [Z.rem]. *)
Definition putbyte (ch : Z) (st : console) : Z * console :=
  let pos := cursor_row st * CONSOLE_WIDTH + cursor_col st in
  let st1 :=
    if ch =? 10 then
      let st := set_row (cursor_row st + 1) st in
      let st := set_col 0 st in
      if cursor_row st >=? CONSOLE_HEIGHT
      then console_scroll (set_row (CONSOLE_HEIGHT - 1) st)
      else st
    else if ch =? 13 then
      set_row 0 st
    else if ch =? 8 then
      let pos := pos - 1 in
      let pos := if pos <? 0 then 0 else pos in
      let st := set_row (Z.quot pos CONSOLE_WIDTH) st in
      let st := set_col (Z.rem pos CONSOLE_WIDTH) st in
      draw_char (cursor_row st) (cursor_col st) 32 (cursor_color st) st
    else
      let st := draw_char (cursor_row st) (cursor_col st) ch (cursor_color st) st in
      let pos := pos + 1 in
      let st := set_row (Z.quot pos CONSOLE_WIDTH) st in
      let st := set_col (Z.rem pos CONSOLE_WIDTH) st in
      if cursor_row st >=? CONSOLE_HEIGHT
      then console_scroll (set_row (CONSOLE_HEIGHT - 1) st)
      else st in
  let st2 := snd (set_cursor (cursor_row st1) (cursor_col st1) st1) in
  let st3 := if cursor_hidden st2 =? 0 then show_cursor st2 else st2 in
  (ch, st3).

(** [for( ; i < len; i++) putbyte( *p++ );]  The byte is read from the
    memory as it is at that iteration. *)
Fixpoint putbytes_loop (fuel : nat) (i len p : Z) (st : console) : console :=
  match fuel with
  | O => st
  | S k =>
      if i <? len
      then putbytes_loop k (i + 1) len (p + 1)
             (snd (putbyte (char_of_byte (mem st p)) st))
      else st
  end.

(** [putbytes].  The loop makes [len] iterations when [len] is positive
    and none otherwise, so [Z.to_nat len] is all the fuel it can use. *)
Definition putbytes (s len : Z) (st : console) : console :=
  putbytes_loop (Z.to_nat len) 0 len s st.

(** [for(i = 0; i < end; i++){ *p++ = ' '; *p++ = cursor_color; }] *)
Fixpoint clear_loop (fuel : nat) (i end_ p color : Z) (m : memory) : memory :=
  match fuel with
  | O => m
  | S k =>
      if i <? end_
      then clear_loop k (i + 1) end_ (p + 2) color
             (store (store m p blank) (p + 1) (byte_of_Z color))
      else m
  end.

(** [clear_console]. *)
Definition clear_console (st : console) : console :=
  let m := clear_loop (Z.to_nat CONSOLE_SZ) 0 CONSOLE_SZ CONSOLE_MEM_BASE
             (cursor_color st) (mem st) in
  let st := snd (set_cursor 0 0 (set_mem m st)) in
  if cursor_hidden st =? 0 then show_cursor st else st.

(** The state the globals are initialised to, over a given memory. *)
Definition console_init (m : memory) : console :=
  MkConsole 0 0 VISIBLE FGND_LGRAY m [].

(** The cell at [(row, col)]: its character byte and its attribute byte. *)
Definition cell (m : memory) (row col : Z) : byte * byte :=
  let a := CONSOLE_MEM_BASE + (row * CONSOLE_WIDTH + col) * 2 in
  (m a, m (a + 1)).

(** The cursor lies on the grid. *)
Definition cursor_ok (st : console) : Prop :=
  0 <= cursor_row st < CONSOLE_HEIGHT /\ 0 <= cursor_col st < CONSOLE_WIDTH.

(** The colour is one [set_term_color] accepts. *)
Definition color_ok (st : console) : Prop :=
  0 <= cursor_color st < COLOR_BOUND.

End Driver.

(** The four port writes that place the hardware cursor at cell index
    [pos], as [(port, value)] pairs. *)
Definition crtc_events `{VideoDefines} (pos : Z) : list (Z * Z) :=
  [(CRTC_IDX_REG, CRTC_CURSOR_MSB_IDX);
   (CRTC_DATA_REG, Z.land (Z.shiftr pos 8) 255);
   (CRTC_IDX_REG, CRTC_CURSOR_LSB_IDX);
   (CRTC_DATA_REG, Z.land pos 255)].

(** The address of the character byte of the cell with row-major index
    [pos]. *)
Definition cell_addr `{VideoDefines} (pos : Z) : Z :=
  CONSOLE_MEM_BASE + pos * 2.

(** A character [putbyte] prints rather than interprets. *)
Definition printable (ch : Z) : Prop := ch <> 10 /\ ch <> 13 /\ ch <> 8.

(** The text mode the kernel runs in: 80 columns, 25 rows, the grid at
    [0xB8000], the CRT controller at [0x3D4]/[0x3D5]. *)
Definition vga_text : VideoDefines := {|
  CONSOLE_MEM_BASE := 753664;
  CONSOLE_WIDTH := 80;
  CONSOLE_HEIGHT := 25;
  CRTC_IDX_REG := 980;
  CRTC_DATA_REG := 981;
  CRTC_CURSOR_LSB_IDX := 15;
  CRTC_CURSOR_MSB_IDX := 14;
  FGND_LGRAY := 7
|}.

(** A memory holding the letter [Z] (0x5A) at address 0 and the letter
    [A] (0x41) everywhere else. *)
Definition mem_A : memory := fun a => if a =? 0 then Byte.x5a else Byte.x41.

(** A console with the cursor at row 3, column 5. *)
Definition console_3_5 : console := MkConsole 3 5 VISIBLE 7 mem_A [].

(** A console with the cursor on the last cell of the 80x25 grid. *)
Definition console_last_cell : console := MkConsole 24 79 VISIBLE 7 mem_A [].

(** A console with the cursor on the last row of the 80x25 grid. *)
Definition console_last_row : console := MkConsole 24 17 VISIBLE 7 mem_A [].

End Console.

Module Interrupt.

(** [int.h]. *)
Definition IRQ_TIMER : Z := 32.
Definition IRQ_KBD : Z := 33.
Definition INT_32 : Z := 14.
Definition TRP_32 : Z := 15.

(** [#define MAX_BUF_SZ 512]. *)
Definition MAX_BUF_SZ : Z := 512.

(** The constants and symbols [int.c] takes from outside the sources:
    the x86 headers, the two entry thunks of the assembly file, and the
    address the linker gives [idt]. *)
Class X86Defines : Type := {
  IDT_ENTS : Z;
  SEGSEL_KERNEL_CS : Z;
  INT_CTL_PORT : Z;
  INT_ACK_CURRENT : Z;
  TIMER_RATE : Z;
  TIMER_MODE_IO_PORT : Z;
  TIMER_SQUARE_WAVE : Z;
  TIMER_PERIOD_IO_PORT : Z;
  KEYBOARD_PORT : Z;
  asm_timer_handler : Z;
  asm_kbd_handler : Z;
  idt_addr : Z
}.

(** The scancode library of [x86/keyhelp.h].  [process_scancode] keeps
    private state between calls; that state is a function of the
    scancodes it was given, so the model hands it the scancodes of the
    earlier calls together with the new one.  The three macros are
    tests and a projection on its result. *)
Class Keyhelp : Type := {
  process_scancode : list Z -> Z -> Z;
  KH_ISMAKE : Z -> bool;
  KH_HASDATA : Z -> bool;
  KH_GETCHAR : Z -> Z
}.

(** [struct Gatedp]: each field is an unsigned bit-field of the width
    given in the source. *)
Record Gatedp : Type := MkGatedp {
  low_0_15 : Z;
  selector : Z;
  padding1 : Z;
  type : Z;
  padding2 : Z;
  dpl : Z;
  present : Z;
  high_16_31 : Z
}.

(** An entry of the table as [{ {0} }] initialises it. *)
Definition gate_zero : Gatedp := MkGatedp 0 0 0 0 0 0 0 0.

(** [sizeof(struct Gatedp)]: 64 bits. *)
Definition sizeof_Gatedp : Z := 8.

(** A value stored into an unsigned bit-field of [w] bits. *)
Definition bits (w : Z) (v : Z) : Z := Z.land v (Z.ones w).

(** Conversions to [uint32_t] and to [int]. *)
Definition to_uint32 (z : Z) : Z := z mod 2 ^ 32.
Definition to_int (z : Z) : Z :=
  let u := z mod 2 ^ 32 in if u <? 2 ^ 31 then u else u - 2 ^ 32.

(** [SETGATE]: the entry [num] of the array is overwritten. *)
Definition SETGATE (gate : list Gatedp) (num sel handler dpl : Z) : list Gatedp :=
  <[Z.to_nat num := {|
      low_0_15 := bits 16 (Z.land (to_uint32 handler) 65535);
      selector := bits 16 sel;
      padding1 := bits 8 0;
      type := bits 4 INT_32;
      padding2 := bits 1 0;
      dpl := bits 2 dpl;
      present := bits 1 1;
      high_16_31 := bits 16 (Z.shiftr (to_uint32 handler) 16)
    |}]> gate.

(** What the code does that is seen outside its variables, in program
    order: stores into the descriptor table the processor reads, [lidt],
    port input and output, the diagnostic line, the call of the
    registered callback, and the [sti] of [enable_interrupts]. *)
Inductive event : Type :=
| EvLidt (base limit : Z)
| EvSetGate (num : Z)
| EvOutb (port val : Z)
| EvInb (port : Z)
| EvLprintf (irq : Z)
| EvCallback (fn arg : Z)
| EvEnableInterrupts.

(** The keyboard buffer: [buf], [buf_sz], [head] and [tail]. *)
Record kbuf : Type := MkKbuf {
  buf : list byte;
  buf_sz : Z;
  head : Z;
  tail : Z
}.

(** The state of [int.c]: its globals, the scancodes handed to the
    decoder so far, the byte each input port currently delivers, and the
    trace. *)
Record kernel : Type := MkKernel {
  idt : list Gatedp;
  timer_ticks : Z;
  timer_callback : Z;
  kbd : kbuf;
  scancodes : list Z;
  port_in : Z -> Z;
  trace : list event
}.

Definition set_idt (g : list Gatedp) (st : kernel) : kernel :=
  MkKernel g (timer_ticks st) (timer_callback st) (kbd st) (scancodes st)
           (port_in st) (trace st).
Definition set_ticks (t : Z) (st : kernel) : kernel :=
  MkKernel (idt st) t (timer_callback st) (kbd st) (scancodes st)
           (port_in st) (trace st).
Definition set_callback (f : Z) (st : kernel) : kernel :=
  MkKernel (idt st) (timer_ticks st) f (kbd st) (scancodes st)
           (port_in st) (trace st).
Definition set_kbd (b : kbuf) (st : kernel) : kernel :=
  MkKernel (idt st) (timer_ticks st) (timer_callback st) b (scancodes st)
           (port_in st) (trace st).
Definition set_scancodes (l : list Z) (st : kernel) : kernel :=
  MkKernel (idt st) (timer_ticks st) (timer_callback st) (kbd st) l
           (port_in st) (trace st).
Definition emit (e : event) (st : kernel) : kernel :=
  MkKernel (idt st) (timer_ticks st) (timer_callback st) (kbd st)
           (scancodes st) (port_in st) (trace st ++ [e]).

(** [writebuf].  [buf[head++] = ch] stores the low byte of [ch].  On the
    states the program reaches ([kbuf_bounds]) the index lies inside the
    array; outside of them C gives the store no meaning, and the list
    update of the model leaves the array alone. *)
Definition writebuf (ch : Z) (b : kbuf) : kbuf :=
  if buf_sz b <? MAX_BUF_SZ then
    let b := MkKbuf (<[Z.to_nat (head b) := byte_of_Z ch]> (buf b))
                    (buf_sz b) (head b + 1) (tail b) in
    let b := if head b =? MAX_BUF_SZ
             then MkKbuf (buf b) (buf_sz b) 0 (tail b) else b in
    MkKbuf (buf b) (buf_sz b + 1) (head b) (tail b)
  else b.

(** [readbuf].  The [char] read from the array is converted to
    [uint8_t]; on an empty buffer the result is the initial [ch = 0].
    An index outside the array (unreachable, see [writebuf]) reads 0. *)
Definition readbuf (b : kbuf) : Z * kbuf :=
  let ch := 0 in
  if buf_sz b >? 0 then
    let ch := to_uint8 (char_of_byte (default Byte.x00 (buf b !! Z.to_nat (tail b)))) in
    let b := MkKbuf (buf b) (buf_sz b) (head b) (tail b + 1) in
    let b := if tail b =? MAX_BUF_SZ
             then MkKbuf (buf b) (buf_sz b) (head b) 0 else b in
    (ch, MkKbuf (buf b) (buf_sz b - 1) (head b) (tail b))
  else (ch, b).

Section Handlers.
Context `{X86Defines} `{Keyhelp}.

(** [#define IDT_LIIMIT (IDT_ENTS*(sizeof(struct Gatedp) - 1))]. *)
Definition IDT_LIIMIT : Z := IDT_ENTS * (sizeof_Gatedp - 1).

(** [load_idt]. *)
Definition load_idt (st : kernel) : kernel :=
  emit (EvLidt idt_addr IDT_LIIMIT) st.

(** [int_init]: two calls of [SETGATE] on [idt]. *)
Definition int_init (st : kernel) : kernel :=
  let st := emit (EvSetGate IRQ_TIMER)
              (set_idt (SETGATE (idt st) IRQ_TIMER SEGSEL_KERNEL_CS
                          asm_timer_handler 0) st) in
  emit (EvSetGate IRQ_KBD)
    (set_idt (SETGATE (idt st) IRQ_KBD SEGSEL_KERNEL_CS asm_kbd_handler 0) st).

(** [timer_init]. *)
Definition timer_init (st : kernel) : kernel :=
  let period := to_uint32 (Z.quot TIMER_RATE 100) in
  let st := emit (EvOutb TIMER_MODE_IO_PORT TIMER_SQUARE_WAVE) st in
  let st := emit (EvOutb TIMER_PERIOD_IO_PORT (Z.land period 255)) st in
  emit (EvOutb TIMER_PERIOD_IO_PORT (Z.land (Z.shiftr period 8) 255)) st.

(** [timer_install]. *)
Definition timer_install (tickback : Z) (st : kernel) : kernel :=
  set_callback tickback (timer_init st).

(** [handler_install]. *)
Definition handler_install (tickback : Z) (st : kernel) : Z * kernel :=
  let st := load_idt st in
  let st := int_init st in
  let st := timer_install tickback st in
  (0, st).

(** [enable_interrupts] of [x86/asm.h], which [game_init] calls right
    after [handler_install]. *)
Definition enable_interrupts (st : kernel) : kernel :=
  emit EvEnableInterrupts st.

(** [timer_handler].  [timer_ticks] is a [uint32_t]: the increment wraps.
    The callback is application code; its call is recorded, its own
    effects are not part of [int.c]. *)
Definition timer_handler (st : kernel) : kernel :=
  let st := set_ticks (to_uint32 (timer_ticks st + 1)) st in
  if timer_callback st =? 0 then st
  else emit (EvCallback (timer_callback st) (timer_ticks st)) st.

(** [kbd_handler].  [inb] yields a [uint8_t], which the call converts to
    the [char] parameter of [writebuf]. *)
Definition kbd_handler (st : kernel) : kernel :=
  let st := emit (EvInb KEYBOARD_PORT) st in
  set_kbd (writebuf (to_char (to_uint8 (port_in st KEYBOARD_PORT))) (kbd st)) st.

(** [int_handler], on the [irq_no] field of the saved registers. *)
Definition int_handler (irq_no : Z) (st : kernel) : kernel :=
  if irq_no =? IRQ_TIMER then
    emit (EvOutb INT_CTL_PORT INT_ACK_CURRENT) (timer_handler st)
  else if irq_no =? IRQ_KBD then
    emit (EvOutb INT_CTL_PORT INT_ACK_CURRENT) (kbd_handler st)
  else
    emit (EvLprintf (to_int irq_no)) st.

(** [readchar]. *)
Definition readchar (st : kernel) : Z * kernel :=
  let (ch, b) := readbuf (kbd st) in
  let st := set_kbd b st in
  let aug := process_scancode (scancodes st) ch in
  let st := set_scancodes (scancodes st ++ [ch]) st in
  if KH_ISMAKE aug && KH_HASDATA aug then (KH_GETCHAR aug, st)
  else (-1, st).

(** The globals as the program starts. *)
Definition kernel_init (ports : Z -> Z) : kernel :=
  MkKernel (replicate (Z.to_nat IDT_ENTS) gate_zero) 0 0
           (MkKbuf (replicate (Z.to_nat MAX_BUF_SZ) Byte.x00) 0 0 0)
           [] ports [].

End Handlers.

(** *** Notions used to state the properties *)

(** Pushing a sequence of bytes, popping [n] times. *)
Definition pushes (l : list Z) (b : kbuf) : kbuf :=
  fold_left (fun b ch => writebuf ch b) l b.

Fixpoint pops (n : nat) (b : kbuf) : list Z * kbuf :=
  match n with
  | O => ([], b)
  | S k => let (ch, b1) := readbuf b in
           let (l, b2) := pops k b1 in (ch :: l, b2)
  end.

(** The bounds on the count and the two indices. *)
Definition kbuf_bounds (b : kbuf) : Prop :=
  0 <= buf_sz b <= MAX_BUF_SZ /\
  0 <= head b < MAX_BUF_SZ /\ 0 <= tail b < MAX_BUF_SZ.

(** The bounds, the size of the array, and the relation that ties the
    head to the tail and the count. *)
Definition kbuf_ok (b : kbuf) : Prop :=
  kbuf_bounds b /\
  length (buf b) = Z.to_nat MAX_BUF_SZ /\
  head b = (tail b + buf_sz b) mod MAX_BUF_SZ.

(** The bytes waiting in the buffer, oldest first. *)
Definition queue (b : kbuf) : list byte :=
  map (fun i : nat =>
         default Byte.x00
           (buf b !! Z.to_nat ((tail b + Z.of_nat i) mod MAX_BUF_SZ)))
      (seq 0 (Z.to_nat (buf_sz b))).

(** The number of acknowledgements in a trace. *)
Definition is_ack `{X86Defines} (e : event) : bool :=
  match e with
  | EvOutb p v => (p =? INT_CTL_PORT) && (v =? INT_ACK_CURRENT)
  | _ => false
  end.

Definition acks `{X86Defines} (l : list event) : nat :=
  length (List.filter is_ack l).

(** Serving a sequence of interrupts, given by their vector numbers. *)
Definition serve `{X86Defines} (l : list Z) (st : kernel) : kernel :=
  fold_left (fun st irq_no => int_handler irq_no st) l st.

(** How many times the vector [v] occurs in [l]. *)
Definition count_vector (v : Z) (l : list Z) : nat :=
  length (List.filter (Z.eqb v) l).

(** What holds of the globals of [int.c] on every state the program
    reaches: the buffer invariant, a table of [IDT_ENTS] entries, and a
    tick counter that is a [uint32_t]. *)
Definition kernel_ok `{X86Defines} (st : kernel) : Prop :=
  kbuf_ok (kbd st) /\
  length (idt st) = Z.to_nat IDT_ENTS /\
  0 <= timer_ticks st < 2 ^ 32.

(** The header values of the course kernel, the entry thunks and the
    table at arbitrary addresses. *)
Definition pc_defines : X86Defines := {|
  IDT_ENTS := 256;
  SEGSEL_KERNEL_CS := 16;
  INT_CTL_PORT := 32;
  INT_ACK_CURRENT := 32;
  TIMER_RATE := 1193182;
  TIMER_MODE_IO_PORT := 67;
  TIMER_SQUARE_WAVE := 54;
  TIMER_PERIOD_IO_PORT := 64;
  KEYBOARD_PORT := 96;
  asm_timer_handler := 1052672;
  asm_kbd_handler := 1052688;
  idt_addr := 1114112
|}.

(** A decoder that reports every scancode as a key press carrying the
    scancode itself, and one that never reports anything. *)
Definition echo_keyhelp : Keyhelp := {|
  process_scancode := fun _ ch => ch;
  KH_ISMAKE := fun _ => true;
  KH_HASDATA := fun _ => true;
  KH_GETCHAR := fun aug => Z.land aug 255
|}.

Definition mute_keyhelp : Keyhelp := {|
  process_scancode := fun _ _ => 0;
  KH_ISMAKE := fun _ => false;
  KH_HASDATA := fun _ => false;
  KH_GETCHAR := fun aug => Z.land aug 255
|}.

(** The machine as the program starts, every input port delivering the
    scancode 0x1E. *)
Definition kernel_boot : kernel := @kernel_init pc_defines (fun _ => 30).

(** The machine after one keyboard interrupt. *)
Definition kernel_one_key : kernel := @int_handler pc_defines IRQ_KBD kernel_boot.

(** A machine whose tick counter holds the largest [uint32_t]. *)
Definition kernel_last_tick : kernel :=
  MkKernel (idt kernel_boot) 4294967295 1048576 (kbd kernel_boot) []
           (fun _ => 30) [].

End Interrupt.

Module Game.

(** [#define SIZE 4]. *)
Definition SIZE : Z := 4.

(** Conversions to [uint16_t], to [int8_t] and to [int16_t]. *)
Definition to_uint16 (z : Z) : Z := z mod 65536.
Definition to_int8 (z : Z) : Z :=
  let u := z mod 256 in if u <? 128 then u else u - 256.
Definition to_int16 (z : Z) : Z :=
  let u := z mod 65536 in if u <? 32768 then u else u - 65536.

(** A [uint16_t array[SIZE]] and a [uint16_t board[SIZE][SIZE]]: lists
    of cells and of rows.  Cells hold the value of a [uint16_t]; a
    conversion is written where the C code computes a new value, not
    where it copies one.  The loops only use indices inside the arrays;
    an index outside reads 0 and stores nothing. *)
Definition aget (array : list Z) (i : Z) : Z :=
  default 0 (array !! Z.to_nat i).
Definition aset (array : list Z) (i v : Z) : list Z :=
  <[Z.to_nat i := v]> array.
Definition bget (board : list (list Z)) (i j : Z) : Z :=
  aget (default [] (board !! Z.to_nat i)) j.
Definition bset (board : list (list Z)) (i j v : Z) : list (list Z) :=
  <[Z.to_nat i := aset (default [] (board !! Z.to_nat i)) j v]> board.

(** The globals the game logic reads and writes.  [score] and
    [best_score] are [int]s: their sums are written without wrap-around,
    which is what the code computes as long as the score stays below
    2^31 (beyond that C leaves the result undefined). *)
Record game : Type := MkGame {
  score : Z;
  best_score : Z;
  target_score : Z;
  psd_board : list (list Z)
}.

(** The body of the inner loop of [rotate]: a four-cell cycle. *)
Definition rotate_body (i j m : Z) (board : list (list Z)) : list (list Z) :=
  let temp := bget board i j in
  let board := bset board i j (bget board j (m - i)) in
  let board := bset board j (m - i) (bget board (m - i) (m - j)) in
  let board := bset board (m - i) (m - j) (bget board (m - j) i) in
  bset board (m - j) i temp.

(** [for(j = i; j < m - i; j ++)]. *)
Fixpoint rotate_inner (fuel : nat) (i j m : Z) (board : list (list Z)) :
  list (list Z) :=
  match fuel with
  | O => board
  | S k =>
      if j <? m - i
      then rotate_inner k i (j + 1) m (rotate_body i j m board)
      else board
  end.

(** [for(i = 0; i < n/2; i ++)]. *)
Fixpoint rotate_outer (fuel : nat) (i n m : Z) (board : list (list Z)) :
  list (list Z) :=
  match fuel with
  | O => board
  | S k =>
      if i <? Z.quot n 2
      then rotate_outer k (i + 1) n m
             (rotate_inner (Z.to_nat SIZE) i i m board)
      else board
  end.

(** [rotate].  The outer loop makes two rounds and the inner one at most
    three, so [SIZE] is fuel enough for either. *)
Definition rotate (board : list (list Z)) : list (list Z) :=
  rotate_outer (Z.to_nat SIZE) 0 SIZE (SIZE - 1) board.

(** [for(t = x-1; t >= 0; t--)] of [find]; [t] is an [int8_t]. *)
Fixpoint find_loop (fuel : nat) (array : list Z) (stop x t : Z) : Z :=
  match fuel with
  | O => x
  | S k =>
      if t >=? 0 then
        if aget array t =? 0 then
          if t =? stop then t
          else find_loop k array stop x (to_int8 (t - 1))
        else if negb (aget array t =? aget array x) then to_int8 (t + 1)
        else t
      else x
  end.

(** [find]. *)
Definition find (array : list Z) (stop x : Z) : Z :=
  if x =? 0 then x
  else find_loop (Z.to_nat SIZE) array stop x (to_int8 (x - 1)).

(** The body of the loop of [move_array], on the array, the two score
    globals, the flag [i] and [stop]. *)
Definition move_array_body (y : Z)
  (s : list Z * (Z * Z) * Z * Z) : list Z * (Z * Z) * Z * Z :=
  let '(array, (sc, best), i, stop) := s in
  if negb (aget array y =? 0) then
    let t := to_uint8 (find array (to_int8 stop) (to_int8 y)) in
    if negb (t =? y) then
      let '(sc, best, stop) :=
        if negb (aget array t =? 0) then
          let sc := sc + (aget array t + aget array y) in
          let best := if best <=? sc then sc else best in
          (sc, best, to_uint8 (t + 1))
        else (sc, best, stop) in
      let array := aset array t (to_uint16 (aget array t + aget array y)) in
      let array := aset array y 0 in
      (array, (sc, best), 1, stop)
    else s
  else s.

(** [for(y = 0; y < SIZE; y++)]; [y] is a [uint8_t]. *)
Fixpoint move_array_loop (fuel : nat) (y : Z)
  (s : list Z * (Z * Z) * Z * Z) : list Z * (Z * Z) * Z * Z :=
  match fuel with
  | O => s
  | S k =>
      if y <? SIZE
      then move_array_loop k (to_uint8 (y + 1)) (move_array_body y s)
      else s
  end.

(** [move_array]: the flag, the array and the two scores afterwards. *)
Definition move_array (array : list Z) (sc best : Z) : Z * list Z * (Z * Z) :=
  let '(array, scores, i, _) :=
    move_array_loop (Z.to_nat SIZE) 0 (array, (sc, best), 0, 0) in
  (i, array, scores).

(** The inner loop of [find_same]; [true] when it returns 1. *)
Fixpoint find_same_inner (fuel : nat) (board : list (list Z)) (x y : Z) : bool :=
  match fuel with
  | O => false
  | S k =>
      if y <? SIZE - 1 then
        if bget board x y =? bget board x (y + 1) then true
        else find_same_inner k board x (y + 1)
      else false
  end.

Fixpoint find_same_outer (fuel : nat) (board : list (list Z)) (x : Z) : Z :=
  match fuel with
  | O => 0
  | S k =>
      if x <? SIZE then
        if find_same_inner (Z.to_nat SIZE) board x 0 then 1
        else find_same_outer k board (x + 1)
      else 0
  end.

(** [find_same]. *)
Definition find_same (board : list (list Z)) : Z :=
  find_same_outer (Z.to_nat SIZE + 1) board 0.

(** The first pair of loops of [is_over]; [true] when it returns 0. *)
Fixpoint is_over_inner (fuel : nat) (board : list (list Z)) (x y : Z) : bool :=
  match fuel with
  | O => false
  | S k =>
      if y <? SIZE then
        if bget board x y =? 0 then true
        else is_over_inner k board x (y + 1)
      else false
  end.

Fixpoint is_over_outer (fuel : nat) (board : list (list Z)) (x : Z) : bool :=
  match fuel with
  | O => false
  | S k =>
      if x <? SIZE then
        if is_over_inner (Z.to_nat SIZE + 1) board x 0 then true
        else is_over_outer k board (x + 1)
      else false
  end.

(** [is_over]: the result and the board as the function leaves it. *)
Definition is_over (board : list (list Z)) : Z * list (list Z) :=
  let over := 1 in
  if is_over_outer (Z.to_nat SIZE + 1) board 0 then (0, board)
  else if negb (find_same board =? 0) then (0, board)
  else
    let board := rotate board in
    let over := if negb (find_same board =? 0) then 0 else over in
    let board := rotate board in
    let board := rotate board in
    let board := rotate board in
    (over, board).

(** The loops of [is_win]. *)
Fixpoint is_win_inner (fuel : nat) (board : list (list Z)) (target x y win : Z) : Z :=
  match fuel with
  | O => win
  | S k =>
      if y <? SIZE
      then is_win_inner k board target x (y + 1)
             (if bget board x y =? target then 1 else win)
      else win
  end.

Fixpoint is_win_outer (fuel : nat) (board : list (list Z)) (target x win : Z) : Z :=
  match fuel with
  | O => win
  | S k =>
      if x <? SIZE
      then is_win_outer k board target (x + 1)
             (is_win_inner (Z.to_nat SIZE + 1) board target x 0 win)
      else win
  end.

(** [is_win]. *)
Definition is_win (board : list (list Z)) (g : game) : Z :=
  is_win_outer (Z.to_nat SIZE + 1) board (target_score g) 0 0.

(** The inner and the outer loop of [copy_borad]. *)
Fixpoint copy_inner (fuel : nat) (board psd : list (list Z)) (i j : Z) :
  list (list Z) :=
  match fuel with
  | O => psd
  | S k =>
      if j <? SIZE
      then copy_inner k board (bset psd i j (bget board i j)) i (j + 1)
      else psd
  end.

Fixpoint copy_outer (fuel : nat) (board psd : list (list Z)) (i : Z) :
  list (list Z) :=
  match fuel with
  | O => psd
  | S k =>
      if i <? SIZE
      then copy_outer k board (copy_inner (Z.to_nat SIZE + 1) board psd i 0) (i + 1)
      else psd
  end.

(** [copy_borad]: the second array afterwards. *)
Definition copy_borad (board psd : list (list Z)) : list (list Z) :=
  copy_outer (Z.to_nat SIZE + 1) board psd 0.

(** The first pair of loops of [animation]. *)
Fixpoint animation_clear_inner (fuel : nat) (board psd : list (list Z))
  (i j : Z) : list (list Z) :=
  match fuel with
  | O => psd
  | S k =>
      if j <? SIZE
      then animation_clear_inner k board
             (if negb (bget board i j =? 2 * bget psd i j)
              then bset psd i j 0 else psd) i (j + 1)
      else psd
  end.

Fixpoint animation_clear_outer (fuel : nat) (board psd : list (list Z))
  (i : Z) : list (list Z) :=
  match fuel with
  | O => psd
  | S k =>
      if i <? SIZE
      then animation_clear_outer k board
             (animation_clear_inner (Z.to_nat SIZE + 1) board psd i 0) (i + 1)
      else psd
  end.

(** The body of the second pair of loops of [animation]. *)
Definition animation_body (board back : list (list Z)) (n m : Z)
  (psd : list (list Z)) : list (list Z) :=
  let psd :=
    if m =? 1 then
      if negb (bget back n 2 =? 0) && negb (bget back n 3 =? 0) &&
         (bget board n 1 =? bget back n 2 + bget back n 3)
      then bset psd n 1 (to_uint16 (Z.quot (bget board n 1) 2))
      else psd
    else psd in
  if m =? 0 then
    let psd :=
      if negb (bget back n 1 =? 0) && negb (bget back n 3 =? 0) &&
         (bget board n 0 =? bget back n 1 + bget back n 3)
      then bset psd n 0 (to_uint16 (Z.quot (bget board n 0) 2))
      else psd in
    let psd :=
      if negb (bget back n 2 =? 0) && negb (bget back n 3 =? 0) &&
         (bget board n 0 =? bget back n 2 + bget back n 3)
      then bset psd n 0 (to_uint16 (Z.quot (bget board n 0) 2))
      else psd in
    if negb (bget back n 2 =? 0) && negb (bget back n 1 =? 0) &&
       (bget board n 0 =? bget back n 2 + bget back n 1)
    then bset psd n 0 (to_uint16 (Z.quot (bget board n 0) 2))
    else psd
  else psd.

Fixpoint animation_mark_inner (fuel : nat) (board back psd : list (list Z))
  (n m : Z) : list (list Z) :=
  match fuel with
  | O => psd
  | S k =>
      if m <? 2
      then animation_mark_inner k board back
             (animation_body board back n m psd) n (m + 1)
      else psd
  end.

Fixpoint animation_mark_outer (fuel : nat) (board back psd : list (list Z))
  (n : Z) : list (list Z) :=
  match fuel with
  | O => psd
  | S k =>
      if n <? SIZE
      then animation_mark_outer k board back
             (animation_mark_inner 3 board back psd n 0) (n + 1)
      else psd
  end.

(** [animation]: the pseudo-board afterwards.  The local [back] is not
    initialised; [copy_borad] writes each of its cells before any is
    read, so that it is started off here with zeros. *)
Definition animation (board psd : list (list Z)) : list (list Z) :=
  let back := copy_borad psd (replicate 4 (replicate 4 0)) in
  let psd := animation_clear_outer (Z.to_nat SIZE + 1) board psd 0 in
  animation_mark_outer (Z.to_nat SIZE + 1) board back psd 0.

(** The loop of [move_up]: [i |= move_array(board[x])]. *)
Fixpoint move_up_loop (fuel : nat) (x : Z) (board : list (list Z))
  (sc best i : Z) : Z * list (list Z) * (Z * Z) :=
  match fuel with
  | O => (i, board, (sc, best))
  | S k =>
      if x <? SIZE then
        let '(flag, row, (sc, best)) :=
          move_array (default [] (board !! Z.to_nat x)) sc best in
        move_up_loop k (x + 1) (<[Z.to_nat x := row]> board) sc best
                     (Z.lor i flag)
      else (i, board, (sc, best))
  end.

(** [move_up]: the result, the board and the globals afterwards. *)
Definition move_up (board : list (list Z)) (g : game) :
  Z * list (list Z) * game :=
  let '(i, board, (sc, best)) :=
    move_up_loop (Z.to_nat SIZE + 1) 0 board (score g) (best_score g) 0 in
  (i, board, MkGame sc best (target_score g) (animation board (psd_board g))).

(** [rotate(psd_board)]. *)
Definition rotate_psd (g : game) : game :=
  MkGame (score g) (best_score g) (target_score g) (rotate (psd_board g)).

(** [move_down]. *)
Definition move_down (board : list (list Z)) (g : game) :
  Z * list (list Z) * game :=
  let board := rotate board in
  let g := rotate_psd g in
  let board := rotate board in
  let g := rotate_psd g in
  let '(i, board, g) := move_up board g in
  let board := rotate board in
  let g := rotate_psd g in
  let board := rotate board in
  let g := rotate_psd g in
  (i, board, g).

(** [move_left]. *)
Definition move_left (board : list (list Z)) (g : game) :
  Z * list (list Z) * game :=
  let board := rotate board in
  let g := rotate_psd g in
  let '(i, board, g) := move_up board g in
  let board := rotate board in
  let g := rotate_psd g in
  let board := rotate board in
  let g := rotate_psd g in
  let board := rotate board in
  let g := rotate_psd g in
  (i, board, g).

(** [move_right]. *)
Definition move_right (board : list (list Z)) (g : game) :
  Z * list (list Z) * game :=
  let board := rotate board in
  let g := rotate_psd g in
  let board := rotate board in
  let g := rotate_psd g in
  let board := rotate board in
  let g := rotate_psd g in
  let '(i, board, g) := move_up board g in
  let board := rotate board in
  let g := rotate_psd g in
  (i, board, g).

(** The loops of [add_random], which record the empty cells in the array
    [list], here [cells]; [len] is the length of it.  [x] and [y] are
    [int8_t]s and the array holds [uint16_t]s. *)
Fixpoint add_random_inner (fuel : nat) (board : list (list Z)) (x y : Z)
  (cells : list (Z * Z)) : list (Z * Z) :=
  match fuel with
  | O => cells
  | S k =>
      if y <? SIZE
      then add_random_inner k board x (to_int8 (y + 1))
             (if bget board x y =? 0
              then cells ++ [(to_uint16 x, to_uint16 y)] else cells)
      else cells
  end.

Fixpoint add_random_outer (fuel : nat) (board : list (list Z)) (x : Z)
  (cells : list (Z * Z)) : list (Z * Z) :=
  match fuel with
  | O => cells
  | S k =>
      if x <? SIZE
      then add_random_outer k board (to_int8 (x + 1))
             (add_random_inner (Z.to_nat SIZE + 1) board x 0 cells)
      else cells
  end.

(** [add_random]; [r1] and [r2] are what the two calls of [rand()]
    return, [RANDOM(len)] making the first and [RANDONM_NUM(3)] the
    second. *)
Definition add_random (board : list (list Z)) (r1 r2 : Z) : list (list Z) :=
  let cells := add_random_outer (Z.to_nat SIZE + 1) board 0 [] in
  let len := to_int16 (Z.of_nat (length cells)) in
  if len >? 0 then
    let random_len := to_int16 (Z.rem r1 len) in
    let n := to_uint16 ((Z.quot (Z.rem r2 3) (3 - 1) + 1) * 2) in
    let '(x, y) := nth (Z.to_nat random_len) cells (0, 0) in
    bset board (to_int8 x) (to_int8 y) n
  else board.

(** *** Notions used to state the properties *)

(** A board has four rows of four cells. *)
Definition board_ok (board : list (list Z)) : Prop :=
  length board = 4%nat /\ Forall (fun row => length row = 4%nat) board.

(** The sum of the cells of an array and of a board. *)
Definition asum (array : list Z) : Z := fold_right Z.add 0 array.
Definition bsum (board : list (list Z)) : Z := asum (map asum board).

(** No tile follows an empty cell. *)
Definition packed (array : list Z) : Prop :=
  forall i j, 0 <= i < j -> j < SIZE -> aget array i = 0 -> aget array j = 0.

(** Every cell of an array holds a value below [bound]. *)
Definition cells_below (bound : Z) (array : list Z) : Prop :=
  Forall (fun v => 0 <= v < bound) array.

(** The move of a row as the game 2048 has it: the tiles of a row, in
    order; neighbours of equal value merged in pairs from the front, and
    the sum of the tiles so made; the row filled up with empty cells. *)
Fixpoint tiles (array : list Z) : list Z :=
  match array with
  | [] => []
  | v :: rest => if v =? 0 then tiles rest else v :: tiles rest
  end.

Fixpoint merge_row (row : list Z) : list Z * Z :=
  match row with
  | v :: ((w :: rest) as tl) =>
      if v =? w
      then let '(m, gain) := merge_row rest in ((v + w) :: m, v + w + gain)
      else let '(m, gain) := merge_row tl in (v :: m, gain)
  | _ => (row, 0)
  end.

Definition row_move (array : list Z) : list Z * Z :=
  let '(m, gain) := merge_row (tiles array) in
  (m ++ replicate (length array - length m) 0, gain).

(** The result [r] of the code on a row, against the row [m] and the
    gain [g] of [row_move]. *)
Definition row_outcome (array : list Z) (sc best : Z)
  (r : Z * list Z * (Z * Z)) (m : list Z) (g : Z) : Prop :=
  snd (fst r) = m /\
  fst (snd r) = sc + g /\
  snd (snd r) = (if g =? 0 then best else Z.max best (sc + g)) /\
  (fst (fst r) = 0 /\ m = array /\ g = 0 \/
   fst (fst r) = 1 /\ m <> array) /\
  length m = 4%nat /\
  asum m = asum array /\
  packed m /\
  0 <= g <= asum array /\
  cells_below 65536 m.

(** A row and a column of a board. *)
Definition row (board : list (list Z)) (i : Z) : list Z :=
  default [] (board !! Z.to_nat i).
Definition column (board : list (list Z)) (j : Z) : list Z :=
  map (fun r => aget r j) board.

(** What a move makes of a board and of the scores: [r] is the result
    of the code, the number it returns, the board and the globals
    afterwards.  The board is again a 4x4 board of cells below 65536 with
    the same sum; the number returned is 0 and board and scores are as
    they were, or it is 1 and the board has changed; the score rose by
    at most the sum of the board, the best score did not fall and the
    target is as it was. *)
Definition move_outcome (board : list (list Z)) (g : game)
  (r : Z * list (list Z) * game) : Prop :=
  board_ok (snd (fst r)) /\
  Forall (cells_below 65536) (snd (fst r)) /\
  bsum (snd (fst r)) = bsum board /\
  (fst (fst r) = 0 /\ snd (fst r) = board /\
   score (snd r) = score g /\ best_score (snd r) = best_score g \/
   fst (fst r) = 1 /\ snd (fst r) <> board) /\
  score g <= score (snd r) <= score g + bsum board /\
  best_score g <= best_score (snd r) /\
  target_score (snd r) = target_score g.

(** A board on which no move is possible, and one that is not. *)
Definition board_stuck : list (list Z) :=
  [[2; 4; 2; 4]; [4; 2; 4; 2]; [2; 4; 2; 4]; [4; 2; 4; 2]].
Definition board_play : list (list Z) :=
  [[2; 2; 4; 0]; [0; 0; 0; 0]; [8; 0; 8; 16]; [4; 4; 4; 4]].

End Game.

(* ================================================================== *)
(** * Part II: the properties *)
(* ================================================================== *)

(** ** Bytes and memory *)

Lemma Z_of_byte_of_Z (z : Z) : 0 <= z < 256 -> Z_of_byte (byte_of_Z z) = z.
Proof.
  intros Hz. unfold Z_of_byte, byte_of_Z.
  rewrite Z.mod_small by lia.
  destruct (Byte.of_N (Z.to_N z)) as [b|] eqn:E.
  - apply Byte.to_of_N in E. rewrite E. lia.
  - apply Byte.of_N_None_iff in E. lia.
Qed.

Lemma Z_of_byte_range (b : byte) : 0 <= Z_of_byte b < 256.
Proof.
  unfold Z_of_byte. pose proof (Byte.to_N_bounded b). lia.
Qed.

Lemma Z_of_byte_of_Z_mod (z : Z) : Z_of_byte (byte_of_Z z) = to_uint8 z.
Proof.
  unfold to_uint8. rewrite <- (Z_of_byte_of_Z (z mod 256)).
  - unfold byte_of_Z. now rewrite Z.mod_mod by lia.
  - apply Z.mod_pos_bound. lia.
Qed.

(** A [char] converted to [uint8_t] is the byte it was read from. *)
Lemma to_uint8_char_of_byte (b : byte) : to_uint8 (char_of_byte b) = Z_of_byte b.
Proof.
  unfold to_uint8, char_of_byte. pose proof (Z_of_byte_range b).
  destruct (Z.ltb_spec (Z_of_byte b) 128).
  - apply Z.mod_small. lia.
  - replace (Z_of_byte b - 256) with (Z_of_byte b + (-1) * 256) by lia.
    rewrite Z.mod_add by lia. apply Z.mod_small. lia.
Qed.

Lemma store_eq (m : memory) (a : Z) (v : byte) : store m a v a = v.
Proof. unfold store. now rewrite Z.eqb_refl. Qed.

Lemma store_ne (m : memory) (a x : Z) (v : byte) : x <> a -> store m a v x = m x.
Proof. unfold store. intros Hne. now destruct (Z.eqb_spec x a). Qed.

Module ConsoleFacts.
Import Console.

Section Facts.
Context `{VideoDefines}.

(** *** The two loops of [console_scroll] *)

Lemma scroll_copy_spec (fuel : nat) :
  forall (head start end_ : Z) (m : memory),
    head < start <= end_ ->
    (Z.to_nat (end_ - start) <= fuel)%nat ->
    forall a,
      scroll_copy fuel head start end_ m a =
      if (head <=? a) && (a <? head + (end_ - start))
      then m (a + (start - head)) else m a.
Proof.
  induction fuel as [|k IH]; intros head start end_ m Hord Hfuel a; simpl.
  - replace end_ with start by lia.
    destruct (Z.leb_spec head a), (Z.ltb_spec a (head + (start - start)));
      simpl; trivial; lia.
  - destruct (Z.eqb_spec start end_) as [->|Hne].
    + destruct (Z.leb_spec head a), (Z.ltb_spec a (head + (end_ - end_)));
        simpl; trivial; lia.
    + rewrite IH by lia.
      destruct (Z.leb_spec (head + 1) a), (Z.leb_spec head a),
        (Z.ltb_spec a (head + 1 + (end_ - (start + 1)))),
        (Z.ltb_spec a (head + (end_ - start))); simpl; try lia.
      all: try rewrite store_ne by lia.
      all: try (replace a with head by lia; rewrite store_eq).
      all: try (f_equal; lia).
Qed.

Lemma scroll_fill_spec (fuel : nat) :
  forall (start end_ color : Z) (m : memory) (n : Z),
    0 <= n -> end_ = start + 2 * n ->
    (Z.to_nat n <= fuel)%nat ->
    forall a,
      scroll_fill fuel start end_ color m a =
      if (start <=? a) && (a <? end_)
      then (if Z.even (a - start) then blank else byte_of_Z color)
      else m a.
Proof.
  induction fuel as [|k IH]; intros start end_ color m n Hn He Hfuel a; simpl.
  - replace end_ with start by lia.
    destruct (Z.leb_spec start a), (Z.ltb_spec a start); simpl; trivial; lia.
  - destruct (Z.eqb_spec start end_) as [<-|Hne].
    + destruct (Z.leb_spec start a), (Z.ltb_spec a start); simpl; trivial; lia.
    + rewrite (IH _ _ _ _ (n - 1)) by lia.
      destruct (Z.leb_spec (start + 2) a), (Z.leb_spec start a),
        (Z.ltb_spec a end_); simpl; try lia.
      all: try rewrite !store_ne by lia; trivial.
      * replace (a - start) with (Z.succ (Z.succ (a - (start + 2)))) by lia.
        now rewrite Z.even_succ_succ.
      * destruct (Z.eq_dec a start) as [->|Ha].
        -- replace (start - start) with 0 by lia. simpl.
           rewrite store_ne by lia. apply store_eq.
        -- replace a with (start + 1) by lia.
           replace (start + 1 - start) with 1 by lia. simpl.
           apply store_eq.
Qed.

(** What one call of [console_scroll] does to every byte of memory: the
    grid moves up by one row, the last row is blanked, the rest of the
    memory is left alone. *)
Lemma console_scroll_bytes (st : console) :
  video_ok ->
  forall a,
    mem (console_scroll st) a =
    let off := a - CONSOLE_MEM_BASE in
    if (0 <=? off) && (off <? (CONSOLE_SZ - CONSOLE_WIDTH) * 2)
    then mem st (a + CONSOLE_WIDTH * 2)
    else if (0 <=? off) && (off <? CONSOLE_SZ * 2)
    then (if Z.even (off - (CONSOLE_SZ - CONSOLE_WIDTH) * 2)
          then blank else byte_of_Z (cursor_color st))
    else mem st a.
Proof.
  intros (HW & HH & HSZ) a. unfold console_scroll. cbn zeta.
  assert (HWle : CONSOLE_WIDTH <= CONSOLE_SZ) by nia.
  unfold set_mem; cbn [mem].
  rewrite (scroll_fill_spec _ _ _ _ _ CONSOLE_WIDTH) by lia.
  rewrite scroll_copy_spec by lia.
  destruct (Z.leb_spec 0 (a - CONSOLE_MEM_BASE)),
    (Z.ltb_spec (a - CONSOLE_MEM_BASE) ((CONSOLE_SZ - CONSOLE_WIDTH) * 2)),
    (Z.ltb_spec (a - CONSOLE_MEM_BASE) (CONSOLE_SZ * 2)),
    (Z.leb_spec (CONSOLE_MEM_BASE + CONSOLE_SZ * 2 - CONSOLE_WIDTH * 2) a),
    (Z.ltb_spec a (CONSOLE_MEM_BASE + CONSOLE_SZ * 2)),
    (Z.leb_spec CONSOLE_MEM_BASE a),
    (Z.ltb_spec a (CONSOLE_MEM_BASE +
       (CONSOLE_MEM_BASE + CONSOLE_SZ * 2 - (CONSOLE_MEM_BASE + CONSOLE_WIDTH * 2))));
    simpl; try lia; trivial.
  - f_equal. lia.
  - replace (a - (CONSOLE_MEM_BASE + CONSOLE_SZ * 2 - CONSOLE_WIDTH * 2))
      with (a - CONSOLE_MEM_BASE - (CONSOLE_SZ - CONSOLE_WIDTH) * 2) by lia.
    reflexivity.
Qed.

(** *** Cells under a scroll *)

Lemma scroll_rows_up (st : console) :
  video_ok ->
  forall r c, 1 <= r < CONSOLE_HEIGHT -> 0 <= c < CONSOLE_WIDTH ->
    cell (mem (console_scroll st)) (r - 1) c = cell (mem st) r c.
Proof.
  intros Hok r c Hr Hc. pose proof Hok as (HW & HH & HSZ).
  unfold cell. cbn zeta. rewrite !(console_scroll_bytes st Hok). cbn zeta.
  assert (Hb : (r - 1) * CONSOLE_WIDTH + c < CONSOLE_SZ - CONSOLE_WIDTH) by nia.
  assert (Hp : 0 <= (r - 1) * CONSOLE_WIDTH) by nia.
  repeat match goal with
  | |- context [(0 <=? ?x) && (?x <? ?y)] =>
      replace ((0 <=? x) && (x <? y)) with true
        by (symmetry; apply andb_true_intro; split;
            [apply Z.leb_le | apply Z.ltb_lt]; lia)
  end.
  f_equal; f_equal; lia.
Qed.

Lemma scroll_last_row (st : console) :
  video_ok ->
  forall c, 0 <= c < CONSOLE_WIDTH ->
    cell (mem (console_scroll st)) (CONSOLE_HEIGHT - 1) c =
    (blank, byte_of_Z (cursor_color st)).
Proof.
  intros Hok c Hc. pose proof Hok as (HW & HH & HSZ).
  unfold cell. cbn zeta. rewrite !(console_scroll_bytes st Hok). cbn zeta.
  assert (Hb : (CONSOLE_HEIGHT - 1) * CONSOLE_WIDTH = CONSOLE_SZ - CONSOLE_WIDTH) by lia.
  set (a := CONSOLE_MEM_BASE + ((CONSOLE_HEIGHT - 1) * CONSOLE_WIDTH + c) * 2).
  replace (a - CONSOLE_MEM_BASE) with ((CONSOLE_SZ - CONSOLE_WIDTH) * 2 + 2 * c)
    by (unfold a; lia).
  replace (a + 1 - CONSOLE_MEM_BASE) with ((CONSOLE_SZ - CONSOLE_WIDTH) * 2 + 1 + 2 * c)
    by (unfold a; lia).
  replace ((CONSOLE_SZ - CONSOLE_WIDTH) * 2 + 2 * c <? (CONSOLE_SZ - CONSOLE_WIDTH) * 2)
    with false by (symmetry; apply Z.ltb_ge; lia).
  replace ((CONSOLE_SZ - CONSOLE_WIDTH) * 2 + 1 + 2 * c <? (CONSOLE_SZ - CONSOLE_WIDTH) * 2)
    with false by (symmetry; apply Z.ltb_ge; lia).
  rewrite !andb_false_r.
  replace (0 <=? (CONSOLE_SZ - CONSOLE_WIDTH) * 2 + 2 * c) with true
    by (symmetry; apply Z.leb_le; nia).
  replace (0 <=? (CONSOLE_SZ - CONSOLE_WIDTH) * 2 + 1 + 2 * c) with true
    by (symmetry; apply Z.leb_le; nia).
  replace ((CONSOLE_SZ - CONSOLE_WIDTH) * 2 + 2 * c <? CONSOLE_SZ * 2) with true
    by (symmetry; apply Z.ltb_lt; lia).
  replace ((CONSOLE_SZ - CONSOLE_WIDTH) * 2 + 1 + 2 * c <? CONSOLE_SZ * 2) with true
    by (symmetry; apply Z.ltb_lt; lia).
  cbn [andb].
  replace ((CONSOLE_SZ - CONSOLE_WIDTH) * 2 + 2 * c - (CONSOLE_SZ - CONSOLE_WIDTH) * 2)
    with (0 + 2 * c) by lia.
  replace ((CONSOLE_SZ - CONSOLE_WIDTH) * 2 + 1 + 2 * c - (CONSOLE_SZ - CONSOLE_WIDTH) * 2)
    with (1 + 2 * c) by lia.
  now rewrite !Z.even_add_mul_2.
Qed.

(** *** The argument checks *)

Lemma cursor_guard_false (r c : Z) :
  0 <= r < CONSOLE_HEIGHT -> 0 <= c < CONSOLE_WIDTH ->
  (r <? 0) || (r >=? CONSOLE_HEIGHT) || (c <? 0) || (c >=? CONSOLE_WIDTH) = false.
Proof.
  intros Hr Hc. rewrite !Z.geb_leb.
  destruct (Z.ltb_spec r 0), (Z.leb_spec CONSOLE_HEIGHT r),
    (Z.ltb_spec c 0), (Z.leb_spec CONSOLE_WIDTH c); simpl; trivial; lia.
Qed.

Lemma cursor_guard_true (r c : Z) :
  ~ (0 <= r < CONSOLE_HEIGHT /\ 0 <= c < CONSOLE_WIDTH) ->
  (r <? 0) || (r >=? CONSOLE_HEIGHT) || (c <? 0) || (c >=? CONSOLE_WIDTH) = true.
Proof.
  intros Hn. rewrite !Z.geb_leb.
  destruct (Z.ltb_spec r 0), (Z.leb_spec CONSOLE_HEIGHT r),
    (Z.ltb_spec c 0), (Z.leb_spec CONSOLE_WIDTH c); simpl; trivial; lia.
Qed.

Lemma color_guard_false (k : Z) :
  0 <= k < COLOR_BOUND -> (k >=? COLOR_BOUND) || (k <? 0) = false.
Proof.
  intros Hk. rewrite Z.geb_leb.
  destruct (Z.leb_spec COLOR_BOUND k), (Z.ltb_spec k 0); simpl; trivial; lia.
Qed.

(** C division of a cell index by the width gives back row and column. *)
Lemma quot_rem_cell (r c : Z) :
  0 < CONSOLE_WIDTH -> 0 <= r -> 0 <= c < CONSOLE_WIDTH ->
  Z.quot (r * CONSOLE_WIDTH + c) CONSOLE_WIDTH = r /\
  Z.rem (r * CONSOLE_WIDTH + c) CONSOLE_WIDTH = c.
Proof.
  intros HW Hr Hc.
  assert (0 <= r * CONSOLE_WIDTH + c) by nia.
  rewrite Z.quot_div_nonneg, Z.rem_mod_nonneg by lia.
  split.
  - rewrite Z.div_add_l, Z.div_small by lia. lia.
  - rewrite Z.add_comm, Z.mod_add, Z.mod_small by lia. lia.
Qed.

(** *** Frames *)

Lemma console_scroll_frame (st : console) :
  cursor_row (console_scroll st) = cursor_row st /\
  cursor_col (console_scroll st) = cursor_col st /\
  cursor_hidden (console_scroll st) = cursor_hidden st /\
  cursor_color (console_scroll st) = cursor_color st /\
  outb_log (console_scroll st) = outb_log st.
Proof.
  unfold console_scroll, set_mem.
  cbn [cursor_row cursor_col cursor_hidden cursor_color outb_log]. tauto.
Qed.

Lemma console_scroll_mem_ext (st1 st2 : console) :
  mem st1 = mem st2 -> cursor_color st1 = cursor_color st2 ->
  mem (console_scroll st1) = mem (console_scroll st2).
Proof.
  unfold console_scroll, set_mem. cbn [mem]. now intros -> ->.
Qed.

(** The last three lines of [putbyte]: on a cursor that lies on the grid
    they touch the port log only. *)
Lemma putbyte_epilogue (st1 : console) :
  cursor_ok st1 ->
  let st2 := snd (set_cursor (cursor_row st1) (cursor_col st1) st1) in
  let st3 := if cursor_hidden st2 =? 0 then show_cursor st2 else st2 in
  cursor_row st3 = cursor_row st1 /\ cursor_col st3 = cursor_col st1 /\
  mem st3 = mem st1 /\ cursor_color st3 = cursor_color st1 /\
  cursor_hidden st3 = cursor_hidden st1.
Proof.
  intros [Hr Hc]. unfold set_cursor. rewrite cursor_guard_false by assumption.
  cbn [snd]. destruct st1 as [r c h k m l].
  cbn [set_row set_col cursor_row cursor_col cursor_hidden cursor_color mem].
  destruct (h =? 0); cbn; tauto.
Qed.

(** Where a backspace lands. *)
Lemma backspace_target (row col : Z) :
  video_ok ->
  0 <= row < CONSOLE_HEIGHT -> 0 <= col < CONSOLE_WIDTH ->
  let pos := row * CONSOLE_WIDTH + col - 1 in
  let pos' := if pos <? 0 then 0 else pos in
  let r' := Z.quot pos' CONSOLE_WIDTH in
  let c' := Z.rem pos' CONSOLE_WIDTH in
  (0 <= r' < CONSOLE_HEIGHT /\ 0 <= c' < CONSOLE_WIDTH) /\
  r' * CONSOLE_WIDTH + c' = Z.max (row * CONSOLE_WIDTH + col - 1) 0 /\
  (0 < col -> (r', c') = (row, col - 1)) /\
  (col = 0 -> 0 < row -> (r', c') = (row - 1, CONSOLE_WIDTH - 1)) /\
  (col = 0 -> row = 0 -> (r', c') = (0, 0)).
Proof.
  intros (HW & HH & HSZ) Hr Hc. cbn zeta.
  assert (Hcases :
    exists r2 c2, 0 <= r2 < CONSOLE_HEIGHT /\ 0 <= c2 < CONSOLE_WIDTH /\
      (if row * CONSOLE_WIDTH + col - 1 <? 0 then 0
       else row * CONSOLE_WIDTH + col - 1) = r2 * CONSOLE_WIDTH + c2 /\
      (0 < col -> (r2, c2) = (row, col - 1)) /\
      (col = 0 -> 0 < row -> (r2, c2) = (row - 1, CONSOLE_WIDTH - 1)) /\
      (col = 0 -> row = 0 -> (r2, c2) = (0, 0))).
  { destruct (Z.ltb_spec (row * CONSOLE_WIDTH + col - 1) 0) as [Hneg|Hpos].
    - assert (row = 0 /\ col = 0) as [-> ->] by nia.
      exists 0, 0. repeat split; trivial; lia.
    - destruct (Z.eq_dec col 0) as [->|Hcol].
      + exists (row - 1), (CONSOLE_WIDTH - 1).
        repeat split; trivial; try nia; lia.
      + exists row, (col - 1). repeat split; trivial; try lia. } 
  destruct Hcases as (r2 & c2 & Hr2 & Hc2 & -> & H1 & H2 & H3).
  destruct (quot_rem_cell r2 c2) as [-> ->]; try lia.
  repeat split; trivial; try lia.
  assert (0 <= row * CONSOLE_WIDTH) by nia.
  destruct (Z.eq_dec col 0) as [Hz|Hnz].
  - destruct (Z.eq_dec row 0) as [Hz'|Hnz'].
    + specialize (H3 Hz Hz'). injection H3 as -> ->. subst. lia.
    + assert (Hrow : 0 < row) by lia.
      specialize (H2 Hz Hrow). injection H2 as -> ->. subst. nia.
  - assert (Hcol : 0 < col) by lia.
    specialize (H1 Hcol). injection H1 as -> ->. lia.
Qed.

(** *** [set_cursor] and [get_cursor] *)

(** C7.  For a position on the grid [set_cursor] returns 0 and the
    cursor read back by [get_cursor] is that position; for a position
    with a coordinate off the grid it returns a negative value and leaves
    the state, hence the cursor [get_cursor] reads, as it was. *)
Theorem set_cursor_get_cursor (st : console) (row col : Z) :
  (0 <= row < CONSOLE_HEIGHT /\ 0 <= col < CONSOLE_WIDTH ->
   fst (set_cursor row col st) = 0 /\
   get_cursor (snd (set_cursor row col st)) = (row, col)) /\
  (~ (0 <= row < CONSOLE_HEIGHT /\ 0 <= col < CONSOLE_WIDTH) ->
   fst (set_cursor row col st) < 0 /\
   snd (set_cursor row col st) = st /\
   get_cursor (snd (set_cursor row col st)) = get_cursor st).
Proof.
  split.
  - intros [Hr Hc]. unfold set_cursor.
    rewrite cursor_guard_false by assumption. now cbn.
  - intros Hout. unfold set_cursor.
    rewrite cursor_guard_true by assumption. cbn. repeat split; trivial; lia.
Qed.

(** *** Newline on the last row *)

(** C6.  With the cursor on the last row, [putbyte '\n'] leaves the
    memory exactly as one [console_scroll] does: every row from 1 to
    height-1 is found one row higher (so the old row 0 is gone), every
    cell of the last row is a blank in the current colour, and the
    cursor is at column 0 of the last row. *)
Theorem putbyte_newline_on_last_row (st : console) :
  video_ok -> color_ok st -> cursor_row st = CONSOLE_HEIGHT - 1 ->
  let st' := snd (putbyte 10 st) in
  mem st' = mem (console_scroll st) /\
  (forall r c, 1 <= r < CONSOLE_HEIGHT -> 0 <= c < CONSOLE_WIDTH ->
     cell (mem st') (r - 1) c = cell (mem st) r c) /\
  (forall c, 0 <= c < CONSOLE_WIDTH ->
     cell (mem st') (CONSOLE_HEIGHT - 1) c = (blank, byte_of_Z (cursor_color st))) /\
  Z_of_byte (byte_of_Z (cursor_color st)) = cursor_color st /\
  get_cursor st' = (CONSOLE_HEIGHT - 1, 0) /\
  cursor_color st' = cursor_color st.
Proof.
  intros Hok Hcol Hrow. pose proof Hok as (HW & HH & HSZ).
  unfold putbyte. change (10 =? 10) with true. cbv iota. cbn zeta.
  set (sA := set_col 0 (set_row (cursor_row st + 1) st)).
  assert (HsA : (cursor_row sA >=? CONSOLE_HEIGHT) = true).
  { unfold sA. cbn [set_col set_row cursor_row]. rewrite Z.geb_leb.
    apply Z.leb_le. lia. }
  rewrite HsA.
  set (st1 := console_scroll (set_row (CONSOLE_HEIGHT - 1) sA)).
  destruct (console_scroll_frame (set_row (CONSOLE_HEIGHT - 1) sA))
    as (F1 & F2 & _ & F4 & _). fold st1 in F1, F2, F4.
  cbn [set_row set_col cursor_row cursor_col cursor_color sA] in F1, F2, F4.
  assert (Hok1 : cursor_ok st1) by (unfold cursor_ok; rewrite F1, F2; lia).
  destruct (putbyte_epilogue st1 Hok1) as (E1 & E2 & E3 & E4 & _).
  cbn [snd].
  assert (Hmem : mem st1 = mem (console_scroll st))
    by (apply console_scroll_mem_ext; reflexivity).
  rewrite E3, Hmem. unfold get_cursor. rewrite E1, E2, E4, F1, F2, F4.
  repeat split; trivial.
  - intros r c Hr Hc. now apply scroll_rows_up.
  - intros c Hc. now apply scroll_last_row.
  - apply Z_of_byte_of_Z. exact Hcol.
Qed.

(** *** Backspace *)

(** C10.  [putbyte '\b'] on a cursor on the grid moves it one cell back
    in row-major order: to the previous column, from column 0 to the
    last column of the row above, and not at all from cell (0, 0).  The
    cell under the new cursor becomes a blank in the current colour, and
    no other byte of memory, hence no other cell, changes. *)
Theorem putbyte_backspace (st : console) :
  video_ok -> cursor_ok st -> color_ok st ->
  let st' := snd (putbyte 8 st) in
  let a := CONSOLE_MEM_BASE +
           (cursor_row st' * CONSOLE_WIDTH + cursor_col st') * 2 in
  cursor_ok st' /\
  cursor_row st' * CONSOLE_WIDTH + cursor_col st' =
    Z.max (cursor_row st * CONSOLE_WIDTH + cursor_col st - 1) 0 /\
  (0 < cursor_col st ->
     get_cursor st' = (cursor_row st, cursor_col st - 1)) /\
  (cursor_col st = 0 -> 0 < cursor_row st ->
     get_cursor st' = (cursor_row st - 1, CONSOLE_WIDTH - 1)) /\
  (cursor_col st = 0 -> cursor_row st = 0 -> get_cursor st' = (0, 0)) /\
  cell (mem st') (cursor_row st') (cursor_col st') =
    (blank, byte_of_Z (cursor_color st)) /\
  Z_of_byte (byte_of_Z (cursor_color st)) = cursor_color st /\
  (forall x, x <> a -> x <> a + 1 -> mem st' x = mem st x) /\
  (forall r c, 0 <= r < CONSOLE_HEIGHT -> 0 <= c < CONSOLE_WIDTH ->
     (r, c) <> get_cursor st' -> cell (mem st') r c = cell (mem st) r c) /\
  cursor_color st' = cursor_color st.
Proof.
  intros Hok [Hr Hc] Hk. pose proof Hok as (HW & HH & HSZ).
  pose proof (backspace_target (cursor_row st) (cursor_col st) Hok Hr Hc) as T.
  cbn zeta in T.
  unfold putbyte.
  change (8 =? 10) with false. change (8 =? 13) with false.
  change (8 =? 8) with true. cbv iota. cbn zeta.
  set (pos' := if cursor_row st * CONSOLE_WIDTH + cursor_col st - 1 <? 0
               then 0 else cursor_row st * CONSOLE_WIDTH + cursor_col st - 1) in *.
  set (r' := Z.quot pos' CONSOLE_WIDTH) in *.
  set (c' := Z.rem pos' CONSOLE_WIDTH) in *.
  destruct T as ([Hr' Hc'] & Hlin & T1 & T2 & T3).
  cbn [set_row set_col cursor_row cursor_col cursor_color].
  set (st1 := draw_char r' c' 32 (cursor_color st) _).
  assert (D : st1 = MkConsole r' c' (cursor_hidden st) (cursor_color st)
                (store (store (mem st)
                   (CONSOLE_MEM_BASE + (r' * CONSOLE_WIDTH + c') * 2) blank)
                   (CONSOLE_MEM_BASE + (r' * CONSOLE_WIDTH + c') * 2 + 1)
                   (byte_of_Z (cursor_color st)))
                (outb_log st)).
  { unfold st1, draw_char.
    rewrite cursor_guard_false by assumption.
    cbn [orb]. rewrite color_guard_false by exact Hk. reflexivity. }
  clearbody st1. subst st1.
  match goal with |- context [snd (set_cursor _ _ ?s)] =>
    assert (Hok1 : cursor_ok s) by (split; assumption);
    pose proof (putbyte_epilogue s Hok1) as E
  end.
  cbv zeta in E. destruct E as (E1 & E2 & E3 & E4 & _).
  cbn [snd]. unfold cursor_ok, get_cursor, cell. cbn zeta.
  rewrite !E1, !E2, !E3, !E4.
  cbn [cursor_row cursor_col mem cursor_color].
  assert (Hmem : forall x,
    x <> CONSOLE_MEM_BASE + (r' * CONSOLE_WIDTH + c') * 2 ->
    x <> CONSOLE_MEM_BASE + (r' * CONSOLE_WIDTH + c') * 2 + 1 ->
    store (store (mem st)
             (CONSOLE_MEM_BASE + (r' * CONSOLE_WIDTH + c') * 2) blank)
          (CONSOLE_MEM_BASE + (r' * CONSOLE_WIDTH + c') * 2 + 1)
          (byte_of_Z (cursor_color st)) x = mem st x).
  { intros x Hx1 Hx2. now rewrite !store_ne by assumption. }
  repeat split; trivial; try lia.
  - f_equal; [rewrite store_ne by lia|]; apply store_eq.
  - apply Z_of_byte_of_Z. exact Hk.
  - intros r c Hrr Hcc Hne.
    assert (r * CONSOLE_WIDTH + c <> r' * CONSOLE_WIDTH + c').
    { intros Heq. apply Hne.
      assert (r = r') by nia. subst r. f_equal. lia. }
    rewrite !Hmem by lia. reflexivity.
Qed.

(** *** The cursor stays on the grid *)

Lemma draw_char_frame (row col ch color : Z) (st : console) :
  cursor_row (draw_char row col ch color st) = cursor_row st /\
  cursor_col (draw_char row col ch color st) = cursor_col st /\
  cursor_color (draw_char row col ch color st) = cursor_color st.
Proof.
  unfold draw_char.
  now destruct ((row <? 0) || (row >=? CONSOLE_HEIGHT) || (col <? 0) ||
                (col >=? CONSOLE_WIDTH) || (color >=? COLOR_BOUND) || (color <? 0)).
Qed.

(** [putbyte] keeps the cursor on the grid and the colour as it is, for
    every character: together with the checks of [set_cursor] and
    [set_term_color] this makes [cursor_ok] and [color_ok] hold on every
    state the driver reaches from [console_init]. *)
Lemma putbyte_keeps_cursor (ch : Z) (st : console) :
  video_ok -> cursor_ok st ->
  cursor_ok (snd (putbyte ch st)) /\
  cursor_color (snd (putbyte ch st)) = cursor_color st.
Proof.
  intros Hok [Hr Hc]. pose proof Hok as (HW & HH & HSZ).
  unfold putbyte. cbn zeta. cbn [snd].
  match goal with |- context [set_cursor _ _ ?s] => set (st1 := s) end.
  assert (P : cursor_ok st1 /\ cursor_color st1 = cursor_color st).
  { unfold st1, cursor_ok. destruct (ch =? 10); [|destruct (ch =? 13); [|destruct (ch =? 8)]].
    - cbn [set_row set_col cursor_row cursor_col]. rewrite Z.geb_leb.
      destruct (Z.leb_spec CONSOLE_HEIGHT (cursor_row st + 1)).
      + destruct (console_scroll_frame
                    (set_row (CONSOLE_HEIGHT - 1)
                       (set_col 0 (set_row (cursor_row st + 1) st))))
          as (-> & -> & _ & -> & _).
        cbn [set_row set_col cursor_row cursor_col cursor_color]. lia.
      + cbn [set_row set_col cursor_row cursor_col cursor_color]. lia.
    - cbn [set_row cursor_row cursor_col cursor_color]. lia.
    - pose proof (backspace_target _ _ Hok Hr Hc) as (T & _). cbn zeta in T.
      cbn [set_row set_col cursor_row cursor_col cursor_color].
      match goal with |- context [draw_char ?r ?c ?x ?k ?s] =>
        destruct (draw_char_frame r c x k s) as (-> & -> & ->) end.
      cbn [set_row set_col cursor_row cursor_col cursor_color]. tauto.
    - match goal with |- context [draw_char ?r ?c ?x ?k ?s] =>
        destruct (draw_char_frame r c x k s) as (D1 & D2 & D3);
        set (sd := draw_char r c x k s) in * end.
      cbn [set_row set_col cursor_row cursor_col cursor_color].
      assert (Q : exists r2 c2, 0 <= r2 <= CONSOLE_HEIGHT /\ 0 <= c2 < CONSOLE_WIDTH /\
                  (r2 = CONSOLE_HEIGHT -> c2 = 0) /\
                  cursor_row st * CONSOLE_WIDTH + cursor_col st + 1
                  = r2 * CONSOLE_WIDTH + c2).
      { destruct (Z.eq_dec (cursor_col st + 1) CONSOLE_WIDTH).
        - exists (cursor_row st + 1), 0. repeat split; lia.
        - exists (cursor_row st), (cursor_col st + 1). repeat split; lia. }
      destruct Q as (r2 & c2 & Hr2 & Hc2 & Hedge & ->).
      destruct (quot_rem_cell r2 c2) as [-> ->]; try lia.
      rewrite Z.geb_leb. destruct (Z.leb_spec CONSOLE_HEIGHT r2).
      + match goal with |- context [console_scroll ?s] =>
          destruct (console_scroll_frame s) as (-> & -> & _ & -> & _) end.
        cbn [set_row set_col cursor_row cursor_col cursor_color]. lia.
      + cbn [set_row set_col cursor_row cursor_col cursor_color]. lia. }
  destruct P as [P1 P2].
  destruct (putbyte_epilogue st1 P1) as (E1 & E2 & _ & E4 & _).
  unfold cursor_ok. rewrite E1, E2, E4. destruct P1. tauto.
Qed.

Lemma console_init_ok (m : memory) :
  video_ok -> 0 <= FGND_LGRAY < COLOR_BOUND ->
  cursor_ok (console_init m) /\ color_ok (console_init m).
Proof.
  intros (HW & HH & _) Hk. unfold cursor_ok, color_ok. cbn. lia.
Qed.

(** *** Carriage return *)

(** What [putbyte '\r'] does on every state with the cursor on the grid:
    the row becomes 0 and the column stays. *)
Lemma putbyte_cr_resets_row (st : console) :
  video_ok -> cursor_ok st ->
  let st' := snd (putbyte 13 st) in
  get_cursor st' = (0, cursor_col st) /\ mem st' = mem st.
Proof.
  intros (HW & HH & HSZ) [Hr Hc]. unfold putbyte.
  change (13 =? 10) with false. change (13 =? 13) with true. cbv iota. cbn zeta.
  assert (Hok1 : cursor_ok (set_row 0 st)).
  { unfold cursor_ok. cbn [set_row cursor_row cursor_col]. lia. }
  destruct (putbyte_epilogue _ Hok1) as (E1 & E2 & E3 & _).
  cbn [snd]. unfold get_cursor. now rewrite E1, E2, E3.
Qed.

(** *** [putbytes] *)

(** The loop of [putbytes] stops on its own test: more fuel changes
    nothing. *)
Lemma putbytes_loop_fuel (n : nat) :
  forall (extra : nat) (i len p : Z) (st : console),
    (Z.to_nat (len - i) <= n)%nat ->
    putbytes_loop (n + extra) i len p st = putbytes_loop n i len p st.
Proof.
  induction n as [|k IH]; intros extra i len p st Hn.
  - destruct extra as [|e]; cbn [Nat.add putbytes_loop]; trivial.
    destruct (Z.ltb_spec i len); trivial; lia.
  - cbn [Nat.add putbytes_loop].
    destruct (Z.ltb_spec i len); trivial. apply IH. lia.
Qed.

(** A length that is not positive makes [putbytes] do nothing at all,
    whatever the pointer. *)
Lemma putbytes_nonpositive (s len : Z) (st : console) :
  len <= 0 -> putbytes s len st = st.
Proof.
  intros Hlen. unfold putbytes.
  replace (Z.to_nat len) with O by lia. reflexivity.
Qed.

End Facts.

(** *** The driver on the 80x25 text mode *)

Lemma vga_text_ok : @video_ok vga_text.
Proof. repeat split. Qed.

(** C1.  From the cursor (3, 5) [putbyte '\r'] ends at (0, 5): the row
    is reset and the column kept.  The beginning of the current line,
    which the comment above [putbyte] announces, is (3, 0). *)
Theorem putbyte_cr_at_3_5 :
  get_cursor console_3_5 = (3, 5) /\
  get_cursor (snd (@putbyte vga_text 13 console_3_5)) = (0, 5) /\
  get_cursor (snd (@putbyte vga_text 13 console_3_5)) <> (3, 0).
Proof. vm_compute. repeat split; discriminate. Qed.

(** C3.  [putbytes] with a null pointer and length 1 is not without
    effect: it reads the byte at address 0 and prints it.  The cursor
    advances from (3, 5) to (3, 6), the cell under the old cursor takes
    that byte and the current colour, and the four cursor registers are
    written. *)
Theorem putbytes_null_len_1 :
  let st' := @putbytes vga_text 0 1 console_3_5 in
  get_cursor console_3_5 = (3, 5) /\ get_cursor st' = (3, 6) /\
  @cell vga_text (mem console_3_5) 3 5 = (Byte.x41, Byte.x41) /\
  mem console_3_5 0 = Byte.x5a /\
  @cell vga_text (mem st') 3 5 = (Byte.x5a, Byte.x07) /\
  outb_log console_3_5 = [] /\ length (outb_log st') = 4%nat /\
  st' <> console_3_5.
Proof.
  cbv zeta. repeat split; try (vm_compute; reflexivity).
  intros Heq. apply (f_equal cursor_col) in Heq. vm_compute in Heq.
  discriminate.
Qed.

Lemma set_cursor_get_cursor_witness :
  (fst (@set_cursor vga_text 10 20 console_3_5) = 0 /\
   get_cursor (snd (@set_cursor vga_text 10 20 console_3_5)) = (10, 20)) /\
  (fst (@set_cursor vga_text 25 0 console_3_5) < 0 /\
   snd (@set_cursor vga_text 25 0 console_3_5) = console_3_5 /\
   get_cursor (snd (@set_cursor vga_text 25 0 console_3_5)) = (3, 5)).
Proof.
  split.
  - apply (proj1 (@set_cursor_get_cursor vga_text console_3_5 10 20)).
    simpl. lia.
  - apply (proj2 (@set_cursor_get_cursor vga_text console_3_5 25 0)).
    simpl. lia.
Defined.

Lemma putbyte_newline_on_last_row_witness :
  @video_ok vga_text /\ color_ok console_last_row /\
  cursor_row console_last_row = 25 - 1 /\
  get_cursor (snd (@putbyte vga_text 10 console_last_row)) = (24, 0) /\
  (forall c, 0 <= c < 80 ->
     @cell vga_text (mem (snd (@putbyte vga_text 10 console_last_row))) 24 c
     = (blank, Byte.x07)).
Proof.
  assert (Hc : color_ok console_last_row) by (unfold color_ok, COLOR_BOUND; simpl; lia).
  assert (Hr : cursor_row console_last_row = @CONSOLE_HEIGHT vga_text - 1)
    by reflexivity.
  destruct (@putbyte_newline_on_last_row vga_text console_last_row
              vga_text_ok Hc Hr) as (_ & _ & Hlast & _ & Hcur & _).
  split; [exact vga_text_ok|]. split; [exact Hc|]. split; [reflexivity|].
  split; [exact Hcur | exact Hlast].
Defined.

Lemma putbyte_backspace_witness :
  @video_ok vga_text /\ @cursor_ok vga_text console_3_5 /\
  color_ok console_3_5 /\
  get_cursor (snd (@putbyte vga_text 8 console_3_5)) = (3, 4) /\
  @cell vga_text (mem (snd (@putbyte vga_text 8 console_3_5))) 3 4
  = (blank, Byte.x07).
Proof.
  assert (Hc : color_ok console_3_5) by (unfold color_ok, COLOR_BOUND; simpl; lia).
  assert (Hk : @cursor_ok vga_text console_3_5)
    by (unfold cursor_ok; simpl; lia).
  destruct (@putbyte_backspace vga_text console_3_5 vga_text_ok Hk Hc)
    as (_ & _ & Hprev & _ & _ & Hcell & _).
  assert (Hcur : get_cursor (snd (@putbyte vga_text 8 console_3_5)) = (3, 4))
    by (apply Hprev; simpl; lia).
  split; [exact vga_text_ok|]. split; [exact Hk|]. split; [exact Hc|].
  split; [exact Hcur|].
  exact Hcell.
Defined.

End ConsoleFacts.

(** ** The interrupt core *)

Module InterruptFacts.
Import Interrupt.

Ltac zmod := Z.to_euclidean_division_equations; lia.

(** *** The keyboard buffer *)

Lemma writebuf_full (ch : Z) (b : kbuf) :
  MAX_BUF_SZ <= buf_sz b -> writebuf ch b = b.
Proof.
  intros Hfull. unfold writebuf.
  now destruct (Z.ltb_spec (buf_sz b) MAX_BUF_SZ); [lia|].
Qed.

Lemma readbuf_empty (b : kbuf) : buf_sz b <= 0 -> readbuf b = (0, b).
Proof.
  intros Hempty. unfold readbuf. rewrite Z.gtb_ltb.
  now destruct (Z.ltb_spec 0 (buf_sz b)); [lia|].
Qed.

Lemma writebuf_bounds (ch : Z) (b : kbuf) :
  kbuf_bounds b -> kbuf_bounds (writebuf ch b).
Proof.
  unfold kbuf_bounds, writebuf, MAX_BUF_SZ. intros Hb.
  destruct (Z.ltb_spec (buf_sz b) 512); trivial. cbn [head buf_sz tail buf].
  destruct (Z.eqb_spec (head b + 1) 512); cbn [head buf_sz tail buf]; lia.
Qed.

Lemma readbuf_bounds (b : kbuf) :
  kbuf_bounds b -> kbuf_bounds (snd (readbuf b)).
Proof.
  unfold kbuf_bounds, readbuf, MAX_BUF_SZ. intros Hb. rewrite Z.gtb_ltb.
  destruct (Z.ltb_spec 0 (buf_sz b)); trivial. cbn [head buf_sz tail buf snd].
  destruct (Z.eqb_spec (tail b + 1) 512); cbn [head buf_sz tail buf]; lia.
Qed.

Lemma length_queue (b : kbuf) : length (queue b) = Z.to_nat (buf_sz b).
Proof. unfold queue. now rewrite length_map, length_seq. Qed.

Lemma writebuf_ok (ch : Z) (b : kbuf) : kbuf_ok b -> kbuf_ok (writebuf ch b).
Proof.
  intros (Hb & Hlen & Hrel). split; [now apply writebuf_bounds|].
  unfold writebuf, kbuf_bounds, MAX_BUF_SZ in *.
  destruct (Z.ltb_spec (buf_sz b) 512); [|now split].
  cbn [head buf_sz tail buf].
  destruct (Z.eqb_spec (head b + 1) 512); cbn [head buf_sz tail buf];
    rewrite length_insert; split; trivial; zmod.
Qed.

Lemma writebuf_queue (ch : Z) (b : kbuf) :
  kbuf_ok b -> buf_sz b < MAX_BUF_SZ ->
  queue (writebuf ch b) = queue b ++ [byte_of_Z ch].
Proof.
  destruct b as [bf sz hd tl]. intros (Hb & Hlen & Hrel) Hroom.
  unfold writebuf, queue, kbuf_bounds, MAX_BUF_SZ in *.
  cbn [buf buf_sz head tail] in *.
  destruct (Z.ltb_spec sz 512); [|lia].
  assert (Hq : map (fun i : nat => default Byte.x00
                 (<[Z.to_nat hd:=byte_of_Z ch]> bf
                    !! Z.to_nat ((tl + Z.of_nat i) mod 512)))
                (seq 0 (Z.to_nat (sz + 1)))
             = map (fun i : nat => default Byte.x00
                 (bf !! Z.to_nat ((tl + Z.of_nat i) mod 512)))
                (seq 0 (Z.to_nat sz)) ++ [byte_of_Z ch]).
  { replace (Z.to_nat (sz + 1)) with (S (Z.to_nat sz)) by lia.
    rewrite seq_S, map_app. cbn [map Nat.add]. f_equal.
    - apply map_ext_in. intros i Hi. apply in_seq in Hi.
      rewrite list_lookup_insert_ne; trivial.
      assert ((tl + Z.of_nat i) mod 512 <> hd) by zmod.
      assert (0 <= (tl + Z.of_nat i) mod 512) by zmod. lia.
    - f_equal.
      replace (Z.to_nat ((tl + Z.of_nat (Z.to_nat sz)) mod 512))
        with (Z.to_nat hd) by (f_equal; zmod).
      rewrite list_lookup_insert_eq by lia. reflexivity. }
  destruct (hd + 1 =? 512); cbn [buf buf_sz tail]; exact Hq.
Qed.

Lemma readbuf_queue (b : kbuf) :
  kbuf_ok b -> 0 < buf_sz b ->
  exists x, queue b = x :: queue (snd (readbuf b)) /\
            fst (readbuf b) = Z_of_byte x /\
            kbuf_ok (snd (readbuf b)).
Proof.
  destruct b as [bf sz hd tl]. intros (Hb & Hlen & Hrel) Hsome.
  cbn [buf_sz] in Hsome.
  exists (default Byte.x00 (bf !! Z.to_nat tl)).
  assert (Hok : kbuf_ok (snd (readbuf (MkKbuf bf sz hd tl)))).
  { split; [apply readbuf_bounds; exact Hb|].
    unfold readbuf, kbuf_bounds, MAX_BUF_SZ in *.
    cbn [buf buf_sz head tail] in *. rewrite Z.gtb_ltb.
    destruct (Z.ltb_spec 0 sz); [|lia]. cbn [snd buf buf_sz head tail].
    destruct (Z.eqb_spec (tl + 1) 512); cbn [buf buf_sz head tail];
      split; trivial; zmod. }
  split; [|split; [|exact Hok]].
  - unfold readbuf, queue, kbuf_bounds, MAX_BUF_SZ in *.
    cbn [buf buf_sz head tail] in *. rewrite Z.gtb_ltb.
    destruct (Z.ltb_spec 0 sz); [|lia]. cbn [snd].
    replace (Z.to_nat sz) with (S (Z.to_nat (sz - 1))) by lia.
    cbn [seq map]. f_equal.
    + do 2 f_equal. zmod.
    + rewrite <- seq_shift, map_map.
      assert (Hq : forall t', t' = (if tl + 1 =? 512 then 0 else tl + 1) ->
        map (fun i : nat => default Byte.x00
               (bf !! Z.to_nat ((tl + Z.of_nat (S i)) mod 512)))
            (seq 0 (Z.to_nat (sz - 1)))
        = map (fun i : nat => default Byte.x00
               (bf !! Z.to_nat ((t' + Z.of_nat i) mod 512)))
            (seq 0 (Z.to_nat (sz - 1)))).
      { intros t' ->. apply map_ext. intros i. do 3 f_equal.
        destruct (Z.eqb_spec (tl + 1) 512); zmod. }
      rewrite (Hq _ eq_refl).
      destruct (tl + 1 =? 512); reflexivity.
  - unfold readbuf. cbn [buf buf_sz head tail]. rewrite Z.gtb_ltb.
    destruct (Z.ltb_spec 0 sz); [|lia]. cbn [fst].
    apply to_uint8_char_of_byte.
Qed.

Lemma pushes_queue (l : list Z) :
  forall b : kbuf,
    kbuf_ok b ->
    kbuf_ok (pushes l b) /\
    queue (pushes l b) =
      queue b ++ map byte_of_Z (take (Z.to_nat (MAX_BUF_SZ - buf_sz b)) l).
Proof.
  induction l as [|ch l IH]; intros b Hok.
  - cbn. rewrite take_nil. cbn. now rewrite app_nil_r.
  - change (pushes (ch :: l) b) with (pushes l (writebuf ch b)).
    destruct (Z.lt_ge_cases (buf_sz b) MAX_BUF_SZ) as [Hroom|Hfull].
    + destruct (IH _ (writebuf_ok ch b Hok)) as [Hok' Hq].
      split; [exact Hok'|]. rewrite Hq, (writebuf_queue ch b Hok Hroom).
      assert (Hsz : buf_sz (writebuf ch b) = buf_sz b + 1).
      { unfold writebuf. destruct (Z.ltb_spec (buf_sz b) MAX_BUF_SZ); [|lia].
        cbn [buf_sz head]. now destruct (head b + 1 =? MAX_BUF_SZ). }
      rewrite Hsz.
      destruct Hok as ((Hsz0 & _) & _).
      replace (Z.to_nat (MAX_BUF_SZ - buf_sz b))
        with (S (Z.to_nat (MAX_BUF_SZ - (buf_sz b + 1)))) by lia.
      cbn [take map]. now rewrite <- app_assoc.
    + rewrite (writebuf_full ch b Hfull).
      destruct (IH _ Hok) as [Hok' Hq]. split; [exact Hok'|].
      rewrite Hq. replace (Z.to_nat (MAX_BUF_SZ - buf_sz b)) with O by lia.
      now rewrite !take_0.
Qed.

Lemma pops_queue (n : nat) :
  forall b : kbuf,
    kbuf_ok b -> (n <= Z.to_nat (buf_sz b))%nat ->
    fst (pops n b) = map Z_of_byte (take n (queue b)) /\
    queue (snd (pops n b)) = drop n (queue b) /\
    kbuf_ok (snd (pops n b)).
Proof.
  induction n as [|k IH]; intros b Hok Hn.
  - cbn. rewrite take_0, drop_0. auto.
  - destruct (readbuf_queue b Hok) as (x & Hq & Hch & Hok1); [lia|].
    cbn [pops]. destruct (readbuf b) as [ch b1] eqn:Er. cbn [fst snd] in *.
    assert (Hk : (k <= Z.to_nat (buf_sz b1))%nat).
    { rewrite <- length_queue. pose proof (length_queue b) as Hl.
      rewrite Hq in Hl. cbn [length] in Hl. lia. }
    destruct (IH b1 Hok1 Hk) as (I1 & I2 & I3).
    destruct (pops k b1) as [l b2]. cbn [fst snd] in *.
    rewrite Hq. cbn [take drop map]. subst ch. rewrite I1. auto.
Qed.

(** C5.  On a buffer that satisfies its invariant: a push onto a full
    buffer changes nothing, so the count stays at 512 and the byte is
    dropped; pushes and pops keep the count within 0..512 and both
    indices within 0..511 (and keep the whole invariant); after pushing
    a sequence [l], the bytes waiting are the old ones followed by the
    accepted prefix of [l], and [n] pops return the first [n] of them in
    that order.  From an empty buffer, popping as many bytes as were
    accepted returns exactly the accepted bytes and empties it again. *)
Theorem kbuf_fifo (b : kbuf) (l : list Z) (ch : Z) :
  kbuf_ok b ->
  let accepted := take (Z.to_nat (MAX_BUF_SZ - buf_sz b)) l in
  let b' := pushes l b in
  (buf_sz b = MAX_BUF_SZ -> writebuf ch b = b) /\
  kbuf_bounds (writebuf ch b) /\ kbuf_bounds (snd (readbuf b)) /\
  kbuf_ok (writebuf ch b) /\ kbuf_ok (snd (readbuf b)) /\
  kbuf_ok b' /\
  buf_sz b' = buf_sz b + Z.of_nat (length accepted) /\
  queue b' = queue b ++ map byte_of_Z accepted /\
  (forall n, (n <= Z.to_nat (buf_sz b'))%nat ->
     fst (pops n b') =
     take n (map Z_of_byte (queue b) ++ map to_uint8 accepted)) /\
  (buf_sz b = 0 ->
     fst (pops (length accepted) b') = map to_uint8 accepted /\
     buf_sz (snd (pops (length accepted) b')) = 0).
Proof.
  intros Hok accepted b'.
  destruct (pushes_queue l b Hok) as [Hok' Hq]. fold b' accepted in Hok', Hq.
  assert (Hrd : kbuf_ok (snd (readbuf b))).
  { destruct (Z.lt_ge_cases 0 (buf_sz b)) as [Hpos|Hzero].
    - now destruct (readbuf_queue b Hok Hpos) as (x & _ & _ & H).
    - now rewrite readbuf_empty by lia. }
  assert (Hmm : map Z_of_byte (map byte_of_Z accepted) = map to_uint8 accepted).
  { rewrite map_map. apply map_ext. intros z. apply Z_of_byte_of_Z_mod. }
  assert (Hsz : buf_sz b' = buf_sz b + Z.of_nat (length accepted)).
  { pose proof (length_queue b') as L'. pose proof (length_queue b) as L.
    rewrite Hq, length_app, length_map in L'.
    destruct Hok' as ((? & _) & _). destruct Hok as ((? & _) & _). lia. }
  assert (Hpop : forall n, (n <= Z.to_nat (buf_sz b'))%nat ->
     fst (pops n b') =
     take n (map Z_of_byte (queue b) ++ map to_uint8 accepted)).
  { intros n Hn. destruct (pops_queue n b' Hok' Hn) as (-> & _ & _).
    rewrite Hq, <- Hmm, <- map_app. now rewrite firstn_map. }
  split; [intros Hfull; apply writebuf_full; lia|].
  split; [apply writebuf_bounds, Hok|].
  split; [apply readbuf_bounds, Hok|].
  split; [now apply writebuf_ok|].
  split; [exact Hrd|]. split; [exact Hok'|]. split; [exact Hsz|].
  split; [exact Hq|]. split; [exact Hpop|].
  intros Hempty.
  assert (Hnil : queue b = []).
  { apply length_zero_iff_nil. rewrite length_queue. lia. }
  assert (Hn : (length accepted <= Z.to_nat (buf_sz b'))%nat) by lia.
  split.
  - rewrite (Hpop _ Hn), Hnil. cbn [map app].
    apply firstn_all2. now rewrite length_map.
  - destruct (pops_queue _ b' Hok' Hn) as (_ & Hd & ((Hb & _) & _)).
    pose proof (length_queue (snd (pops (length accepted) b'))) as L.
    rewrite Hd, Hq, Hnil, length_drop in L. cbn [app] in L.
    rewrite length_map in L. lia.
Qed.

Section HandlerFacts.
Context `{X86Defines} `{Keyhelp}.

(** *** The timer *)

Lemma timer_handler_frame (st : kernel) :
  idt (timer_handler st) = idt st /\
  timer_callback (timer_handler st) = timer_callback st /\
  kbd (timer_handler st) = kbd st /\
  scancodes (timer_handler st) = scancodes st /\
  timer_ticks (timer_handler st) = to_uint32 (timer_ticks st + 1) /\
  trace (timer_handler st) =
    trace st ++
    (if timer_callback st =? 0 then []
     else [EvCallback (timer_callback st) (to_uint32 (timer_ticks st + 1))]).
Proof.
  unfold timer_handler. cbn [set_ticks timer_callback timer_ticks].
  destruct (timer_callback st =? 0);
    cbn [emit set_ticks idt timer_callback kbd scancodes timer_ticks trace];
    rewrite ?app_nil_r; tauto.
Qed.

(** C8.  One timer interrupt adds one to the tick counter modulo 2^32:
    the counter grows by exactly one unless it holds 2^32 - 1, from
    where it wraps to 0.  A registered callback is then called once with
    the new value of the counter, an absent one is not called, and the
    acknowledgement follows.  No other entry point of [int.c] writes
    the counter. *)
Theorem timer_interrupt_tick (st : kernel) :
  let st' := int_handler IRQ_TIMER st in
  timer_ticks st' = (timer_ticks st + 1) mod 2 ^ 32 /\
  (0 <= timer_ticks st < 2 ^ 32 - 1 -> timer_ticks st' = timer_ticks st + 1) /\
  (timer_ticks st = 2 ^ 32 - 1 -> timer_ticks st' = 0) /\
  (timer_callback st <> 0 ->
     trace st' = trace st ++ [EvCallback (timer_callback st) (timer_ticks st');
                              EvOutb INT_CTL_PORT INT_ACK_CURRENT]) /\
  (timer_callback st = 0 ->
     trace st' = trace st ++ [EvOutb INT_CTL_PORT INT_ACK_CURRENT]) /\
  (forall irq_no, irq_no <> IRQ_TIMER ->
     timer_ticks (int_handler irq_no st) = timer_ticks st) /\
  timer_ticks (snd (readchar st)) = timer_ticks st /\
  (forall tickback,
     timer_ticks (snd (handler_install tickback st)) = timer_ticks st).
Proof.
  cbn zeta. unfold int_handler. rewrite Z.eqb_refl.
  destruct (timer_handler_frame st) as (_ & _ & _ & _ & Ht & Htr).
  cbn [emit timer_ticks trace]. rewrite Ht, Htr. unfold to_uint32.
  split; [reflexivity|].
  split; [intros Hr; apply Z.mod_small; lia|].
  split; [intros ->; reflexivity|].
  split; [|split; [|split; [|split]]].
  - intros Hcb. destruct (Z.eqb_spec (timer_callback st) 0); [easy|].
    now rewrite <- app_assoc.
  - intros ->. cbn. now rewrite app_nil_r.
  - intros irq_no Hne. destruct (Z.eqb_spec irq_no IRQ_TIMER); [easy|].
    now destruct (irq_no =? IRQ_KBD).
  - unfold readchar. destruct (readbuf (kbd st)) as [ch b].
    now destruct (KH_ISMAKE _ && KH_HASDATA _).
  - reflexivity.
Qed.

(** *** The dispatcher *)

(** C9.  On a vector that is neither the timer's nor the keyboard's,
    [int_handler] adds one diagnostic line to the trace and nothing
    else: no port is written, and the tick counter, the keyboard buffer
    and the rest of the state are as before.  On the timer vector and on
    the keyboard vector the events it adds contain exactly one
    acknowledgement of the interrupt controller. *)
Theorem int_handler_dispatch (irq_no : Z) (st : kernel) :
  let st' := int_handler irq_no st in
  (irq_no <> IRQ_TIMER -> irq_no <> IRQ_KBD ->
     trace st' = trace st ++ [EvLprintf (to_int irq_no)] /\
     acks [EvLprintf (to_int irq_no)] = 0%nat /\
     timer_ticks st' = timer_ticks st /\ kbd st' = kbd st /\
     idt st' = idt st /\ timer_callback st' = timer_callback st /\
     scancodes st' = scancodes st) /\
  (irq_no = IRQ_TIMER \/ irq_no = IRQ_KBD ->
     exists new, trace st' = trace st ++ new /\ acks new = 1%nat /\
       length (List.filter (fun e => match e with EvOutb _ _ => true | _ => false end) new)
       = 1%nat).
Proof.
  cbn zeta. unfold int_handler. split.
  - intros Ht Hk.
    destruct (Z.eqb_spec irq_no IRQ_TIMER); [easy|].
    destruct (Z.eqb_spec irq_no IRQ_KBD); [easy|]. now cbn.
  - intros [-> | ->].
    + rewrite Z.eqb_refl.
      destruct (timer_handler_frame st) as (_ & _ & _ & _ & _ & Htr).
      cbn [emit trace]. rewrite Htr, <- app_assoc. eexists. split; [reflexivity|].
      unfold acks. destruct (timer_callback st =? 0); cbn [app List.filter is_ack];
        rewrite !Z.eqb_refl; now cbn.
    + change (IRQ_KBD =? IRQ_TIMER) with false. rewrite Z.eqb_refl. cbv iota.
      unfold kbd_handler.
      cbn [emit set_kbd trace]. rewrite <- app_assoc. eexists. split; [reflexivity|].
      unfold acks. cbn [app List.filter is_ack]. rewrite !Z.eqb_refl. now cbn.
Qed.

(** *** Installation *)

Lemma SETGATE_lookup (gate : list Gatedp) (num sel handler level : Z) (n : nat) :
  0 <= num -> (Z.to_nat num < length gate)%nat ->
  (n = Z.to_nat num ->
     exists g, SETGATE gate num sel handler level !! n = Some g /\
               present g = 1 /\ type g = INT_32 /\ dpl g = Z.land level 3 /\
               selector g = Z.land sel 65535 /\
               low_0_15 g = Z.land (to_uint32 handler) 65535 /\
               high_16_31 g = Z.shiftr (to_uint32 handler) 16) /\
  (n <> Z.to_nat num -> SETGATE gate num sel handler level !! n = gate !! n).
Proof.
  intros Hnum Hlen. unfold SETGATE. split.
  - intros ->. rewrite list_lookup_insert_eq by exact Hlen.
    eexists. split; [reflexivity|]. cbn [present type dpl selector low_0_15 high_16_31].
    unfold bits. repeat split; try reflexivity.
    + change (Z.ones 16) with 65535. now rewrite <- Z.land_assoc.
    + change (Z.ones 16) with (Z.ones 16).
      rewrite Z.land_ones by lia. rewrite Z.shiftr_div_pow2 by lia.
      apply Z.mod_small. unfold to_uint32.
      pose proof (Z.mod_pos_bound handler (2 ^ 32) ltac:(lia)).
      split; [apply Z.div_pos; lia|].
      apply Z.div_lt_upper_bound; lia.
  - intros Hne. now rewrite list_lookup_insert_ne by lia.
Qed.

(** C4.  [handler_install] first loads the table register, then
    stores the timer gate and the keyboard gate into the table, then
    programs the timer with three port writes and records the callback,
    and returns 0; it does nothing after that, in particular it does not
    enable interrupts.  The two gates are present interrupt gates of
    privilege level 0 whose offsets are the two entry thunks; every
    other entry of the table is left as it was, so on a table without a
    present entry exactly the timer and keyboard gates are present
    afterwards. *)
Theorem handler_install_steps (tickback : Z) (st : kernel) :
  length (idt st) = Z.to_nat IDT_ENTS -> IRQ_KBD < IDT_ENTS ->
  let st' := snd (handler_install tickback st) in
  let period := to_uint32 (Z.quot TIMER_RATE 100) in
  fst (handler_install tickback st) = 0 /\
  trace st' = trace st ++
    [EvLidt idt_addr IDT_LIIMIT; EvSetGate IRQ_TIMER; EvSetGate IRQ_KBD;
     EvOutb TIMER_MODE_IO_PORT TIMER_SQUARE_WAVE;
     EvOutb TIMER_PERIOD_IO_PORT (Z.land period 255);
     EvOutb TIMER_PERIOD_IO_PORT (Z.land (Z.shiftr period 8) 255)] /\
  (exists gt gk,
     idt st' !! Z.to_nat IRQ_TIMER = Some gt /\
     idt st' !! Z.to_nat IRQ_KBD = Some gk /\
     present gt = 1 /\ present gk = 1 /\
     type gt = INT_32 /\ type gk = INT_32 /\ dpl gt = 0 /\ dpl gk = 0 /\
     low_0_15 gt = Z.land (to_uint32 asm_timer_handler) 65535 /\
     high_16_31 gt = Z.shiftr (to_uint32 asm_timer_handler) 16 /\
     low_0_15 gk = Z.land (to_uint32 asm_kbd_handler) 65535 /\
     high_16_31 gk = Z.shiftr (to_uint32 asm_kbd_handler) 16) /\
  (forall n, n <> Z.to_nat IRQ_TIMER -> n <> Z.to_nat IRQ_KBD ->
     idt st' !! n = idt st !! n) /\
  (Forall (fun g => present g = 0) (idt st) ->
     forall n g, idt st' !! n = Some g ->
       (present g = 1 <-> n = Z.to_nat IRQ_TIMER \/ n = Z.to_nat IRQ_KBD)) /\
  timer_callback st' = tickback /\
  timer_ticks st' = timer_ticks st /\ kbd st' = kbd st.
Proof.
  intros Hlen Hents. cbn zeta.
  unfold handler_install, timer_install, timer_init, int_init, load_idt.
  cbn [fst snd emit set_idt set_callback idt timer_ticks timer_callback kbd
       scancodes port_in trace].
  set (g1 := SETGATE (idt st) IRQ_TIMER SEGSEL_KERNEL_CS asm_timer_handler 0).
  set (g2 := SETGATE g1 IRQ_KBD SEGSEL_KERNEL_CS asm_kbd_handler 0).
  assert (Hl1 : length g1 = Z.to_nat IDT_ENTS)
    by (unfold g1, SETGATE; now rewrite length_insert).
  assert (Ht : (Z.to_nat IRQ_TIMER < Z.to_nat IDT_ENTS)%nat)
    by (unfold IRQ_TIMER, IRQ_KBD in *; lia).
  assert (Hk : (Z.to_nat IRQ_KBD < Z.to_nat IDT_ENTS)%nat)
    by (unfold IRQ_KBD in *; lia).
  assert (Hne : Z.to_nat IRQ_TIMER <> Z.to_nat IRQ_KBD) by (cbv; lia).
  assert (H32 : 0 <= IRQ_TIMER) by (cbv; discriminate).
  assert (H33 : 0 <= IRQ_KBD) by (cbv; discriminate).
  pose proof (fun n => SETGATE_lookup (idt st) IRQ_TIMER SEGSEL_KERNEL_CS
                asm_timer_handler 0 n H32 ltac:(lia)) as L1.
  pose proof (fun n => SETGATE_lookup g1 IRQ_KBD SEGSEL_KERNEL_CS
                asm_kbd_handler 0 n H33 ltac:(lia)) as L2.
  fold g1 in L1. fold g2 in L2.
  destruct (proj1 (L1 _) eq_refl) as (gt & Egt & Pt & Tt & Dt & _ & Lt & Ht').
  destruct (proj1 (L2 _) eq_refl) as (gk & Egk & Pk & Tk & Dk & _ & Lk & Hk').
  assert (Egt2 : g2 !! Z.to_nat IRQ_TIMER = Some gt)
    by (rewrite (proj2 (L2 _) Hne); exact Egt).
  assert (Hother : forall n, n <> Z.to_nat IRQ_TIMER -> n <> Z.to_nat IRQ_KBD ->
                     g2 !! n = idt st !! n).
  { intros n N1 N2. rewrite (proj2 (L2 n) N2). exact (proj2 (L1 n) N1). }
  split; [reflexivity|].
  split; [now rewrite <- !app_assoc|].
  split; [exists gt, gk; now repeat split|].
  split; [exact Hother|].
  split; [|now repeat split].
  intros Hzero n g Hg.
  destruct (Nat.eq_dec n (Z.to_nat IRQ_TIMER)) as [->|N1].
  - rewrite Egt2 in Hg. injection Hg as <-. tauto.
  - destruct (Nat.eq_dec n (Z.to_nat IRQ_KBD)) as [->|N2].
    + rewrite Egk in Hg. injection Hg as <-. tauto.
    + rewrite (Hother n N1 N2) in Hg.
      pose proof (proj1 (Forall_lookup _ _) Hzero n g Hg) as P0.
      cbn beta in P0. split; [lia | tauto].
Qed.

(** *** The decoder half *)

(** C2.  On an empty buffer [readchar] pops nothing: buffer, indices and
    count are as before.  It still calls the decoder, on the 0 that
    [readbuf] returns for an empty buffer, and it returns -1 whenever
    the decoder's answer to that 0 is not a key press carrying data
    (and the character of that answer otherwise). *)
Theorem readchar_on_empty (st : kernel) :
  buf_sz (kbd st) = 0 ->
  let aug := process_scancode (scancodes st) 0 in
  let r := fst (readchar st) in
  let st' := snd (readchar st) in
  kbd st' = kbd st /\
  scancodes st' = scancodes st ++ [0] /\
  (KH_ISMAKE aug && KH_HASDATA aug = false -> r = -1) /\
  (KH_ISMAKE aug && KH_HASDATA aug = true -> r = KH_GETCHAR aug) /\
  timer_ticks st' = timer_ticks st /\ trace st' = trace st.
Proof.
  intros Hempty. cbn zeta. unfold readchar.
  rewrite readbuf_empty by lia.
  cbn [set_kbd set_scancodes scancodes kbd].
  destruct (KH_ISMAKE _ && KH_HASDATA _); cbn; destruct st; cbn;
    repeat split; trivial; discriminate.
Qed.

End HandlerFacts.

(** *** The handlers on the PC *)

Lemma kernel_boot_kbuf_ok : kbuf_ok (kbd kernel_boot).
Proof.
  unfold kbuf_ok, kbuf_bounds, MAX_BUF_SZ. cbn.
  rewrite length_replicate. repeat split; lia.
Qed.

Lemma kbuf_fifo_witness :
  kbuf_ok (kbd kernel_boot) /\
  fst (pops 2 (pushes [30; 158] (kbd kernel_boot))) = [30; 158].
Proof.
  split; [exact kernel_boot_kbuf_ok|].
  destruct (kbuf_fifo (kbd kernel_boot) [30; 158] 7 kernel_boot_kbuf_ok)
    as (_ & _ & _ & _ & _ & _ & _ & _ & _ & Hfifo).
  exact (proj1 (Hfifo eq_refl)).
Defined.

Lemma timer_interrupt_tick_witness :
  0 <= timer_ticks kernel_boot < 2 ^ 32 - 1 /\
  timer_ticks (@int_handler pc_defines IRQ_TIMER kernel_boot) = 1.
Proof.
  assert (Hr : 0 <= timer_ticks kernel_boot < 2 ^ 32 - 1) by (cbn; lia).
  split; [exact Hr|].
  exact (proj1 (proj2 (@timer_interrupt_tick pc_defines mute_keyhelp kernel_boot)) Hr).
Defined.

(** C8, counterexample.  The counter is not increasing at its last
    value: the next timer interrupt takes it from 2^32 - 1 to 0. *)
Lemma timer_ticks_wraps :
  timer_ticks kernel_last_tick = 2 ^ 32 - 1 /\
  timer_ticks (@int_handler pc_defines IRQ_TIMER kernel_last_tick) = 0 /\
  timer_ticks (@int_handler pc_defines IRQ_TIMER kernel_last_tick)
    <> timer_ticks kernel_last_tick + 1 /\
  ~ timer_ticks kernel_last_tick
      < timer_ticks (@int_handler pc_defines IRQ_TIMER kernel_last_tick).
Proof. vm_compute. repeat split; discriminate. Qed.

Lemma int_handler_dispatch_witness :
  (7 <> IRQ_TIMER /\ 7 <> IRQ_KBD) /\
  trace (@int_handler pc_defines 7 kernel_boot) = [EvLprintf 7] /\
  timer_ticks (@int_handler pc_defines 7 kernel_boot) = 0 /\
  kbd (@int_handler pc_defines 7 kernel_boot) = kbd kernel_boot.
Proof.
  assert (Ht : 7 <> IRQ_TIMER) by (cbv; discriminate).
  assert (Hk : 7 <> IRQ_KBD) by (cbv; discriminate).
  destruct (proj1 (@int_handler_dispatch pc_defines 7 kernel_boot) Ht Hk)
    as (Htr & _ & Hticks & Hkbd & _).
  split; [split; assumption|]. split; [exact Htr|]. split; assumption.
Defined.

Lemma handler_install_steps_witness :
  (length (idt kernel_boot) = Z.to_nat (@IDT_ENTS pc_defines) /\
   IRQ_KBD < @IDT_ENTS pc_defines) /\
  fst (@handler_install pc_defines 1048576 kernel_boot) = 0 /\
  timer_callback (snd (@handler_install pc_defines 1048576 kernel_boot))
    = 1048576.
Proof.
  assert (Hl : length (idt kernel_boot) = Z.to_nat (@IDT_ENTS pc_defines))
    by (cbn; now rewrite length_replicate).
  assert (He : IRQ_KBD < @IDT_ENTS pc_defines) by (cbv; reflexivity).
  destruct (@handler_install_steps pc_defines 1048576 kernel_boot Hl He)
    as (Hret & _ & _ & _ & _ & Hcb & _).
  split; [split; assumption|]. split; assumption.
Defined.

(** C4, counterexample.  On the machine as booted the table register is
    loaded before any gate is stored, and the trace of [handler_install]
    has no [sti]: [enable_interrupts], which the caller issues
    afterwards, adds it. *)
Lemma handler_install_order :
  trace (snd (@handler_install pc_defines 1048576 kernel_boot)) =
    [EvLidt 1114112 1792; EvSetGate 32; EvSetGate 33;
     EvOutb 67 54; EvOutb 64 155; EvOutb 64 46] /\
  ~ In EvEnableInterrupts
       (trace (snd (@handler_install pc_defines 1048576 kernel_boot))) /\
  trace (enable_interrupts (snd (@handler_install pc_defines 1048576 kernel_boot)))
    <> trace (snd (@handler_install pc_defines 1048576 kernel_boot)).
Proof.
  split; [vm_compute; reflexivity|]. split.
  - vm_compute. intuition discriminate.
  - vm_compute. discriminate.
Qed.

Lemma readchar_on_empty_witness :
  buf_sz (kbd kernel_boot) = 0 /\
  fst (@readchar mute_keyhelp kernel_boot) = -1 /\
  kbd (snd (@readchar mute_keyhelp kernel_boot)) = kbd kernel_boot.
Proof.
  assert (He : buf_sz (kbd kernel_boot) = 0) by reflexivity.
  destruct (@readchar_on_empty mute_keyhelp kernel_boot He)
    as (Hkbd & _ & Hnone & _).
  split; [exact He|]. split; [exact (Hnone eq_refl) | exact Hkbd].
Defined.

(** C2, counterexample.  On the machine as booted the buffer is empty
    and no scancode has been decoded, yet after [readchar] the decoder
    has been given one scancode, 0, whatever the decoder is.  With a
    decoder that takes every scancode for a key press carrying data, the
    call even returns a character, 0, instead of -1. *)
Lemma readchar_feeds_zero :
  buf_sz (kbd kernel_boot) = 0 /\ scancodes kernel_boot = [] /\
  (forall kh : Keyhelp, scancodes (snd (@readchar kh kernel_boot)) = [0]) /\
  fst (@readchar echo_keyhelp kernel_boot) = 0.
Proof.
  split; [reflexivity|]. split; [reflexivity|]. split; [|reflexivity].
  intros kh. unfold readchar. rewrite readbuf_empty by (cbn; lia).
  now destruct (KH_ISMAKE _ && KH_HASDATA _).
Qed.

End InterruptFacts.

(* ================================================================== *)
(** * Part III: more of the console driver *)
(* ================================================================== *)

Lemma byte_of_Z_char_of_byte (b : byte) : byte_of_Z (char_of_byte b) = b.
Proof.
  unfold byte_of_Z, char_of_byte. pose proof (Z_of_byte_range b) as Hb.
  assert (Hm : (if Z_of_byte b <? 128 then Z_of_byte b else Z_of_byte b - 256)
               mod 256 = Z_of_byte b).
  { destruct (Z.ltb_spec (Z_of_byte b) 128).
    - apply Z.mod_small. lia.
    - replace (Z_of_byte b - 256) with (Z_of_byte b + (-1) * 256) by lia.
      rewrite Z.mod_add by lia. apply Z.mod_small. lia. }
  rewrite Hm. unfold Z_of_byte. rewrite N2Z.id, Byte.of_to_N. reflexivity.
Qed.

Lemma byte_of_Z_mod (z : Z) : byte_of_Z (z mod 256) = byte_of_Z z.
Proof. unfold byte_of_Z. now rewrite Z.mod_mod by lia. Qed.

Lemma byte_of_Z_to_char (z : Z) : byte_of_Z (to_char z) = byte_of_Z z.
Proof. unfold to_char. apply byte_of_Z_char_of_byte. Qed.

(** The two data bytes sent to the CRT controller give back the index. *)
Lemma crtc_bytes (pos : Z) :
  0 <= pos < 65536 ->
  0 <= Z.land pos 255 < 256 /\ 0 <= Z.land (Z.shiftr pos 8) 255 < 256 /\
  Z.land pos 255 + 256 * Z.land (Z.shiftr pos 8) 255 = pos.
Proof.
  intros Hp. change 255 with (Z.ones 8).
  rewrite !Z.land_ones, Z.shiftr_div_pow2 by lia.
  change (2 ^ 8) with 256. Z.to_euclidean_division_equations. lia.
Qed.

Module ConsoleExtra.
Import Console ConsoleFacts.

Section More.
Context `{VideoDefines}.

(** *** Colour *)

(** X1.  [set_term_color] accepts exactly the codes 0..255: it then
    returns 0, [get_term_color] reads the code back and nothing else
    changes; on any other code it returns -1 and leaves the state,
    hence the colour, as it was. *)
Theorem set_term_color_get_term_color (st : console) (color : Z) :
  (0 <= color < 256 ->
   fst (set_term_color color st) = 0 /\
   get_term_color (snd (set_term_color color st)) = color /\
   color_ok (snd (set_term_color color st)) /\
   get_cursor (snd (set_term_color color st)) = get_cursor st /\
   mem (snd (set_term_color color st)) = mem st /\
   outb_log (snd (set_term_color color st)) = outb_log st) /\
  (~ 0 <= color < 256 ->
   fst (set_term_color color st) = -1 /\
   snd (set_term_color color st) = st).
Proof.
  unfold set_term_color, color_ok, COLOR_BOUND. rewrite Z.geb_leb. split.
  - intros Hc. destruct (Z.leb_spec 256 color), (Z.ltb_spec color 0);
      try lia. cbn. repeat split; trivial; lia.
  - intros Hc. destruct (Z.leb_spec 256 color), (Z.ltb_spec color 0);
      try lia; now cbn.
Qed.

(** *** Addressed cell access *)

Lemma draw_char_valid (row col ch color : Z) (st : console) :
  0 <= row < CONSOLE_HEIGHT -> 0 <= col < CONSOLE_WIDTH ->
  0 <= color < COLOR_BOUND ->
  draw_char row col ch color st =
  set_mem (store (store (mem st)
                    (cell_addr (row * CONSOLE_WIDTH + col)) (byte_of_Z ch))
                 (cell_addr (row * CONSOLE_WIDTH + col) + 1) (byte_of_Z color))
          st.
Proof.
  intros Hr Hc Hk. unfold draw_char.
  rewrite cursor_guard_false by assumption. cbn [orb].
  rewrite color_guard_false by assumption. reflexivity.
Qed.

(** Distinct cells of the grid do not share bytes. *)
Lemma cell_addr_apart (r c r' c' : Z) :
  0 < CONSOLE_WIDTH ->
  0 <= c < CONSOLE_WIDTH -> 0 <= c' < CONSOLE_WIDTH ->
  (r, c) <> (r', c') ->
  r * CONSOLE_WIDTH + c <> r' * CONSOLE_WIDTH + c'.
Proof.
  intros HW Hc Hc' Hne Heq. apply Hne.
  assert (r = r') by nia. subst r'. f_equal. lia.
Qed.

(** X2.  [draw_char] with a position on the grid and a colour code in
    0..255 stores the character and the colour in that cell, so that
    [get_char] reads the character back (as a [char]); every other cell,
    the cursor, the active colour and the ports are untouched. *)
Theorem draw_char_get_char (row col ch color : Z) (st : console) :
  video_ok ->
  0 <= row < CONSOLE_HEIGHT -> 0 <= col < CONSOLE_WIDTH ->
  0 <= color < 256 ->
  let st' := draw_char row col ch color st in
  get_char row col st' = to_char ch /\
  cell (mem st') row col = (byte_of_Z ch, byte_of_Z color) /\
  Z_of_byte (byte_of_Z color) = color /\
  (forall r c, 0 <= r < CONSOLE_HEIGHT -> 0 <= c < CONSOLE_WIDTH ->
     (r, c) <> (row, col) ->
     cell (mem st') r c = cell (mem st) r c /\
     get_char r c st' = get_char r c st) /\
  get_cursor st' = get_cursor st /\ cursor_color st' = cursor_color st /\
  cursor_hidden st' = cursor_hidden st /\ outb_log st' = outb_log st.
Proof.
  intros (HW & HH & HSZ) Hr Hc Hk. cbn zeta.
  rewrite draw_char_valid by (trivial; unfold COLOR_BOUND; lia).
  unfold get_char, cell, cell_addr, set_mem, get_cursor, to_char.
  cbn [mem cursor_row cursor_col cursor_color cursor_hidden outb_log].
  split; [now rewrite store_ne, store_eq by lia|].
  split; [f_equal; [now rewrite store_ne, store_eq by lia | apply store_eq]|].
  split; [now apply Z_of_byte_of_Z|].
  split; [|repeat split].
  intros r c Hr' Hc' Hne.
  pose proof (cell_addr_apart r c row col HW Hc' Hc Hne).
  rewrite !store_ne by lia. split; reflexivity.
Qed.

(** X3.  [draw_char] with a row, a column or a colour out of range does
    nothing at all. *)
Theorem draw_char_invalid (row col ch color : Z) (st : console) :
  ~ (0 <= row < CONSOLE_HEIGHT /\ 0 <= col < CONSOLE_WIDTH /\
     0 <= color < 256) ->
  draw_char row col ch color st = st.
Proof.
  intros Hbad. unfold draw_char, COLOR_BOUND. rewrite !Z.geb_leb.
  destruct (Z.ltb_spec row 0), (Z.leb_spec CONSOLE_HEIGHT row),
    (Z.ltb_spec col 0), (Z.leb_spec CONSOLE_WIDTH col),
    (Z.leb_spec 256 color), (Z.ltb_spec color 0); cbn; trivial; lia.
Qed.

(** *** The shape of a [putbyte] *)

Lemma draw_char_frame_all (row col ch color : Z) (st : console) :
  cursor_row (draw_char row col ch color st) = cursor_row st /\
  cursor_col (draw_char row col ch color st) = cursor_col st /\
  cursor_hidden (draw_char row col ch color st) = cursor_hidden st /\
  cursor_color (draw_char row col ch color st) = cursor_color st /\
  outb_log (draw_char row col ch color st) = outb_log st.
Proof.
  unfold draw_char.
  now destruct ((row <? 0) || (row >=? CONSOLE_HEIGHT) || (col <? 0) ||
                (col >=? CONSOLE_WIDTH) || (color >=? COLOR_BOUND) || (color <? 0)).
Qed.

(** The last three lines of [putbyte], in full. *)
Lemma putbyte_epilogue_full (st1 : console) :
  cursor_ok st1 ->
  (let st2 := snd (set_cursor (cursor_row st1) (cursor_col st1) st1) in
   if cursor_hidden st2 =? 0 then show_cursor st2 else st2) =
  MkConsole (cursor_row st1) (cursor_col st1) (cursor_hidden st1)
    (cursor_color st1) (mem st1)
    (outb_log st1 ++
     if cursor_hidden st1 =? 0
     then crtc_events (cursor_col st1 + cursor_row st1 * CONSOLE_WIDTH)
     else []).
Proof.
  intros [Hr Hc]. unfold set_cursor. rewrite cursor_guard_false by assumption.
  cbn [snd]. destruct st1 as [r c h k m l].
  cbn [set_row set_col cursor_row cursor_col cursor_hidden cursor_color mem outb_log].
  destruct (h =? 0).
  - unfold show_cursor, crtc_write, outb, crtc_events. cbn.
    now rewrite <- !app_assoc.
  - now rewrite app_nil_r.
Qed.

(** Every [putbyte] ends in a state with the cursor on the grid, the
    colour and the hidden flag it started with, and a port log extended
    by the cursor update when the cursor is visible. *)
Lemma putbyte_shape (ch : Z) (st : console) :
  video_ok -> cursor_ok st ->
  exists r c m,
    (0 <= r < CONSOLE_HEIGHT /\ 0 <= c < CONSOLE_WIDTH) /\
    snd (putbyte ch st) =
    MkConsole r c (cursor_hidden st) (cursor_color st) m
      (outb_log st ++
       if cursor_hidden st =? 0
       then crtc_events (c + r * CONSOLE_WIDTH) else []).
Proof.
  intros Hok [Hr Hc]. pose proof Hok as (HW & HH & HSZ).
  unfold putbyte. cbn [snd].
  match goal with |- context [set_cursor _ _ ?s] => set (st1 := s) end.
  assert (P : cursor_ok st1 /\ cursor_color st1 = cursor_color st /\
              cursor_hidden st1 = cursor_hidden st /\
              outb_log st1 = outb_log st).
  { unfold st1, cursor_ok.
    destruct (ch =? 10); [|destruct (ch =? 13); [|destruct (ch =? 8)]].
    - cbn [set_row set_col cursor_row cursor_col]. rewrite Z.geb_leb.
      destruct (Z.leb_spec CONSOLE_HEIGHT (cursor_row st + 1)).
      + destruct (console_scroll_frame
                    (set_row (CONSOLE_HEIGHT - 1)
                       (set_col 0 (set_row (cursor_row st + 1) st))))
          as (-> & -> & -> & -> & ->).
        cbn [set_row set_col cursor_row cursor_col cursor_color
             cursor_hidden outb_log]. repeat split; lia.
      + cbn [set_row set_col cursor_row cursor_col cursor_color
             cursor_hidden outb_log]. repeat split; lia.
    - cbn [set_row cursor_row cursor_col cursor_color cursor_hidden outb_log].
      repeat split; lia.
    - pose proof (backspace_target _ _ Hok Hr Hc) as (T & _). cbn zeta in T.
      cbn [set_row set_col cursor_row cursor_col cursor_color].
      match goal with |- context [draw_char ?r ?c ?x ?k ?s] =>
        destruct (draw_char_frame_all r c x k s) as (-> & -> & -> & -> & ->) end.
      cbn [set_row set_col cursor_row cursor_col cursor_color
           cursor_hidden outb_log]. tauto.
    - match goal with |- context [draw_char ?r ?c ?x ?k ?s] =>
        destruct (draw_char_frame_all r c x k s) as (D1 & D2 & D3 & D4 & D5);
        set (sd := draw_char r c x k s) in * end.
      cbn [set_row set_col cursor_row cursor_col cursor_color].
      assert (Q : exists r2 c2, 0 <= r2 <= CONSOLE_HEIGHT /\ 0 <= c2 < CONSOLE_WIDTH /\
                  (r2 = CONSOLE_HEIGHT -> c2 = 0) /\
                  cursor_row st * CONSOLE_WIDTH + cursor_col st + 1
                  = r2 * CONSOLE_WIDTH + c2).
      { destruct (Z.eq_dec (cursor_col st + 1) CONSOLE_WIDTH).
        - exists (cursor_row st + 1), 0. repeat split; lia.
        - exists (cursor_row st), (cursor_col st + 1). repeat split; lia. }
      destruct Q as (r2 & c2 & Hr2 & Hc2 & Hedge & ->).
      destruct (quot_rem_cell r2 c2) as [-> ->]; try lia.
      rewrite Z.geb_leb. destruct (Z.leb_spec CONSOLE_HEIGHT r2).
      + match goal with |- context [console_scroll ?s] =>
          destruct (console_scroll_frame s) as (-> & -> & -> & -> & ->) end.
        cbn [set_row set_col cursor_row cursor_col cursor_color
             cursor_hidden outb_log]. repeat split; trivial; lia.
      + cbn [set_row set_col cursor_row cursor_col cursor_color
             cursor_hidden outb_log]. repeat split; trivial; lia. }
  destruct P as (P1 & P2 & P3 & P4).
  pose proof (putbyte_epilogue_full st1 P1) as E. cbv zeta in E.
  rewrite E, P2, P3, P4.
  exists (cursor_row st1), (cursor_col st1), (mem st1). split; [exact P1|].
  reflexivity.
Qed.

(** X4.  Whatever the character, [putbyte] keeps the hidden flag, and
    it writes the cursor registers only while the cursor is visible: a
    hidden cursor gets no port write at all, a visible one gets exactly
    the four writes whose two data bytes make up the index of the new
    cursor cell. *)
Theorem putbyte_cursor_registers (ch : Z) (st : console) :
  video_ok -> cursor_ok st ->
  let st' := snd (putbyte ch st) in
  cursor_hidden st' = cursor_hidden st /\
  (cursor_hidden st <> 0 -> outb_log st' = outb_log st) /\
  (cursor_hidden st = 0 ->
   exists lsb msb,
     outb_log st' = outb_log st ++
       [(CRTC_IDX_REG, CRTC_CURSOR_MSB_IDX); (CRTC_DATA_REG, msb);
        (CRTC_IDX_REG, CRTC_CURSOR_LSB_IDX); (CRTC_DATA_REG, lsb)] /\
     0 <= lsb < 256 /\ 0 <= msb < 256 /\
     lsb + 256 * msb = cursor_row st' * CONSOLE_WIDTH + cursor_col st').
Proof.
  intros Hok Hcur. cbn zeta.
  destruct (putbyte_shape ch st Hok Hcur) as (r & c & m & [Hr Hc] & ->).
  cbn [cursor_hidden outb_log cursor_row cursor_col].
  split; [reflexivity|]. split.
  - intros Hh. destruct (Z.eqb_spec (cursor_hidden st) 0); [easy|].
    apply app_nil_r.
  - intros ->. cbn [Z.eqb]. unfold crtc_events.
    destruct Hok as (HW & HH & HSZ). unfold CONSOLE_SZ in HSZ.
    assert (Hpos : 0 <= c + r * CONSOLE_WIDTH < 65536) by nia.
    destruct (crtc_bytes _ Hpos) as (B1 & B2 & B3).
    eexists _, _. split; [reflexivity|]. repeat split; try lia.
Qed.

(** *** Printable characters and newline *)

(** The state after printing a character that does not land on the last
    cell of the grid. *)
Lemma putbyte_printable_state (ch : Z) (st : console) :
  video_ok -> cursor_ok st -> color_ok st -> printable ch ->
  cursor_row st * CONSOLE_WIDTH + cursor_col st + 1 < CONSOLE_SZ ->
  exists r2 c2,
    (0 <= r2 < CONSOLE_HEIGHT /\ 0 <= c2 < CONSOLE_WIDTH) /\
    r2 * CONSOLE_WIDTH + c2 = cursor_row st * CONSOLE_WIDTH + cursor_col st + 1 /\
    putbyte ch st =
    (ch,
     MkConsole r2 c2 (cursor_hidden st) (cursor_color st)
       (store (store (mem st)
                 (cell_addr (cursor_row st * CONSOLE_WIDTH + cursor_col st))
                 (byte_of_Z ch))
              (cell_addr (cursor_row st * CONSOLE_WIDTH + cursor_col st) + 1)
              (byte_of_Z (cursor_color st)))
       (outb_log st ++
        if cursor_hidden st =? 0
        then crtc_events (c2 + r2 * CONSOLE_WIDTH) else [])).
Proof.
  intros Hok [Hr Hc] Hk (N10 & N13 & N8) Hroom.
  pose proof Hok as (HW & HH & HSZ).
  unfold putbyte.
  rewrite (proj2 (Z.eqb_neq ch 10) N10), (proj2 (Z.eqb_neq ch 13) N13),
    (proj2 (Z.eqb_neq ch 8) N8).
  rewrite draw_char_valid by assumption.
  cbn [set_mem set_row set_col cursor_row cursor_col cursor_color].
  assert (Q : exists r2 c2, 0 <= r2 < CONSOLE_HEIGHT /\ 0 <= c2 < CONSOLE_WIDTH /\
              cursor_row st * CONSOLE_WIDTH + cursor_col st + 1
              = r2 * CONSOLE_WIDTH + c2).
  { destruct (Z.eq_dec (cursor_col st + 1) CONSOLE_WIDTH).
    - exists (cursor_row st + 1), 0. repeat split; try lia; nia.
    - exists (cursor_row st), (cursor_col st + 1). repeat split; lia. }
  destruct Q as (r2 & c2 & Hr2 & Hc2 & Hlin). rewrite Hlin.
  destruct (quot_rem_cell r2 c2) as [-> ->]; try lia.
  replace (r2 >=? CONSOLE_HEIGHT) with false
    by (symmetry; rewrite Z.geb_leb; apply Z.leb_gt; lia).
  match goal with |- context [snd (set_cursor _ _ ?s)] =>
    assert (Hok1 : cursor_ok s) by (split; assumption);
    pose proof (putbyte_epilogue_full s Hok1) as E
  end.
  cbv zeta in E. rewrite E.
  cbn [mem cursor_row cursor_col cursor_color cursor_hidden outb_log
       set_row set_col set_mem].
  exists r2, c2. split; [split; assumption|]. split; [lia|reflexivity].
Qed.

(** X5.  A printable character that does not land on the last cell of
    the grid: [putbyte] stores it with the current colour in the cell
    under the cursor, moves the cursor to the next cell in row-major
    order (the next column, or column 0 of the next row after the last
    column), changes no other byte of memory, and returns the
    character. *)
Theorem putbyte_printable (ch : Z) (st : console) :
  video_ok -> cursor_ok st -> color_ok st -> printable ch ->
  cursor_row st * CONSOLE_WIDTH + cursor_col st + 1 < CONSOLE_SZ ->
  let st' := snd (putbyte ch st) in
  let a := cell_addr (cursor_row st * CONSOLE_WIDTH + cursor_col st) in
  fst (putbyte ch st) = ch /\
  cell (mem st') (cursor_row st) (cursor_col st) =
    (byte_of_Z ch, byte_of_Z (cursor_color st)) /\
  (forall x, x <> a -> x <> a + 1 -> mem st' x = mem st x) /\
  cursor_ok st' /\
  (cursor_col st + 1 < CONSOLE_WIDTH ->
     get_cursor st' = (cursor_row st, cursor_col st + 1)) /\
  (cursor_col st + 1 = CONSOLE_WIDTH ->
     get_cursor st' = (cursor_row st + 1, 0)) /\
  cursor_color st' = cursor_color st.
Proof.
  intros Hok Hcur Hk Hp Hroom. cbn zeta.
  destruct (putbyte_printable_state ch st Hok Hcur Hk Hp Hroom)
    as (r2 & c2 & [Hr2 Hc2] & Hlin & ->).
  destruct Hok as (HW & HH & HSZ). destruct Hcur as [Hr Hc].
  unfold cell, cell_addr, get_cursor, cursor_ok.
  cbn [fst snd mem cursor_row cursor_col cursor_color].
  split; [reflexivity|].
  split; [f_equal; [now rewrite store_ne, store_eq by lia | apply store_eq]|].
  split; [intros x X1 X2; now rewrite !store_ne by assumption|].
  split; [tauto|]. split; [|split; [|reflexivity]].
  - intros Hin. assert (r2 = cursor_row st) by nia. subst r2. f_equal. lia.
  - intros Hend. assert (r2 = cursor_row st + 1) by nia. subst r2.
    f_equal. lia.
Qed.

(** X6.  A printable character on the last cell of the grid: [putbyte]
    stores it there, then scrolls once; the character ends in the last
    column of the row above, the last row is blank in the current
    colour, and the cursor stands at column 0 of the last row. *)
Theorem putbyte_printable_last_cell (ch : Z) (st : console) :
  video_ok -> color_ok st -> printable ch ->
  cursor_row st = CONSOLE_HEIGHT - 1 -> cursor_col st = CONSOLE_WIDTH - 1 ->
  let st' := snd (putbyte ch st) in
  let drawn := draw_char (CONSOLE_HEIGHT - 1) (CONSOLE_WIDTH - 1) ch
                 (cursor_color st) st in
  mem st' = mem (console_scroll drawn) /\
  get_cursor st' = (CONSOLE_HEIGHT - 1, 0) /\
  (2 <= CONSOLE_HEIGHT ->
   cell (mem st') (CONSOLE_HEIGHT - 2) (CONSOLE_WIDTH - 1) =
     (byte_of_Z ch, byte_of_Z (cursor_color st))) /\
  (forall r c, 1 <= r < CONSOLE_HEIGHT - 1 -> 0 <= c < CONSOLE_WIDTH ->
     cell (mem st') (r - 1) c = cell (mem st) r c) /\
  (forall c, 0 <= c < CONSOLE_WIDTH ->
     cell (mem st') (CONSOLE_HEIGHT - 1) c =
       (blank, byte_of_Z (cursor_color st))).
Proof.
  intros Hok Hk (N10 & N13 & N8) Hrow Hcol.
  pose proof Hok as (HW & HH & HSZ). cbn zeta.
  assert (Hr : 0 <= CONSOLE_HEIGHT - 1 < CONSOLE_HEIGHT) by lia.
  assert (Hc : 0 <= CONSOLE_WIDTH - 1 < CONSOLE_WIDTH) by lia.
  pose proof (draw_char_valid
    (CONSOLE_HEIGHT - 1) (CONSOLE_WIDTH - 1) ch (cursor_color st) st Hr Hc Hk)
    as Hdrawn.
  unfold putbyte. cbn [snd].
  rewrite (proj2 (Z.eqb_neq ch 10) N10), (proj2 (Z.eqb_neq ch 13) N13),
    (proj2 (Z.eqb_neq ch 8) N8).
  rewrite Hrow, Hcol.
  set (drawn := draw_char (CONSOLE_HEIGHT - 1) (CONSOLE_WIDTH - 1) ch
                  (cursor_color st) st) in *.
  replace ((CONSOLE_HEIGHT - 1) * CONSOLE_WIDTH + (CONSOLE_WIDTH - 1) + 1)
    with (CONSOLE_HEIGHT * CONSOLE_WIDTH + 0) by lia.
  destruct (quot_rem_cell CONSOLE_HEIGHT 0) as [-> ->]; try lia.
  cbn [set_row set_col cursor_row cursor_col].
  replace (CONSOLE_HEIGHT >=? CONSOLE_HEIGHT) with true
    by (symmetry; rewrite Z.geb_leb; apply Z.leb_le; lia).
  match goal with |- context [console_scroll ?s] =>
    set (pre := s);
    destruct (console_scroll_frame pre) as (F1 & F2 & _ & _ & _);
    pose proof (console_scroll_mem_ext pre drawn) as Hmem
  end.
  cbn [pre set_row set_col cursor_row cursor_col] in F1, F2.
  assert (Hok1 : cursor_ok (console_scroll pre))
    by (unfold cursor_ok; rewrite F1, F2; lia).
  pose proof (putbyte_epilogue_full _ Hok1) as E. cbv zeta in E.
  rewrite E. unfold get_cursor. cbn [mem cursor_row cursor_col].
  rewrite F1, F2, Hmem by reflexivity.
  assert (Hcolor : cursor_color drawn = cursor_color st)
    by (unfold drawn; apply draw_char_frame_all).
  split; [reflexivity|]. split; [reflexivity|].
  split; [|split].
  - intros H2.
    replace (CONSOLE_HEIGHT - 2) with (CONSOLE_HEIGHT - 1 - 1) by lia.
    rewrite (scroll_rows_up drawn Hok) by lia.
    rewrite Hdrawn. unfold cell, cell_addr, set_mem.
    cbn [mem]. f_equal; [now rewrite store_ne, store_eq by lia | apply store_eq].
  - intros r c Hr' Hc'. rewrite (scroll_rows_up drawn Hok) by lia.
    rewrite Hdrawn. unfold cell, cell_addr, set_mem.
    cbn [mem].
    assert (r * CONSOLE_WIDTH + c <>
            (CONSOLE_HEIGHT - 1) * CONSOLE_WIDTH + (CONSOLE_WIDTH - 1))
      by (apply cell_addr_apart; try lia; intros [= -> _]; lia).
    now rewrite !store_ne by lia.
  - intros c Hc'. rewrite (scroll_last_row drawn Hok) by lia.
    now rewrite Hcolor.
Qed.

(** X7.  A newline above the last row moves the cursor to column 0 of
    the next row and changes neither the memory nor the colour. *)
Theorem putbyte_newline (st : console) :
  video_ok -> cursor_ok st -> cursor_row st < CONSOLE_HEIGHT - 1 ->
  let st' := snd (putbyte 10 st) in
  get_cursor st' = (cursor_row st + 1, 0) /\
  mem st' = mem st /\ cursor_color st' = cursor_color st.
Proof.
  intros (HW & HH & HSZ) [Hr Hc] Hrow. cbn zeta.
  unfold putbyte. change (10 =? 10) with true. cbv iota. cbn [snd].
  cbn [set_row set_col cursor_row cursor_col].
  replace (cursor_row st + 1 >=? CONSOLE_HEIGHT) with false
    by (symmetry; rewrite Z.geb_leb; apply Z.leb_gt; lia).
  match goal with |- context [snd (set_cursor _ _ ?s)] =>
    assert (Hok1 : cursor_ok s)
      by (unfold cursor_ok; cbn [set_row set_col cursor_row cursor_col]; lia);
    pose proof (putbyte_epilogue_full s Hok1) as E
  end.
  cbv zeta in E. rewrite E. now cbn.
Qed.

(** *** Clearing the screen *)

Lemma clear_loop_spec (fuel : nat) :
  forall (i end_ p color : Z) (m : memory),
    i <= end_ -> (Z.to_nat (end_ - i) <= fuel)%nat ->
    forall a,
      clear_loop fuel i end_ p color m a =
      if (p <=? a) && (a <? p + 2 * (end_ - i))
      then (if Z.even (a - p) then blank else byte_of_Z color)
      else m a.
Proof.
  induction fuel as [|k IH]; intros i end_ p color m Hle Hfuel a; simpl.
  - replace (end_ - i) with 0 by lia.
    destruct (Z.leb_spec p a), (Z.ltb_spec a (p + 2 * 0)); simpl; trivial; lia.
  - destruct (Z.ltb_spec i end_) as [Hlt|Hge].
    + rewrite IH by lia.
      destruct (Z.leb_spec (p + 2) a), (Z.leb_spec p a),
        (Z.ltb_spec a (p + 2 + 2 * (end_ - (i + 1)))),
        (Z.ltb_spec a (p + 2 * (end_ - i))); simpl; try lia.
      all: try rewrite !store_ne by lia; trivial.
      * replace (a - p) with (Z.succ (Z.succ (a - (p + 2)))) by lia.
        now rewrite Z.even_succ_succ.
      * destruct (Z.eq_dec a p) as [->|Ha].
        -- replace (p - p) with 0 by lia. simpl.
           rewrite store_ne by lia. apply store_eq.
        -- replace a with (p + 1) by lia.
           replace (p + 1 - p) with 1 by lia. simpl. apply store_eq.
    + replace (end_ - i) with 0 by lia.
      destruct (Z.leb_spec p a), (Z.ltb_spec a (p + 2 * 0)); simpl; trivial; lia.
Qed.

(** X8.  [clear_console] makes every cell of the grid a blank in the
    current colour and puts the cursor at (0, 0); it writes no byte
    outside the grid, keeps the colour and the hidden flag, and updates
    the cursor registers (to cell 0) only if the cursor is visible. *)
Theorem clear_console_blank (st : console) :
  video_ok -> color_ok st ->
  let st' := clear_console st in
  (forall r c, 0 <= r < CONSOLE_HEIGHT -> 0 <= c < CONSOLE_WIDTH ->
     cell (mem st') r c = (blank, byte_of_Z (cursor_color st))) /\
  Z_of_byte (byte_of_Z (cursor_color st)) = cursor_color st /\
  get_cursor st' = (0, 0) /\
  (forall a, a < CONSOLE_MEM_BASE \/ CONSOLE_MEM_BASE + CONSOLE_SZ * 2 <= a ->
     mem st' a = mem st a) /\
  cursor_color st' = cursor_color st /\
  cursor_hidden st' = cursor_hidden st /\
  outb_log st' = outb_log st ++
    (if cursor_hidden st =? 0 then crtc_events 0 else []).
Proof.
  intros (HW & HH & HSZ) Hk. cbn zeta. unfold clear_console.
  set (m := clear_loop _ _ _ _ _ _).
  assert (Hm : forall a, m a =
            if (CONSOLE_MEM_BASE <=? a) && (a <? CONSOLE_MEM_BASE + 2 * (CONSOLE_SZ - 0))
            then (if Z.even (a - CONSOLE_MEM_BASE) then blank
                  else byte_of_Z (cursor_color st))
            else mem st a).
  { intros a. unfold m. apply clear_loop_spec; unfold CONSOLE_SZ; lia. }
  unfold set_cursor. rewrite cursor_guard_false by lia. cbn [snd].
  assert (E : (if cursor_hidden (set_col 0 (set_row 0 (set_mem m st))) =? 0
               then show_cursor (set_col 0 (set_row 0 (set_mem m st)))
               else set_col 0 (set_row 0 (set_mem m st)))
              = MkConsole 0 0 (cursor_hidden st) (cursor_color st) m
                  (outb_log st ++
                   if cursor_hidden st =? 0 then crtc_events 0 else [])).
  { cbn [set_col set_row set_mem cursor_hidden cursor_row cursor_col
         cursor_color mem outb_log].
    destruct (cursor_hidden st =? 0).
    - unfold show_cursor, crtc_write, outb, crtc_events.
      cbn [cursor_row cursor_col cursor_hidden cursor_color mem outb_log].
      replace (0 + 0 * CONSOLE_WIDTH) with 0 by lia.
      now rewrite <- !app_assoc.
    - now rewrite app_nil_r. }
  rewrite E. unfold get_cursor, cell.
  cbn [cursor_row cursor_col cursor_color cursor_hidden mem outb_log].
  split; [|split; [now apply Z_of_byte_of_Z|repeat split]].
  - intros r c Hr Hc. rewrite !Hm.
    assert (0 <= r * CONSOLE_WIDTH + c < CONSOLE_SZ) by nia.
    set (a := CONSOLE_MEM_BASE + (r * CONSOLE_WIDTH + c) * 2).
    replace ((CONSOLE_MEM_BASE <=? a) &&
             (a <? CONSOLE_MEM_BASE + 2 * (CONSOLE_SZ - 0))) with true
      by (symmetry; apply andb_true_intro; split;
          [apply Z.leb_le | apply Z.ltb_lt]; unfold a; lia).
    replace ((CONSOLE_MEM_BASE <=? a + 1) &&
             (a + 1 <? CONSOLE_MEM_BASE + 2 * (CONSOLE_SZ - 0))) with true
      by (symmetry; apply andb_true_intro; split;
          [apply Z.leb_le | apply Z.ltb_lt]; unfold a; lia).
    replace (a - CONSOLE_MEM_BASE) with (0 + 2 * (r * CONSOLE_WIDTH + c))
      by (unfold a; lia).
    replace (a + 1 - CONSOLE_MEM_BASE) with (1 + 2 * (r * CONSOLE_WIDTH + c))
      by (unfold a; lia).
    now rewrite !Z.even_add_mul_2.
  - intros a Ha. rewrite Hm.
    destruct (Z.leb_spec CONSOLE_MEM_BASE a),
      (Z.ltb_spec a (CONSOLE_MEM_BASE + 2 * (CONSOLE_SZ - 0)));
      cbn; trivial; lia.
Qed.

(** *** Strings *)

Lemma putbytes_loop_shift (fuel : nat) :
  forall (i len d p : Z) (st : console),
    putbytes_loop fuel (i + d) (len + d) p st = putbytes_loop fuel i len p st.
Proof.
  induction fuel as [|k IH]; intros i len d p st; cbn [putbytes_loop]; trivial.
  replace (i + d <? len + d) with (i <? len)
    by (destruct (Z.ltb_spec i len), (Z.ltb_spec (i + d) (len + d)); lia).
  destruct (i <? len); trivial.
  replace (i + d + 1) with (i + 1 + d) by lia. apply IH.
Qed.

Lemma putbytes_loop_split (a : nat) :
  forall (b : nat) (i p : Z) (st : console),
    putbytes_loop (a + b) i (i + Z.of_nat a + Z.of_nat b) p st =
    putbytes_loop b (i + Z.of_nat a) (i + Z.of_nat a + Z.of_nat b)
      (p + Z.of_nat a)
      (putbytes_loop a i (i + Z.of_nat a) p st).
Proof.
  induction a as [|k IH]; intros b i p st.
  - cbn [Nat.add putbytes_loop Z.of_nat]. now rewrite !Z.add_0_r.
  - cbn [Nat.add putbytes_loop].
    replace (i <? i + Z.of_nat (S k) + Z.of_nat b) with true
      by (symmetry; apply Z.ltb_lt; lia).
    replace (i <? i + Z.of_nat (S k)) with true
      by (symmetry; apply Z.ltb_lt; lia).
    replace (i + Z.of_nat (S k)) with (i + 1 + Z.of_nat k) by lia.
    replace (p + Z.of_nat (S k)) with (p + 1 + Z.of_nat k) by lia.
    apply IH.
Qed.

(** X9.  Printing a string in two pieces is printing it at once: for
    non-negative [n] and [m], [putbytes s (n + m)] is [putbytes s n]
    followed by [putbytes (s + n) m]; a string of length one is a
    single [putbyte] of the byte at [s]. *)
Theorem putbytes_app (s n m : Z) (st : console) :
  0 <= n -> 0 <= m ->
  putbytes s (n + m) st = putbytes (s + n) m (putbytes s n st) /\
  putbytes s 1 st = snd (putbyte (char_of_byte (mem st s)) st).
Proof.
  intros Hn Hm. split; [|reflexivity]. unfold putbytes.
  replace (Z.to_nat (n + m)) with (Z.to_nat n + Z.to_nat m)%nat by lia.
  pose proof (putbytes_loop_split (Z.to_nat n) (Z.to_nat m) 0 s st) as E.
  rewrite !Z2Nat.id, !Z.add_0_l in E by lia. rewrite E.
  rewrite <- (putbytes_loop_shift _ 0 m n). now rewrite Z.add_0_l, Z.add_comm.
Qed.

Lemma putbytes_text_linear (n : nat) :
  forall (s : Z) (st : console),
    video_ok -> cursor_ok st -> color_ok st ->
    let pos := cursor_row st * CONSOLE_WIDTH + cursor_col st in
    pos + Z.of_nat n < CONSOLE_SZ ->
    (forall i, 0 <= i < Z.of_nat n -> printable (char_of_byte (mem st (s + i)))) ->
    (forall i, 0 <= i < Z.of_nat n ->
       s + i < cell_addr pos \/ cell_addr (pos + Z.of_nat n) <= s + i) ->
    let st' := putbytes_loop n 0 (Z.of_nat n) s st in
    cursor_ok st' /\ cursor_color st' = cursor_color st /\
    cursor_row st' * CONSOLE_WIDTH + cursor_col st' = pos + Z.of_nat n /\
    (forall i, 0 <= i < Z.of_nat n ->
       mem st' (cell_addr (pos + i)) = mem st (s + i) /\
       mem st' (cell_addr (pos + i) + 1) = byte_of_Z (cursor_color st)) /\
    (forall x, x < cell_addr pos \/ cell_addr (pos + Z.of_nat n) <= x ->
       mem st' x = mem st x).
Proof.
  induction n as [|k IH]; intros s st Hok Hcur Hk pos Hroom Hprint Hapart.
  - cbn zeta. cbn [putbytes_loop]. change (Z.of_nat 0) with 0.
    split; [exact Hcur|]. split; [reflexivity|]. split; [fold pos; lia|].
    split; [intros i Hi; lia | reflexivity].
  - cbn zeta. cbn [putbytes_loop].
    replace (0 <? Z.of_nat (S k)) with true by (symmetry; apply Z.ltb_lt; lia).
    assert (Hp0 : printable (char_of_byte (mem st s))).
    { specialize (Hprint 0 ltac:(lia)). now rewrite Z.add_0_r in Hprint. }
    destruct (putbyte_printable_state _ st Hok Hcur Hk Hp0 ltac:(fold pos; lia))
      as (r2 & c2 & Hrc & Hlin & ->).
    cbn [snd]. fold pos in Hlin |- *.
    set (st1 := MkConsole r2 c2 _ _ _ _).
    replace (Z.of_nat (S k)) with (Z.of_nat k + 1) by lia.
    change (0 + 1) with (0 + 1).
    rewrite (putbytes_loop_shift k 0 (Z.of_nat k) 1).
    assert (Hm1 : forall x, x <> cell_addr pos -> x <> cell_addr pos + 1 ->
                    mem st1 x = mem st x).
    { intros x X1 X2. unfold st1. cbn [mem]. now rewrite !store_ne by assumption. }
    assert (Hsrc : forall i, 0 <= i < Z.of_nat (S k) -> mem st1 (s + i) = mem st (s + i)).
    { intros i Hi. apply Hm1; specialize (Hapart i Hi);
        unfold cell_addr in *; lia. }
    specialize (IH (s + 1) st1 Hok).
    cbn zeta in IH.
    assert (Hpos1 : cursor_row st1 * CONSOLE_WIDTH + cursor_col st1 = pos + 1)
      by (unfold st1; cbn [cursor_row cursor_col]; lia).
    rewrite Hpos1 in IH.
    destruct IH as (I1 & I2 & I3 & I4 & I5).
    + unfold st1, cursor_ok. cbn [cursor_row cursor_col]. tauto.
    + exact Hk.
    + lia.
    + intros i Hi. replace (s + 1 + i) with (s + (1 + i)) by lia.
      rewrite Hsrc by lia. apply Hprint. lia.
    + intros i Hi. specialize (Hapart (1 + i) ltac:(lia)).
      unfold cell_addr in *. lia.
    + split; [exact I1|]. split; [exact I2|]. split; [lia|]. split.
      * intros i Hi. destruct (Z.eq_dec i 0) as [->|Hnz].
        -- rewrite !Z.add_0_r.
           rewrite !I5 by (unfold cell_addr; lia).
           unfold st1. cbn [mem].
           split; [|apply store_eq].
           rewrite store_ne, store_eq by lia. apply byte_of_Z_char_of_byte.
        -- destruct (I4 (i - 1) ltac:(lia)) as [J1 J2].
           replace (pos + 1 + (i - 1)) with (pos + i) in J1, J2 by lia.
           rewrite J1, J2. replace (s + 1 + (i - 1)) with (s + i) by lia.
           split; [apply Hsrc; lia | reflexivity].
      * intros x Hx. rewrite I5 by (unfold cell_addr in *; lia).
        apply Hm1; unfold cell_addr in *; lia.
Qed.

(** X10.  A string of printable characters that fits on the rest of the
    cursor's row, stored away from the cells it is printed to:
    [putbytes] copies its bytes, in order, into the cells from the
    cursor on, each with the current colour, leaves the cursor right
    after the last one and touches no other byte. *)
Theorem putbytes_text (s len : Z) (st : console) :
  video_ok -> cursor_ok st -> color_ok st ->
  0 <= len -> cursor_col st + len < CONSOLE_WIDTH ->
  let pos := cursor_row st * CONSOLE_WIDTH + cursor_col st in
  (forall i, 0 <= i < len -> printable (char_of_byte (mem st (s + i)))) ->
  (forall i, 0 <= i < len ->
     s + i < cell_addr pos \/ cell_addr (pos + len) <= s + i) ->
  let st' := putbytes s len st in
  get_cursor st' = (cursor_row st, cursor_col st + len) /\
  (forall i, 0 <= i < len ->
     cell (mem st') (cursor_row st) (cursor_col st + i) =
       (mem st (s + i), byte_of_Z (cursor_color st))) /\
  (forall x, x < cell_addr pos \/ cell_addr (pos + len) <= x ->
     mem st' x = mem st x) /\
  cursor_color st' = cursor_color st.
Proof.
  intros Hok Hcur Hk Hlen Hfit pos Hprint Hapart. cbn zeta.
  pose proof Hok as (HW & HH & HSZ). pose proof Hcur as [Hr Hc].
  unfold putbytes.
  pose proof (putbytes_text_linear (Z.to_nat len) s st Hok Hcur Hk) as L.
  cbn zeta in L. rewrite Z2Nat.id in L by lia. fold pos in L.
  destruct L as ([L1r L1c] & L2 & L3 & L4 & L5); trivial.
  { unfold pos. nia. }
  split; [|split; [|split; [exact L5 | exact L2]]].
  - unfold get_cursor.
    set (r' := cursor_row (putbytes_loop (Z.to_nat len) 0 len s st)) in *.
    set (c' := cursor_col (putbytes_loop (Z.to_nat len) 0 len s st)) in *.
    assert (r' = cursor_row st) by (unfold pos in L3; nia).
    f_equal; [assumption|]. unfold pos in L3. nia.
  - intros i Hi. destruct (L4 i Hi) as [J1 J2]. unfold cell.
    unfold cell_addr, pos in J1, J2.
    replace (cursor_row st * CONSOLE_WIDTH + (cursor_col st + i))
      with (cursor_row st * CONSOLE_WIDTH + cursor_col st + i) by lia.
    now rewrite J1, J2.
Qed.

(** *** The invariant of the driver *)

Lemma putbytes_loop_ok (fuel : nat) :
  forall (i len p : Z) (st : console),
    video_ok -> cursor_ok st ->
    cursor_ok (putbytes_loop fuel i len p st) /\
    cursor_color (putbytes_loop fuel i len p st) = cursor_color st /\
    cursor_hidden (putbytes_loop fuel i len p st) = cursor_hidden st.
Proof.
  induction fuel as [|k IH]; intros i len p st Hok Hcur;
    cbn [putbytes_loop]; [tauto|].
  destruct (i <? len); [|tauto].
  destruct (putbyte_shape (char_of_byte (mem st p)) st Hok Hcur)
    as (r & c & m & Hrc & E).
  rewrite E.
  destruct (IH (i + 1) len (p + 1)
              (MkConsole r c (cursor_hidden st) (cursor_color st) m
                 (outb_log st ++
                  (if cursor_hidden st =? 0
                   then crtc_events (c + r * CONSOLE_WIDTH) else []))) Hok Hrc)
    as (I1 & I2 & I3).
  now rewrite I2, I3.
Qed.

(** X11.  From a state with the cursor on the grid and a colour code
    in 0..255, every operation of the driver leads to such a state
    again: [putbyte] and [putbytes] on any input, [set_cursor] and
    [set_term_color] whether they succeed or fail, [clear_console],
    [draw_char], [hide_cursor], [show_cursor] and [console_scroll]. *)
Theorem console_invariant (st : console) :
  video_ok -> cursor_ok st -> color_ok st ->
  (forall ch, cursor_ok (snd (putbyte ch st)) /\ color_ok (snd (putbyte ch st))) /\
  (forall s len, cursor_ok (putbytes s len st) /\ color_ok (putbytes s len st)) /\
  (forall r c, cursor_ok (snd (set_cursor r c st)) /\
               color_ok (snd (set_cursor r c st))) /\
  (forall k, cursor_ok (snd (set_term_color k st)) /\
             color_ok (snd (set_term_color k st))) /\
  (cursor_ok (clear_console st) /\ color_ok (clear_console st)) /\
  (forall r c ch k, cursor_ok (draw_char r c ch k st) /\
                    color_ok (draw_char r c ch k st)) /\
  (cursor_ok (hide_cursor st) /\ color_ok (hide_cursor st)) /\
  (cursor_ok (show_cursor st) /\ color_ok (show_cursor st)) /\
  (cursor_ok (console_scroll st) /\ color_ok (console_scroll st)).
Proof.
  intros Hok Hcur Hk. pose proof Hok as (HW & HH & HSZ).
  pose proof Hcur as [Hr Hc].
  split; [|split; [|split; [|split; [|split; [|split; [|split; [|split]]]]]]].
  - intros ch. destruct (putbyte_shape ch st Hok Hcur) as (r & c & m & Hrc & ->).
    split; [exact Hrc | exact Hk].
  - intros s len. unfold putbytes, color_ok.
    destruct (putbytes_loop_ok (Z.to_nat len) 0 len s st Hok Hcur)
      as (I1 & I2 & _).
    split; [exact I1 | now rewrite I2].
  - intros r c. unfold set_cursor.
    destruct ((r <? 0) || (r >=? CONSOLE_HEIGHT) || (c <? 0) ||
              (c >=? CONSOLE_WIDTH)) eqn:G; cbn [snd]; [tauto|].
    split; [|exact Hk].
    unfold cursor_ok. cbn [set_row set_col cursor_row cursor_col].
    rewrite !Z.geb_leb in G.
    destruct (Z.ltb_spec r 0), (Z.leb_spec CONSOLE_HEIGHT r),
      (Z.ltb_spec c 0), (Z.leb_spec CONSOLE_WIDTH c); cbn in G;
      try discriminate; lia.
  - intros k. unfold set_term_color, color_ok, COLOR_BOUND in *.
    rewrite Z.geb_leb.
    destruct (Z.leb_spec 256 k), (Z.ltb_spec k 0); cbn [snd]; tauto.
  - unfold clear_console, set_cursor. rewrite cursor_guard_false by lia.
    cbn [snd set_row set_col set_mem cursor_hidden].
    destruct (cursor_hidden st =? 0);
      unfold cursor_ok, color_ok; cbn; split; trivial; lia.
  - intros r c ch k.
    destruct (draw_char_frame_all r c ch k st) as (D1 & D2 & _ & D4 & _).
    unfold cursor_ok, color_ok. rewrite D1, D2, D4.
    split; [exact Hcur | exact Hk].
  - split; [exact Hcur | exact Hk].
  - split; [exact Hcur | exact Hk].
  - destruct (console_scroll_frame st) as (F1 & F2 & _ & F4 & _).
    unfold cursor_ok, color_ok. rewrite F1, F2, F4.
    split; [exact Hcur | exact Hk].
Qed.

(** *** Hiding and showing the cursor *)

Lemma crtc_write_state (pos : Z) (st : console) :
  crtc_write pos st =
  MkConsole (cursor_row st) (cursor_col st) (cursor_hidden st)
    (cursor_color st) (mem st) (outb_log st ++ crtc_events pos).
Proof.
  unfold crtc_write, outb, crtc_events.
  cbn [cursor_row cursor_col cursor_hidden cursor_color mem outb_log].
  now rewrite <- !app_assoc.
Qed.

(** X12.  [hide_cursor] raises the hidden flag and parks the hardware
    cursor at index [CONSOLE_SZ + 1], past the last cell, leaving the
    logical cursor and the memory alone; from then on [putbyte] writes
    no port.  [show_cursor] sends the index of the logical cursor to the
    controller but does not lower the flag: after [hide_cursor] and
    [show_cursor] the flag is still up and a following [putbyte] still
    writes no port. *)
Theorem hide_cursor_show_cursor (st : console) :
  video_ok -> cursor_ok st ->
  let h := hide_cursor st in
  let sh := show_cursor h in
  cursor_hidden h = HIDDEN /\
  outb_log h = outb_log st ++ crtc_events (CONSOLE_SZ + 1) /\
  CONSOLE_WIDTH * CONSOLE_HEIGHT <=
    Z.land (CONSOLE_SZ + 1) 255 + 256 * Z.land (Z.shiftr (CONSOLE_SZ + 1) 8) 255 /\
  get_cursor h = get_cursor st /\ mem h = mem st /\
  (forall ch, outb_log (snd (putbyte ch h)) = outb_log h) /\
  outb_log sh = outb_log h ++
    crtc_events (cursor_col st + cursor_row st * CONSOLE_WIDTH) /\
  cursor_hidden sh = HIDDEN /\
  (forall ch, outb_log (snd (putbyte ch sh)) = outb_log sh).
Proof.
  intros Hok Hcur. cbn zeta. pose proof Hok as (HW & HH & HSZ).
  assert (Eh : hide_cursor st =
               MkConsole (cursor_row st) (cursor_col st) HIDDEN
                 (cursor_color st) (mem st)
                 (outb_log st ++ crtc_events (CONSOLE_SZ + 1))).
  { unfold hide_cursor. now rewrite crtc_write_state. }
  assert (Es : show_cursor (hide_cursor st) =
               MkConsole (cursor_row st) (cursor_col st) HIDDEN
                 (cursor_color st) (mem st)
                 ((outb_log st ++ crtc_events (CONSOLE_SZ + 1)) ++
                  crtc_events (cursor_col st + cursor_row st * CONSOLE_WIDTH))).
  { unfold show_cursor. rewrite crtc_write_state, Eh. reflexivity. }
  assert (Hh : cursor_ok (hide_cursor st)) by (rewrite Eh; exact Hcur).
  assert (Hs : cursor_ok (show_cursor (hide_cursor st)))
    by (rewrite Es; exact Hcur).
  assert (Hquiet : forall ch s, cursor_ok s -> cursor_hidden s = HIDDEN ->
                     outb_log (snd (putbyte ch s)) = outb_log s).
  { intros ch s Hs' Hflag.
    destruct (putbyte_shape ch s Hok Hs') as (r & c & m & _ & ->).
    cbn [outb_log]. rewrite Hflag. change (HIDDEN =? 0) with false.
    apply app_nil_r. }
  split; [now rewrite Eh|]. split; [now rewrite Eh|].
  split; [rewrite HSZ; vm_compute; discriminate|].
  split; [now rewrite Eh|]. split; [now rewrite Eh|].
  split; [intros ch; apply Hquiet; [exact Hh | now rewrite Eh]|].
  split; [now rewrite Es, Eh|]. split; [now rewrite Es|].
  intros ch. apply Hquiet; [exact Hs | now rewrite Es].
Qed.

End More.

(** *** Instances on the 80x25 text mode *)

Lemma console_3_5_cursor_ok : @cursor_ok vga_text console_3_5.
Proof. unfold cursor_ok. cbn. lia. Qed.

Lemma console_3_5_color_ok : color_ok console_3_5.
Proof. unfold color_ok, COLOR_BOUND. cbn. lia. Qed.

Lemma mem_A_printable (x : Z) : printable (char_of_byte (mem_A x)).
Proof.
  unfold mem_A. destruct (x =? 0); vm_compute; repeat split; discriminate.
Qed.

Lemma set_term_color_get_term_color_witness :
  (0 <= 12 < 256 /\
   get_term_color (snd (set_term_color 12 console_3_5)) = 12) /\
  (~ 0 <= 256 < 256 /\ snd (set_term_color 256 console_3_5) = console_3_5).
Proof.
  assert (H1 : 0 <= 12 < 256) by lia.
  assert (H2 : ~ 0 <= 256 < 256) by lia.
  split.
  - split; [exact H1|].
    exact (proj1 (proj2 (proj1 (set_term_color_get_term_color console_3_5 12) H1))).
  - split; [exact H2|].
    exact (proj2 (proj2 (set_term_color_get_term_color console_3_5 256) H2)).
Defined.

Lemma draw_char_get_char_witness :
  (@video_ok vga_text /\ 0 <= 2 < 25 /\ 0 <= 9 < 80 /\ 0 <= 12 < 256) /\
  @get_char vga_text 2 9 (@draw_char vga_text 2 9 200 12 console_3_5) = -56.
Proof.
  assert (Hr : 0 <= 2 < @CONSOLE_HEIGHT vga_text) by (cbn; lia).
  assert (Hc : 0 <= 9 < @CONSOLE_WIDTH vga_text) by (cbn; lia).
  assert (Hk : 0 <= 12 < 256) by lia.
  split; [split; [exact vga_text_ok | split; [exact Hr | split; [exact Hc | exact Hk]]]|].
  exact (proj1 (@draw_char_get_char vga_text 2 9 200 12 console_3_5
                  vga_text_ok Hr Hc Hk)).
Defined.

Lemma draw_char_invalid_witness :
  ~ (0 <= 25 < 25 /\ 0 <= 0 < 80 /\ 0 <= 7 < 256) /\
  @draw_char vga_text 25 0 65 7 console_3_5 = console_3_5.
Proof.
  assert (Hbad : ~ (0 <= 25 < @CONSOLE_HEIGHT vga_text /\
                    0 <= 0 < @CONSOLE_WIDTH vga_text /\ 0 <= 7 < 256))
    by (cbn; lia).
  split; [exact Hbad|].
  exact (@draw_char_invalid vga_text 25 0 65 7 console_3_5 Hbad).
Defined.

Lemma putbyte_cursor_registers_witness :
  (@video_ok vga_text /\ @cursor_ok vga_text console_3_5) /\
  cursor_hidden (snd (@putbyte vga_text 65 console_3_5)) = 0.
Proof.
  split; [split; [exact vga_text_ok | exact console_3_5_cursor_ok]|].
  exact (proj1 (@putbyte_cursor_registers vga_text 65 console_3_5
                  vga_text_ok console_3_5_cursor_ok)).
Defined.

Lemma putbyte_printable_witness :
  (@video_ok vga_text /\ @cursor_ok vga_text console_3_5 /\
   color_ok console_3_5 /\ printable 65 /\ 3 * 80 + 5 + 1 < CONSOLE_SZ) /\
  @cell vga_text (mem (snd (@putbyte vga_text 65 console_3_5))) 3 5
  = (Byte.x41, Byte.x07).
Proof.
  assert (Hp : printable 65) by (repeat split; discriminate).
  assert (Hroom : cursor_row console_3_5 * @CONSOLE_WIDTH vga_text
                  + cursor_col console_3_5 + 1 < CONSOLE_SZ)
    by (cbn; unfold CONSOLE_SZ; lia).
  split.
  - split; [exact vga_text_ok|]. split; [exact console_3_5_cursor_ok|].
    split; [exact console_3_5_color_ok|]. split; [exact Hp | exact Hroom].
  - exact (proj1 (proj2 (@putbyte_printable vga_text 65 console_3_5
             vga_text_ok console_3_5_cursor_ok console_3_5_color_ok Hp Hroom))).
Defined.

Lemma putbyte_printable_last_cell_witness :
  (@video_ok vga_text /\ color_ok console_last_cell /\ printable 65 /\
   cursor_row console_last_cell = 25 - 1 /\
   cursor_col console_last_cell = 80 - 1) /\
  get_cursor (snd (@putbyte vga_text 65 console_last_cell)) = (24, 0).
Proof.
  assert (Hp : printable 65) by (repeat split; discriminate).
  assert (Hk : color_ok console_last_cell)
    by (unfold color_ok, COLOR_BOUND; cbn; lia).
  assert (Hr : cursor_row console_last_cell = @CONSOLE_HEIGHT vga_text - 1)
    by reflexivity.
  assert (Hc : cursor_col console_last_cell = @CONSOLE_WIDTH vga_text - 1)
    by reflexivity.
  split.
  - split; [exact vga_text_ok|]. split; [exact Hk|]. split; [exact Hp|].
    split; [exact Hr | exact Hc].
  - exact (proj1 (proj2 (@putbyte_printable_last_cell vga_text 65
             console_last_cell vga_text_ok Hk Hp Hr Hc))).
Defined.

Lemma putbyte_newline_witness :
  (@video_ok vga_text /\ @cursor_ok vga_text console_3_5 /\
   cursor_row console_3_5 < 25 - 1) /\
  get_cursor (snd (@putbyte vga_text 10 console_3_5)) = (3 + 1, 0).
Proof.
  assert (Hr : cursor_row console_3_5 < @CONSOLE_HEIGHT vga_text - 1)
    by (cbn; lia).
  split; [split; [exact vga_text_ok | split; [exact console_3_5_cursor_ok | exact Hr]]|].
  exact (proj1 (@putbyte_newline vga_text console_3_5 vga_text_ok
                  console_3_5_cursor_ok Hr)).
Defined.

Lemma clear_console_blank_witness :
  (@video_ok vga_text /\ color_ok console_3_5) /\
  get_cursor (@clear_console vga_text console_3_5) = (0, 0).
Proof.
  split; [split; [exact vga_text_ok | exact console_3_5_color_ok]|].
  exact (proj1 (proj2 (proj2 (@clear_console_blank vga_text console_3_5
                  vga_text_ok console_3_5_color_ok)))).
Defined.

Lemma putbytes_app_witness :
  (0 <= 2 /\ 0 <= 1) /\
  @putbytes vga_text 1048576 (2 + 1) console_3_5 =
  @putbytes vga_text (1048576 + 2) 1 (@putbytes vga_text 1048576 2 console_3_5).
Proof.
  assert (H2 : 0 <= 2) by lia. assert (H1 : 0 <= 1) by lia.
  split; [split; assumption|].
  exact (proj1 (@putbytes_app vga_text 1048576 2 1 console_3_5 H2 H1)).
Defined.

Lemma putbytes_text_witness :
  (@video_ok vga_text /\ @cursor_ok vga_text console_3_5 /\
   color_ok console_3_5 /\ 0 <= 3 /\ cursor_col console_3_5 + 3 < 80) /\
  get_cursor (@putbytes vga_text 1048576 3 console_3_5) = (3, 5 + 3).
Proof.
  assert (H3 : 0 <= 3) by lia.
  assert (Hfit : cursor_col console_3_5 + 3 < @CONSOLE_WIDTH vga_text)
    by (cbn; lia).
  assert (Hprint : forall i, 0 <= i < 3 ->
            printable (char_of_byte (mem console_3_5 (1048576 + i))))
    by (intros i _; apply mem_A_printable).
  assert (Hapart : forall i, 0 <= i < 3 ->
            1048576 + i <
              @cell_addr vga_text (cursor_row console_3_5 * @CONSOLE_WIDTH vga_text
                                   + cursor_col console_3_5) \/
            @cell_addr vga_text (cursor_row console_3_5 * @CONSOLE_WIDTH vga_text
                                 + cursor_col console_3_5 + 3) <= 1048576 + i)
    by (intros i Hi; right; unfold cell_addr; cbn; lia).
  split.
  - split; [exact vga_text_ok|]. split; [exact console_3_5_cursor_ok|].
    split; [exact console_3_5_color_ok|]. split; [exact H3 | exact Hfit].
  - exact (proj1 (@putbytes_text vga_text 1048576 3 console_3_5 vga_text_ok
             console_3_5_cursor_ok console_3_5_color_ok H3 Hfit Hprint Hapart)).
Defined.

Lemma console_invariant_witness :
  (@video_ok vga_text /\ @cursor_ok vga_text console_3_5 /\
   color_ok console_3_5) /\
  @cursor_ok vga_text (@putbytes vga_text 0 5 console_3_5).
Proof.
  split; [split; [exact vga_text_ok
                 | split; [exact console_3_5_cursor_ok | exact console_3_5_color_ok]]|].
  exact (proj1 (proj1 (proj2 (@console_invariant vga_text console_3_5 vga_text_ok
            console_3_5_cursor_ok console_3_5_color_ok)) 0 5)).
Defined.

Lemma hide_cursor_show_cursor_witness :
  (@video_ok vga_text /\ @cursor_ok vga_text console_3_5) /\
  cursor_hidden (@show_cursor vga_text (@hide_cursor vga_text console_3_5))
  = HIDDEN.
Proof.
  split; [split; [exact vga_text_ok | exact console_3_5_cursor_ok]|].
  destruct (@hide_cursor_show_cursor vga_text console_3_5 vga_text_ok
              console_3_5_cursor_ok) as (_ & _ & _ & _ & _ & _ & _ & Hflag & _).
  exact Hflag.
Defined.

End ConsoleExtra.

(* ================================================================== *)
(** * Part IV: more of the interrupt core *)
(* ================================================================== *)

Module InterruptExtra.
Import Interrupt InterruptFacts.

(** *** Buffer bookkeeping *)

Lemma writebuf_size (ch : Z) (b : kbuf) :
  buf_sz b < MAX_BUF_SZ -> buf_sz (writebuf ch b) = buf_sz b + 1.
Proof.
  intros Hroom. unfold writebuf.
  destruct (Z.ltb_spec (buf_sz b) MAX_BUF_SZ); [|lia].
  cbn [buf_sz head]. now destruct (head b + 1 =? MAX_BUF_SZ).
Qed.

Lemma readbuf_size (b : kbuf) :
  0 < buf_sz b -> buf_sz (snd (readbuf b)) = buf_sz b - 1.
Proof.
  intros Hsome. unfold readbuf. rewrite Z.gtb_ltb.
  destruct (Z.ltb_spec 0 (buf_sz b)); [|lia].
  cbn [snd buf_sz tail]. now destruct (tail b + 1 =? MAX_BUF_SZ).
Qed.

(** Only the low byte of the argument of [writebuf] matters. *)
Lemma writebuf_low_byte (p : Z) (b : kbuf) :
  writebuf (to_char (to_uint8 p)) b = writebuf p b.
Proof.
  unfold writebuf, to_uint8.
  now rewrite byte_of_Z_to_char, byte_of_Z_mod.
Qed.

Lemma queue_empty (b : kbuf) : buf_sz b <= 0 -> queue b = [].
Proof.
  intros Hz. unfold queue. now replace (Z.to_nat (buf_sz b)) with O by lia.
Qed.

Lemma pops_empty (n : nat) (b : kbuf) :
  buf_sz b <= 0 -> pops n b = (replicate n 0, b).
Proof.
  intros Hz. induction n as [|k IH]; [reflexivity|].
  cbn [pops replicate]. rewrite readbuf_empty by exact Hz. now rewrite IH.
Qed.

Lemma pops_app (n : nat) :
  forall (m : nat) (b : kbuf),
    pops (n + m) b =
    (fst (pops n b) ++ fst (pops m (snd (pops n b))),
     snd (pops m (snd (pops n b)))).
Proof.
  induction n as [|k IH]; intros m b.
  - cbn. now destruct (pops m b).
  - cbn [Nat.add pops]. destruct (readbuf b) as [ch b1].
    rewrite IH. destruct (pops k b1) as [l b2]. cbn [fst snd].
    now destruct (pops m b2).
Qed.

(** X13.  Reading past the end of the buffer: [n] pops on a buffer
    holding fewer than [n] bytes return the waiting bytes in order
    followed by a 0 for every pop that found the buffer empty, and leave
    the buffer empty and well-formed. *)
Theorem pops_underflow (n : nat) (b : kbuf) :
  kbuf_ok b -> (Z.to_nat (buf_sz b) <= n)%nat ->
  fst (pops n b) =
    map Z_of_byte (queue b) ++ replicate (n - Z.to_nat (buf_sz b)) 0 /\
  buf_sz (snd (pops n b)) = 0 /\ queue (snd (pops n b)) = [] /\
  kbuf_ok (snd (pops n b)).
Proof.
  intros Hok Hn.
  replace n with (Z.to_nat (buf_sz b) + (n - Z.to_nat (buf_sz b)))%nat at 1 3 4 5
    by lia.
  rewrite pops_app. cbn [fst snd].
  destruct (pops_queue (Z.to_nat (buf_sz b)) b Hok (le_n _)) as (P1 & P2 & P3).
  set (b1 := snd (pops (Z.to_nat (buf_sz b)) b)) in *.
  assert (Hq : queue b1 = []).
  { rewrite P2. apply drop_ge. rewrite length_queue. lia. }
  assert (Hz : buf_sz b1 = 0).
  { pose proof (length_queue b1) as L. rewrite Hq in L. cbn in L.
    destruct P3 as ((? & _) & _). lia. }
  rewrite (pops_empty _ b1) by lia. cbn [fst snd].
  rewrite P1, firstn_all2 by (rewrite length_queue; lia).
  split; [reflexivity|]. split; [exact Hz|]. split; [exact Hq | exact P3].
Qed.

Section MoreHandlers.
Context `{X86Defines} `{Keyhelp}.

(** *** The keyboard path *)

Lemma int_handler_kbd_state (st : kernel) :
  int_handler IRQ_KBD st =
  MkKernel (idt st) (timer_ticks st) (timer_callback st)
    (writebuf (port_in st KEYBOARD_PORT) (kbd st))
    (scancodes st) (port_in st)
    (trace st ++ [EvInb KEYBOARD_PORT; EvOutb INT_CTL_PORT INT_ACK_CURRENT]).
Proof.
  unfold int_handler, kbd_handler.
  change (IRQ_KBD =? IRQ_TIMER) with false. rewrite Z.eqb_refl. cbv iota.
  unfold emit, set_kbd.
  cbn [idt timer_ticks timer_callback kbd scancodes port_in trace].
  now rewrite writebuf_low_byte, <- app_assoc.
Qed.

Lemma readchar_state (st : kernel) :
  readchar st =
  (let aug := process_scancode (scancodes st) (fst (readbuf (kbd st))) in
   if KH_ISMAKE aug && KH_HASDATA aug then KH_GETCHAR aug else -1,
   MkKernel (idt st) (timer_ticks st) (timer_callback st)
     (snd (readbuf (kbd st)))
     (scancodes st ++ [fst (readbuf (kbd st))]) (port_in st) (trace st)).
Proof.
  unfold readchar. destruct (readbuf (kbd st)) as [ch b].
  unfold set_kbd, set_scancodes.
  cbn [scancodes fst snd idt timer_ticks timer_callback kbd port_in trace].
  now destruct (KH_ISMAKE _ && KH_HASDATA _).
Qed.

(** X14.  A keyboard interrupt reads the data port once and appends its
    low byte to the waiting bytes when the buffer has room; when the
    buffer holds 512 bytes it leaves the buffer exactly as it was.
    Either way the buffer invariant holds afterwards, the interrupt is
    acknowledged, and neither the tick counter, the table nor the
    decoder is touched. *)
Theorem kbd_interrupt_enqueue (st : kernel) :
  kbuf_ok (kbd st) ->
  let st' := int_handler IRQ_KBD st in
  kbuf_ok (kbd st') /\
  (buf_sz (kbd st) < MAX_BUF_SZ ->
     queue (kbd st') = queue (kbd st) ++ [byte_of_Z (port_in st KEYBOARD_PORT)] /\
     buf_sz (kbd st') = buf_sz (kbd st) + 1) /\
  (buf_sz (kbd st) = MAX_BUF_SZ -> kbd st' = kbd st) /\
  timer_ticks st' = timer_ticks st /\ idt st' = idt st /\
  scancodes st' = scancodes st /\
  trace st' = trace st ++
    [EvInb KEYBOARD_PORT; EvOutb INT_CTL_PORT INT_ACK_CURRENT].
Proof.
  intros Hok. cbn zeta. rewrite int_handler_kbd_state.
  cbn [kbd timer_ticks idt scancodes trace].
  split; [now apply writebuf_ok|]. split; [|split].
  - intros Hroom. split; [now apply writebuf_queue | now apply writebuf_size].
  - intros Hfull. apply writebuf_full. lia.
  - repeat split.
Qed.

(** X15.  On a buffer that holds at least one byte, [readchar] removes
    the oldest byte, hands exactly that byte to the decoder, and returns
    the decoder's character when the decoder reports a key press with
    data and -1 otherwise; the count drops by one and nothing else
    changes. *)
Theorem readchar_pops_oldest (st : kernel) :
  kbuf_ok (kbd st) -> 0 < buf_sz (kbd st) ->
  let st' := snd (readchar st) in
  exists x,
    queue (kbd st) = x :: queue (kbd st') /\
    scancodes st' = scancodes st ++ [Z_of_byte x] /\
    fst (readchar st) =
      (let aug := process_scancode (scancodes st) (Z_of_byte x) in
       if KH_ISMAKE aug && KH_HASDATA aug then KH_GETCHAR aug else -1) /\
    buf_sz (kbd st') = buf_sz (kbd st) - 1 /\ kbuf_ok (kbd st') /\
    timer_ticks st' = timer_ticks st /\ trace st' = trace st.
Proof.
  intros Hok Hsome. cbn zeta. rewrite readchar_state. cbn [fst snd kbd scancodes timer_ticks trace].
  destruct (readbuf_queue (kbd st) Hok Hsome) as (x & Hq & Hch & Hok').
  exists x. rewrite Hch.
  split; [exact Hq|]. split; [reflexivity|]. split; [reflexivity|].
  split; [now apply readbuf_size|]. split; [exact Hok'|]. split; reflexivity.
Qed.

(** X16.  From an empty buffer, a keyboard interrupt followed by
    [readchar] hands the decoder exactly the byte the data port
    delivered, leaves the buffer empty again, and returns what the
    decoder makes of that byte. *)
Theorem keyboard_round_trip (st : kernel) :
  kbuf_ok (kbd st) -> buf_sz (kbd st) = 0 ->
  let code := to_uint8 (port_in st KEYBOARD_PORT) in
  let st1 := int_handler IRQ_KBD st in
  let st2 := snd (readchar st1) in
  scancodes st2 = scancodes st ++ [code] /\
  fst (readchar st1) =
    (let aug := process_scancode (scancodes st) code in
     if KH_ISMAKE aug && KH_HASDATA aug then KH_GETCHAR aug else -1) /\
  buf_sz (kbd st2) = 0 /\ queue (kbd st2) = [] /\ kbuf_ok (kbd st2).
Proof.
  intros Hok Hempty. cbn zeta. rewrite readchar_state, int_handler_kbd_state.
  cbn [fst snd kbd scancodes].
  set (b1 := writebuf (port_in st KEYBOARD_PORT) (kbd st)).
  assert (Hroom : buf_sz (kbd st) < MAX_BUF_SZ) by (unfold MAX_BUF_SZ; lia).
  assert (Hok1 : kbuf_ok b1) by now apply writebuf_ok.
  assert (Hsz1 : buf_sz b1 = 1)
    by (unfold b1; rewrite writebuf_size by exact Hroom; lia).
  assert (Hq1 : queue b1 = [byte_of_Z (port_in st KEYBOARD_PORT)]).
  { unfold b1. rewrite writebuf_queue by assumption.
    now rewrite queue_empty by lia. }
  destruct (readbuf_queue b1 Hok1 ltac:(lia)) as (x & Hq & Hch & Hok2).
  rewrite Hq1 in Hq. injection Hq as Hx Hrest.
  rewrite Hch, <- Hx, Z_of_byte_of_Z_mod.
  assert (Hsz2 : buf_sz (snd (readbuf b1)) = 0)
    by (rewrite readbuf_size by lia; lia).
  split; [reflexivity|]. split; [reflexivity|]. split; [exact Hsz2|].
  split; [now symmetry | exact Hok2].
Qed.

(** *** Sequences of interrupts *)

Lemma acks_app (l1 l2 : list event) : acks (l1 ++ l2) = (acks l1 + acks l2)%nat.
Proof. unfold acks. now rewrite List.filter_app, length_app. Qed.

Lemma count_vector_cons (v a : Z) (l : list Z) :
  count_vector v (a :: l) =
  ((if (a =? v)%Z then 1 else 0) + count_vector v l)%nat.
Proof.
  unfold count_vector. cbn [List.filter]. rewrite (Z.eqb_sym v a).
  now destruct (a =? v).
Qed.

(** One interrupt, summarised. *)
Lemma int_handler_summary (irq_no : Z) (st : kernel) :
  timer_ticks (int_handler irq_no st) =
    (if irq_no =? IRQ_TIMER then to_uint32 (timer_ticks st + 1)
     else timer_ticks st) /\
  idt (int_handler irq_no st) = idt st /\
  timer_callback (int_handler irq_no st) = timer_callback st /\
  kbd (int_handler irq_no st) =
    (if irq_no =? IRQ_KBD then writebuf (port_in st KEYBOARD_PORT) (kbd st)
     else kbd st) /\
  exists new,
    trace (int_handler irq_no st) = trace st ++ new /\
    acks new = ((if (irq_no =? IRQ_TIMER)%Z then 1 else 0) +
                (if (irq_no =? IRQ_KBD)%Z then 1 else 0))%nat.
Proof.
  destruct (Z.eqb_spec irq_no IRQ_TIMER) as [->|Ht].
  - change (IRQ_TIMER =? IRQ_KBD) with false. cbv iota.
    unfold int_handler. rewrite Z.eqb_refl.
    destruct (timer_handler_frame st) as (F1 & F2 & F3 & _ & F5 & F6).
    unfold emit. cbn [timer_ticks idt timer_callback kbd trace].
    rewrite F1, F2, F3, F5, F6, <- app_assoc.
    repeat split. eexists. split; [reflexivity|].
    rewrite acks_app. unfold acks at 2. cbn [List.filter is_ack].
    rewrite !Z.eqb_refl. cbn [andb length].
    destruct (timer_callback st =? 0); reflexivity.
  - destruct (Z.eqb_spec irq_no IRQ_KBD) as [->|Hk].
    + rewrite int_handler_kbd_state. cbn [timer_ticks idt timer_callback kbd trace].
      repeat split. eexists. split; [reflexivity|].
      unfold acks. cbn [List.filter is_ack]. rewrite !Z.eqb_refl. reflexivity.
    + unfold int_handler.
      rewrite (proj2 (Z.eqb_neq _ _) Ht), (proj2 (Z.eqb_neq _ _) Hk).
      unfold emit. cbn [timer_ticks idt timer_callback kbd trace].
      repeat split. eexists. split; reflexivity.
Qed.

Lemma serve_summary (l : list Z) :
  forall st : kernel,
    0 <= timer_ticks st < 2 ^ 32 ->
    timer_ticks (serve l st) =
      (timer_ticks st + Z.of_nat (count_vector IRQ_TIMER l)) mod 2 ^ 32 /\
    idt (serve l st) = idt st /\
    timer_callback (serve l st) = timer_callback st /\
    exists new,
      trace (serve l st) = trace st ++ new /\
      acks new = (count_vector IRQ_TIMER l + count_vector IRQ_KBD l)%nat.
Proof.
  induction l as [|a l IH]; intros st Hr.
  - cbn. rewrite Z.add_0_r, Z.mod_small by lia. repeat split.
    exists []. now rewrite app_nil_r.
  - change (serve (a :: l) st) with (serve l (int_handler a st)).
    destruct (int_handler_summary a st) as (S1 & S2 & S3 & _ & new1 & S5 & S6).
    assert (Hr1 : 0 <= timer_ticks (int_handler a st) < 2 ^ 32).
    { rewrite S1. destruct (a =? IRQ_TIMER); [|exact Hr].
      unfold to_uint32. apply Z.mod_pos_bound. lia. }
    destruct (IH _ Hr1) as (I1 & I2 & I3 & new2 & I4 & I5).
    rewrite I1, I2, I3, I4, S1, S2, S3, S5, !count_vector_cons.
    split; [|split; [reflexivity|split; [reflexivity|]]].
    + destruct (a =? IRQ_TIMER); unfold to_uint32.
      * rewrite Zplus_mod_idemp_l. f_equal. lia.
      * f_equal.
    + exists (new1 ++ new2). split; [now rewrite app_assoc|].
      rewrite acks_app, S6, I5. lia.
Qed.

(** X17.  Serving any sequence of interrupts: the tick counter ends at
    its old value plus the number of timer vectors in the sequence,
    modulo 2^32, whatever other vectors are interleaved; the events
    added to the trace hold one acknowledgement per timer or keyboard
    vector and none for the others; table and callback are untouched. *)
Theorem serve_counts (l : list Z) (st : kernel) :
  0 <= timer_ticks st < 2 ^ 32 ->
  timer_ticks (serve l st) =
    (timer_ticks st + Z.of_nat (count_vector IRQ_TIMER l)) mod 2 ^ 32 /\
  (timer_ticks st + Z.of_nat (count_vector IRQ_TIMER l) < 2 ^ 32 ->
   timer_ticks (serve l st) =
     timer_ticks st + Z.of_nat (count_vector IRQ_TIMER l)) /\
  (exists new,
     trace (serve l st) = trace st ++ new /\
     acks new = (count_vector IRQ_TIMER l + count_vector IRQ_KBD l)%nat) /\
  idt (serve l st) = idt st /\
  timer_callback (serve l st) = timer_callback st.
Proof.
  intros Hr. destruct (serve_summary l st Hr) as (S1 & S2 & S3 & S4).
  split; [exact S1|]. split; [|split; [exact S4|split; assumption]].
  intros Hsmall. rewrite S1. apply Z.mod_small. lia.
Qed.

(** *** Programming the timer *)

(** X18.  [timer_init] writes the mode byte and then the divisor, low
    byte first: the two data bytes are in 0..255 and make up
    [TIMER_RATE / 100] modulo 65536, that is [TIMER_RATE / 100] itself
    (the number of timer clocks in a hundredth of a second, rounded
    down) whenever the rate is below 6553600; nothing but the trace
    changes. *)
Theorem timer_init_divisor (st : kernel) :
  let period := Z.quot TIMER_RATE 100 in
  exists lo hi,
    trace (timer_init st) = trace st ++
      [EvOutb TIMER_MODE_IO_PORT TIMER_SQUARE_WAVE;
       EvOutb TIMER_PERIOD_IO_PORT lo; EvOutb TIMER_PERIOD_IO_PORT hi] /\
    0 <= lo < 256 /\ 0 <= hi < 256 /\
    lo + 256 * hi = period mod 65536 /\
    (0 <= TIMER_RATE < 6553600 ->
       lo + 256 * hi = period /\
       100 * (lo + 256 * hi) <= TIMER_RATE < 100 * (lo + 256 * hi) + 100) /\
    idt (timer_init st) = idt st /\
    timer_ticks (timer_init st) = timer_ticks st /\
    kbd (timer_init st) = kbd st /\
    timer_callback (timer_init st) = timer_callback st.
Proof.
  cbn zeta. unfold timer_init, emit.
  cbn [trace idt timer_ticks kbd timer_callback].
  set (p := to_uint32 (Z.quot TIMER_RATE 100)).
  exists (Z.land p 255), (Z.land (Z.shiftr p 8) 255).
  assert (Hbytes : 0 <= Z.land p 255 < 256 /\
                   0 <= Z.land (Z.shiftr p 8) 255 < 256 /\
                   Z.land p 255 + 256 * Z.land (Z.shiftr p 8) 255 = p mod 65536).
  { change 255 with (Z.ones 8).
    rewrite !Z.land_ones, Z.shiftr_div_pow2 by lia.
    change (2 ^ 8) with 256. Z.to_euclidean_division_equations. lia. }
  destruct Hbytes as (B1 & B2 & B3).
  assert (Hp : p mod 65536 = Z.quot TIMER_RATE 100 mod 65536).
  { unfold p, to_uint32. change (2 ^ 32) with (65536 * 65536).
    Z.to_euclidean_division_equations. lia. }
  split; [now rewrite <- !app_assoc|].
  split; [exact B1|]. split; [exact B2|]. split; [lia|].
  split; [|repeat split].
  intros Hrate. rewrite B3, Hp.
  rewrite Z.quot_div_nonneg by lia.
  Z.to_euclidean_division_equations. lia.
Qed.

(** *** Gates *)

(** X19.  [SETGATE] on an index inside the table stores a present
    32-bit interrupt gate whose two offset halves put together give the
    handler address back (modulo 2^32), with every field inside its
    bit-field; it changes no other entry and not the size of the table,
    and storing the same gate again changes nothing. *)
Theorem SETGATE_round_trip (gate : list Gatedp) (num sel handler level : Z) :
  0 <= num -> (Z.to_nat num < length gate)%nat ->
  let gate' := SETGATE gate num sel handler level in
  (exists g,
     gate' !! Z.to_nat num = Some g /\
     low_0_15 g + 65536 * high_16_31 g = handler mod 2 ^ 32 /\
     0 <= low_0_15 g < 65536 /\ 0 <= high_16_31 g < 65536 /\
     0 <= selector g < 65536 /\ 0 <= dpl g < 4 /\
     present g = 1 /\ type g = INT_32 /\ padding1 g = 0 /\ padding2 g = 0) /\
  (forall n, n <> Z.to_nat num -> gate' !! n = gate !! n) /\
  length gate' = length gate /\
  SETGATE gate' num sel handler level = gate'.
Proof.
  intros Hnum Hlen. cbn zeta.
  split; [|split; [|split]].
  - unfold SETGATE. rewrite list_lookup_insert_eq by exact Hlen.
    eexists. split; [reflexivity|].
    cbn [low_0_15 high_16_31 selector dpl present type padding1 padding2].
    unfold bits, to_uint32. change 65535 with (Z.ones 16).
    rewrite !Z.land_ones, !Z.shiftr_div_pow2 by lia.
    change (2 ^ 32) with 4294967296. change (2 ^ 16) with 65536.
    change (2 ^ 2) with 4.
    repeat split; try reflexivity; Z.to_euclidean_division_equations; lia.
  - intros n Hn. apply (SETGATE_lookup gate num sel handler level n Hnum Hlen).
    exact Hn.
  - unfold SETGATE. apply length_insert.
  - unfold SETGATE. apply list_insert_id.
    now rewrite list_lookup_insert_eq by exact Hlen.
Qed.

(** The state [handler_install] ends in. *)
Lemma handler_install_state (tickback : Z) (st : kernel) :
  handler_install tickback st =
  (0,
   MkKernel
     (SETGATE (SETGATE (idt st) IRQ_TIMER SEGSEL_KERNEL_CS asm_timer_handler 0)
        IRQ_KBD SEGSEL_KERNEL_CS asm_kbd_handler 0)
     (timer_ticks st) tickback (kbd st) (scancodes st) (port_in st)
     (trace st ++
      [EvLidt idt_addr IDT_LIIMIT; EvSetGate IRQ_TIMER; EvSetGate IRQ_KBD;
       EvOutb TIMER_MODE_IO_PORT TIMER_SQUARE_WAVE;
       EvOutb TIMER_PERIOD_IO_PORT
         (Z.land (to_uint32 (Z.quot TIMER_RATE 100)) 255);
       EvOutb TIMER_PERIOD_IO_PORT
         (Z.land (Z.shiftr (to_uint32 (Z.quot TIMER_RATE 100)) 8) 255)])).
Proof.
  destruct st as [g t c k sc pin tr].
  cbv beta iota zeta delta
    [handler_install timer_install timer_init int_init load_idt emit set_idt
     set_callback idt timer_ticks timer_callback kbd scancodes port_in trace].
  now rewrite <- !app_assoc.
Qed.

(** X20.  Installing a second time re-issues the same six hardware
    actions and replaces the callback, but leaves the table as the first
    installation made it, and resets neither the tick counter nor the
    keyboard buffer. *)
Theorem handler_install_again (cb1 cb2 : Z) (st : kernel) :
  length (idt st) = Z.to_nat IDT_ENTS -> IRQ_KBD < IDT_ENTS ->
  let st1 := snd (handler_install cb1 st) in
  let st2 := snd (handler_install cb2 st1) in
  idt st2 = idt st1 /\ timer_callback st2 = cb2 /\
  timer_ticks st2 = timer_ticks st /\ kbd st2 = kbd st /\
  (exists new, trace st1 = trace st ++ new /\
               trace st2 = trace st ++ new ++ new /\ length new = 6%nat).
Proof.
  intros Hlen Hents. cbn zeta.
  rewrite (handler_install_state cb1 st). cbn [snd].
  rewrite handler_install_state.
  cbn [snd idt timer_ticks timer_callback kbd scancodes port_in trace].
  set (g1 := SETGATE (idt st) IRQ_TIMER SEGSEL_KERNEL_CS asm_timer_handler 0).
  set (g2 := SETGATE g1 IRQ_KBD SEGSEL_KERNEL_CS asm_kbd_handler 0).
  assert (Hl1 : length g1 = Z.to_nat IDT_ENTS)
    by (unfold g1, SETGATE; now rewrite length_insert).
  assert (Hl2 : length g2 = Z.to_nat IDT_ENTS)
    by (unfold g2, SETGATE; now rewrite length_insert).
  assert (Ht : (Z.to_nat IRQ_TIMER < Z.to_nat IDT_ENTS)%nat)
    by (unfold IRQ_TIMER, IRQ_KBD in *; lia).
  assert (Hk : (Z.to_nat IRQ_KBD < Z.to_nat IDT_ENTS)%nat)
    by (unfold IRQ_KBD in *; lia).
  assert (Hne : Z.to_nat IRQ_TIMER <> Z.to_nat IRQ_KBD) by (cbv; lia).
  assert (E1 : SETGATE g2 IRQ_TIMER SEGSEL_KERNEL_CS asm_timer_handler 0 = g2).
  { unfold SETGATE at 1. apply list_insert_id.
    unfold g2, SETGATE at 1. rewrite list_lookup_insert_ne by lia.
    unfold g1, SETGATE. now rewrite list_lookup_insert_eq by lia. }
  assert (E2 : SETGATE g2 IRQ_KBD SEGSEL_KERNEL_CS asm_kbd_handler 0 = g2).
  { unfold SETGATE at 1. apply list_insert_id.
    unfold g2, SETGATE. now rewrite list_lookup_insert_eq by lia. }
  rewrite E1, E2.
  split; [reflexivity|]. split; [reflexivity|]. split; [reflexivity|].
  split; [reflexivity|].
  eexists. split; [reflexivity|].
  split; [now rewrite <- app_assoc | reflexivity].
Qed.

(** *** The invariant of the interrupt core *)

Lemma int_handler_ok (irq_no : Z) (st : kernel) :
  kernel_ok st -> kernel_ok (int_handler irq_no st).
Proof.
  intros (Hb & Hlen & Hr). unfold kernel_ok.
  destruct (int_handler_summary irq_no st) as (-> & -> & _ & -> & _).
  split; [|split; [exact Hlen|]].
  - destruct (irq_no =? IRQ_KBD); [now apply writebuf_ok | exact Hb].
  - destruct (irq_no =? IRQ_TIMER); [|exact Hr].
    unfold to_uint32. apply Z.mod_pos_bound. lia.
Qed.

(** X21.  The state the program starts in satisfies the invariant of
    the interrupt core (a well-formed keyboard buffer, a table of
    [IDT_ENTS] entries, a tick counter within 32 bits), and every entry
    point keeps it: [int_handler] on any vector, any sequence of
    interrupts, [readchar], and [handler_install]. *)
Theorem kernel_invariant (st : kernel) :
  (forall ports, kernel_ok (kernel_init ports)) /\
  (kernel_ok st ->
   (forall irq_no, kernel_ok (int_handler irq_no st)) /\
   (forall l, kernel_ok (serve l st)) /\
   kernel_ok (snd (readchar st)) /\
   (forall tickback, kernel_ok (snd (handler_install tickback st)))).
Proof.
  split.
  - intros ports. unfold kernel_ok, kernel_init, kbuf_ok, kbuf_bounds, MAX_BUF_SZ.
    cbn [kbd idt timer_ticks buf buf_sz head tail].
    rewrite !length_replicate. repeat split; first [lia | reflexivity].
  - intros Hok.
    split; [intros irq_no; now apply int_handler_ok|].
    split; [|split].
    + intros l. revert st Hok.
      induction l as [|a l IH]; intros st Hok; [exact Hok|].
      change (serve (a :: l) st) with (serve l (int_handler a st)).
      apply IH. now apply int_handler_ok.
    + destruct Hok as (Hb & Hlen & Hr). rewrite readchar_state.
      unfold kernel_ok. cbn [snd kbd idt timer_ticks].
      split; [|split; assumption].
      destruct (Z.lt_ge_cases 0 (buf_sz (kbd st))) as [Hpos|Hzero].
      * now destruct (readbuf_queue (kbd st) Hb Hpos) as (x & _ & _ & Hb').
      * now rewrite readbuf_empty by lia.
    + intros tickback. destruct Hok as (Hb & Hlen & Hr).
      rewrite handler_install_state. unfold kernel_ok.
      cbn [snd idt timer_ticks kbd].
      split; [exact Hb|]. split; [|exact Hr].
      unfold SETGATE. now rewrite !length_insert.
Qed.

End MoreHandlers.

(** *** Instances on the PC *)

Lemma kernel_one_key_kbuf_ok : kbuf_ok (kbd kernel_one_key).
Proof.
  unfold kernel_one_key. rewrite int_handler_kbd_state. cbn [kbd].
  apply writebuf_ok, kernel_boot_kbuf_ok.
Qed.

Lemma kernel_boot_ok : @kernel_ok pc_defines kernel_boot.
Proof.
  unfold kernel_ok. split; [exact kernel_boot_kbuf_ok|].
  split; [cbn; now rewrite length_replicate | cbn; lia].
Qed.

Lemma pops_underflow_witness :
  (kbuf_ok (kbd kernel_one_key) /\
   (Z.to_nat (buf_sz (kbd kernel_one_key)) <= 3)%nat) /\
  fst (pops 3 (kbd kernel_one_key)) = [30; 0; 0].
Proof.
  assert (Hn : (Z.to_nat (buf_sz (kbd kernel_one_key)) <= 3)%nat)
    by (vm_compute; lia).
  split; [split; [exact kernel_one_key_kbuf_ok | exact Hn]|].
  exact (proj1 (pops_underflow 3 (kbd kernel_one_key) kernel_one_key_kbuf_ok Hn)).
Defined.

Lemma kbd_interrupt_enqueue_witness :
  kbuf_ok (kbd kernel_boot) /\
  trace (@int_handler pc_defines IRQ_KBD kernel_boot) = [EvInb 96; EvOutb 32 32].
Proof.
  split; [exact kernel_boot_kbuf_ok|].
  destruct (@kbd_interrupt_enqueue pc_defines kernel_boot kernel_boot_kbuf_ok)
    as (_ & _ & _ & _ & _ & _ & Htr).
  exact Htr.
Defined.

Lemma readchar_pops_oldest_witness :
  (kbuf_ok (kbd kernel_one_key) /\ 0 < buf_sz (kbd kernel_one_key)) /\
  exists x,
    queue (kbd kernel_one_key)
      = x :: queue (kbd (snd (@readchar echo_keyhelp kernel_one_key))) /\
    scancodes (snd (@readchar echo_keyhelp kernel_one_key)) = [] ++ [Z_of_byte x].
Proof.
  assert (Hs : 0 < buf_sz (kbd kernel_one_key)) by (vm_compute; reflexivity).
  split; [split; [exact kernel_one_key_kbuf_ok | exact Hs]|].
  destruct (@readchar_pops_oldest echo_keyhelp kernel_one_key
              kernel_one_key_kbuf_ok Hs) as (x & Hq & Hsc & _).
  exists x. split; [exact Hq | exact Hsc].
Defined.

Lemma keyboard_round_trip_witness :
  (kbuf_ok (kbd kernel_boot) /\ buf_sz (kbd kernel_boot) = 0) /\
  fst (@readchar echo_keyhelp (@int_handler pc_defines IRQ_KBD kernel_boot)) = 30.
Proof.
  split; [split; [exact kernel_boot_kbuf_ok | reflexivity]|].
  exact (proj1 (proj2 (@keyboard_round_trip pc_defines echo_keyhelp kernel_boot
                         kernel_boot_kbuf_ok eq_refl))).
Defined.

Lemma serve_counts_witness :
  0 <= timer_ticks kernel_boot < 2 ^ 32 /\
  timer_ticks (@serve pc_defines [32; 33; 7; 32] kernel_boot) = 2.
Proof.
  assert (Hr : 0 <= timer_ticks kernel_boot < 2 ^ 32) by (cbn; lia).
  split; [exact Hr|].
  exact (proj1 (@serve_counts pc_defines [32; 33; 7; 32] kernel_boot Hr)).
Defined.

Lemma timer_init_divisor_witness :
  0 <= @TIMER_RATE pc_defines < 6553600 /\
  exists lo hi,
    trace (@timer_init pc_defines kernel_boot) =
      trace kernel_boot ++ [EvOutb 67 54; EvOutb 64 lo; EvOutb 64 hi] /\
    lo + 256 * hi = Z.quot 1193182 100.
Proof.
  assert (Hrate : 0 <= @TIMER_RATE pc_defines < 6553600) by (cbn; lia).
  split; [exact Hrate|].
  destruct (@timer_init_divisor pc_defines kernel_boot)
    as (lo & hi & Htr & _ & _ & _ & Hdiv & _).
  exists lo, hi. split; [exact Htr | exact (proj1 (Hdiv Hrate))].
Defined.

Lemma SETGATE_round_trip_witness :
  (0 <= 32 /\ (Z.to_nat 32 < length (idt kernel_boot))%nat) /\
  length (SETGATE (idt kernel_boot) 32 16 1052672 0) = length (idt kernel_boot).
Proof.
  assert (H0 : 0 <= 32) by lia.
  assert (Hl : (Z.to_nat 32 < length (idt kernel_boot))%nat)
    by (cbn; rewrite length_replicate; lia).
  split; [split; assumption|].
  exact (proj1 (proj2 (proj2 (SETGATE_round_trip (idt kernel_boot) 32 16 1052672 0
                                 H0 Hl)))).
Defined.

Lemma handler_install_again_witness :
  (length (idt kernel_boot) = Z.to_nat (@IDT_ENTS pc_defines) /\
   IRQ_KBD < @IDT_ENTS pc_defines) /\
  timer_callback
    (snd (@handler_install pc_defines 2097152
            (snd (@handler_install pc_defines 1048576 kernel_boot)))) = 2097152.
Proof.
  assert (Hl : length (idt kernel_boot) = Z.to_nat (@IDT_ENTS pc_defines))
    by (cbn; now rewrite length_replicate).
  assert (He : IRQ_KBD < @IDT_ENTS pc_defines) by (cbv; reflexivity).
  split; [split; assumption|].
  exact (proj1 (proj2 (@handler_install_again pc_defines 1048576 2097152
                         kernel_boot Hl He))).
Defined.

Lemma kernel_invariant_witness :
  @kernel_ok pc_defines kernel_boot /\
  @kernel_ok pc_defines (@serve pc_defines [33; 32; 33] kernel_boot).
Proof.
  split; [exact kernel_boot_ok|].
  exact (proj1 (proj2 (proj2 (@kernel_invariant pc_defines mute_keyhelp kernel_boot)
                         kernel_boot_ok)) [33; 32; 33]).
Defined.

End InterruptExtra.

(* ================================================================== *)
(** * Part V: the game logic *)
(* ================================================================== *)

Module GameFacts.
Import Game.

(** *** Boards *)

Lemma row_inv (row : list Z) :
  length row = 4%nat -> exists a b c d, row = [a; b; c; d].
Proof.
  destruct row as [|a [|b [|c [|d [|e r]]]]]; try discriminate.
  intros _. now exists a, b, c, d.
Qed.

Lemma board_ok_inv (board : list (list Z)) :
  board_ok board ->
  exists r0 r1 r2 r3, board = [r0; r1; r2; r3] /\
    length r0 = 4%nat /\ length r1 = 4%nat /\
    length r2 = 4%nat /\ length r3 = 4%nat.
Proof.
  intros [Hlen Hrows].
  destruct board as [|r0 [|r1 [|r2 [|r3 [|r4 r]]]]]; try discriminate.
  exists r0, r1, r2, r3. split; [reflexivity|].
  inversion Hrows as [|? ? H0 Hrows1]; subst.
  inversion Hrows1 as [|? ? H1 Hrows2]; subst.
  inversion Hrows2 as [|? ? H2 Hrows3]; subst.
  inversion Hrows3 as [|? ? H3 _]; subst. tauto.
Qed.

(** Splitting a bounded index into its values. *)
Lemma index4 (i : Z) : 0 <= i < 4 -> i = 0 \/ i = 1 \/ i = 2 \/ i = 3.
Proof. lia. Qed.

Ltac board_cells b Hok :=
  let r0 := fresh "r" in let r1 := fresh "r" in
  let r2 := fresh "r" in let r3 := fresh "r" in
  let E := fresh "E" in
  let L0 := fresh "L" in let L1 := fresh "L" in
  let L2 := fresh "L" in let L3 := fresh "L" in
  destruct (board_ok_inv b Hok) as (r0 & r1 & r2 & r3 & E & L0 & L1 & L2 & L3);
  destruct (row_inv r0 L0) as (? & ? & ? & ? & ->);
  destruct (row_inv r1 L1) as (? & ? & ? & ? & ->);
  destruct (row_inv r2 L2) as (? & ? & ? & ? & ->);
  destruct (row_inv r3 L3) as (? & ? & ? & ? & ->);
  subst b; clear L0 L1 L2 L3.

(** What [rotate] does to a board written out. *)
Lemma rotate_cells (a0 a1 a2 a3 b0 b1 b2 b3 c0 c1 c2 c3 d0 d1 d2 d3 : Z) :
  rotate [[a0; a1; a2; a3]; [b0; b1; b2; b3];
          [c0; c1; c2; c3]; [d0; d1; d2; d3]] =
  [[a3; b3; c3; d3]; [a2; b2; c2; d2]; [a1; b1; c1; d1]; [a0; b0; c0; d0]].
Proof. reflexivity. Qed.

Lemma rotate_ok (board : list (list Z)) :
  board_ok board -> board_ok (rotate board).
Proof.
  intros Hok. board_cells board Hok. rewrite rotate_cells.
  split; [reflexivity|]. repeat constructor.
Qed.

Lemma rotate_bget (board : list (list Z)) (i j : Z) :
  board_ok board -> 0 <= i < 4 -> 0 <= j < 4 ->
  bget (rotate board) i j = bget board j (3 - i).
Proof.
  intros Hok Hi Hj. board_cells board Hok. rewrite rotate_cells.
  destruct (index4 i Hi) as [-> | [-> | [-> | ->]]];
    destruct (index4 j Hj) as [-> | [-> | [-> | ->]]]; reflexivity.
Qed.

Lemma rotate_four (board : list (list Z)) :
  board_ok board -> rotate (rotate (rotate (rotate board))) = board.
Proof.
  intros Hok. board_cells board Hok. now rewrite !rotate_cells.
Qed.

(** X22.  [rotate] turns a 4x4 board by a quarter: the cell at row [i],
    column [j] of the result is the cell at row [j], column [3 - i] of
    the argument.  The result is again a 4x4 board with the same cells
    (hence the same sum), and four rotations give the board back. *)
Theorem rotate_quarter_turn (board : list (list Z)) :
  board_ok board ->
  board_ok (rotate board) /\
  (forall i j, 0 <= i < 4 -> 0 <= j < 4 ->
     bget (rotate board) i j = bget board j (3 - i)) /\
  bsum (rotate board) = bsum board /\
  rotate (rotate (rotate (rotate board))) = board.
Proof.
  intros Hok. split; [now apply rotate_ok|].
  split; [intros i j; now apply rotate_bget|].
  split; [|now apply rotate_four].
  board_cells board Hok. rewrite rotate_cells.
  unfold bsum, asum. cbn [map fold_right]. lia.
Qed.

(** *** Scanning the board *)

Lemma find_same_inner_spec (board : list (list Z)) (x : Z) (fuel : nat) :
  forall y, 0 <= y -> (Z.to_nat (3 - y) <= fuel)%nat ->
    (find_same_inner fuel board x y = true <->
     exists j, y <= j < 3 /\ bget board x j = bget board x (j + 1)).
Proof.
  induction fuel as [|k IH]; intros y Hy Hfuel; cbn [find_same_inner].
  - split; [discriminate|]. intros (j & Hj & _). lia.
  - unfold SIZE. change (4 - 1) with 3.
    destruct (Z.ltb_spec y 3) as [Hlt|Hge].
    + destruct (Z.eqb_spec (bget board x y) (bget board x (y + 1))) as [He|Hne].
      * split; [intros _; exists y; split; [lia | exact He] | reflexivity].
      * rewrite IH by lia. split; intros (j & Hj & He).
        -- exists j. split; [lia | exact He].
        -- exists j. split; [|exact He].
           destruct (Z.eq_dec j y) as [->|]; [contradiction | lia].
    + split; [discriminate|]. intros (j & Hj & _). lia.
Qed.

Lemma find_same_outer_spec (board : list (list Z)) (fuel : nat) :
  forall x, 0 <= x -> (Z.to_nat (4 - x) <= fuel)%nat ->
    (find_same_outer fuel board x = 0 \/ find_same_outer fuel board x = 1) /\
    (find_same_outer fuel board x = 1 <->
     exists i j, x <= i < 4 /\ 0 <= j < 3 /\
                 bget board i j = bget board i (j + 1)).
Proof.
  induction fuel as [|k IH]; intros x Hx Hfuel; cbn [find_same_outer].
  - split; [now left|]. split; [discriminate|]. intros (i & j & Hi & _). lia.
  - change (x <? SIZE) with (x <? 4). destruct (Z.ltb_spec x 4) as [Hlt|Hge].
    + destruct (find_same_inner (Z.to_nat SIZE) board x 0) eqn:Hin.
      * split; [now right|]. split; [|reflexivity]. intros _.
        apply (find_same_inner_spec board x (Z.to_nat SIZE) 0) in Hin;
          [|lia|unfold SIZE; lia].
        destruct Hin as (j & Hj & He). exists x, j. repeat split; trivial; lia.
      * destruct (IH (x + 1)) as [Hval Hiff]; [lia|lia|].
        split; [exact Hval|]. rewrite Hiff. split; intros (i & j & Hi & Hj & He).
        -- exists i, j. repeat split; trivial; lia.
        -- exists i, j. split; [|split; trivial].
           destruct (Z.eq_dec i x) as [->|]; [|lia].
           exfalso.
           assert (Ht : find_same_inner (Z.to_nat SIZE) board x 0 = true).
           { apply find_same_inner_spec; [lia|unfold SIZE; lia|].
             exists j. split; [lia | exact He]. }
           congruence.
    + split; [now left|]. split; [discriminate|]. intros (i & j & Hi & _). lia.
Qed.

Lemma find_same_spec (board : list (list Z)) :
  (find_same board = 0 \/ find_same board = 1) /\
  (find_same board = 1 <->
   exists i j, 0 <= i < 4 /\ 0 <= j < 3 /\
               bget board i j = bget board i (j + 1)).
Proof.
  unfold find_same. apply find_same_outer_spec; [lia | unfold SIZE; lia].
Qed.

(** X23.  [find_same] returns 1 when some row has two equal cells next
    to each other (empty cells, which hold 0, count as equal to each
    other) and 0 when no row has; it returns nothing else. *)
Theorem find_same_neighbours (board : list (list Z)) :
  (find_same board = 1 <->
   exists i j, 0 <= i < 4 /\ 0 <= j < 3 /\
               bget board i j = bget board i (j + 1)) /\
  (find_same board = 0 <->
   forall i j, 0 <= i < 4 -> 0 <= j < 3 ->
               bget board i j <> bget board i (j + 1)).
Proof.
  destruct (find_same_spec board) as [Hval Hiff].
  split; [exact Hiff|]. split.
  - intros H0 i j Hi Hj He.
    assert (find_same board = 1) by (apply Hiff; now exists i, j). lia.
  - intros Hall. destruct Hval as [H0|H1]; [exact H0|].
    apply Hiff in H1. destruct H1 as (i & j & Hi & Hj & He).
    now destruct (Hall i j Hi Hj).
Qed.

Lemma is_over_inner_spec (board : list (list Z)) (x : Z) (fuel : nat) :
  forall y, 0 <= y -> (Z.to_nat (4 - y) <= fuel)%nat ->
    (is_over_inner fuel board x y = true <->
     exists j, y <= j < 4 /\ bget board x j = 0).
Proof.
  induction fuel as [|k IH]; intros y Hy Hfuel; cbn [is_over_inner].
  - split; [discriminate|]. intros (j & Hj & _). lia.
  - unfold SIZE. destruct (Z.ltb_spec y 4) as [Hlt|Hge].
    + destruct (Z.eqb_spec (bget board x y) 0) as [He|Hne].
      * split; [intros _; exists y; split; [lia | exact He] | reflexivity].
      * rewrite IH by lia. split; intros (j & Hj & He).
        -- exists j. split; [lia | exact He].
        -- exists j. split; [|exact He].
           destruct (Z.eq_dec j y) as [->|]; [contradiction | lia].
    + split; [discriminate|]. intros (j & Hj & _). lia.
Qed.

Lemma is_over_outer_spec (board : list (list Z)) (fuel : nat) :
  forall x, 0 <= x -> (Z.to_nat (4 - x) <= fuel)%nat ->
    (is_over_outer fuel board x = true <->
     exists i j, x <= i < 4 /\ 0 <= j < 4 /\ bget board i j = 0).
Proof.
  induction fuel as [|k IH]; intros x Hx Hfuel; cbn [is_over_outer].
  - split; [discriminate|]. intros (i & j & Hi & _). lia.
  - change (x <? SIZE) with (x <? 4). destruct (Z.ltb_spec x 4) as [Hlt|Hge].
    + destruct (is_over_inner (Z.to_nat SIZE + 1) board x 0) eqn:Hin.
      * split; [|reflexivity]. intros _.
        apply (is_over_inner_spec board x _ 0) in Hin; [|lia|unfold SIZE; lia].
        destruct Hin as (j & Hj & He). exists x, j. repeat split; trivial; lia.
      * rewrite IH by lia. split; intros (i & j & Hi & Hj & He).
        -- exists i, j. repeat split; trivial; lia.
        -- exists i, j. split; [|split; trivial].
           destruct (Z.eq_dec i x) as [->|]; [|lia].
           exfalso.
           assert (Ht : is_over_inner (Z.to_nat SIZE + 1) board x 0 = true).
           { apply is_over_inner_spec; [lia|unfold SIZE; lia|].
             exists j. split; [lia | exact He]. }
           congruence.
    + split; [discriminate|]. intros (i & j & Hi & _). lia.
Qed.

(** X24.  On a 4x4 board [is_over] returns 1 exactly when no cell is
    empty, no two horizontal neighbours are equal and no two vertical
    neighbours are equal, and 0 otherwise; whichever path it takes, the
    board is left exactly as it was found (the rotation it makes to look
    at the columns is undone). *)
Theorem is_over_no_move (board : list (list Z)) :
  board_ok board ->
  snd (is_over board) = board /\
  (fst (is_over board) = 0 \/ fst (is_over board) = 1) /\
  (fst (is_over board) = 1 <->
   (forall i j, 0 <= i < 4 -> 0 <= j < 4 -> bget board i j <> 0) /\
   (forall i j, 0 <= i < 4 -> 0 <= j < 3 ->
      bget board i j <> bget board i (j + 1)) /\
   (forall i j, 0 <= i < 3 -> 0 <= j < 4 ->
      bget board i j <> bget board (i + 1) j)).
Proof.
  intros Hok. unfold is_over.
  pose proof (is_over_outer_spec board (Z.to_nat SIZE + 1) 0 ltac:(lia)
                ltac:(unfold SIZE; lia)) as Hzero.
  destruct (find_same_spec board) as [Hv1 Hrow].
  destruct (find_same_spec (rotate board)) as [Hv2 Hcol].
  assert (Hcol' : find_same (rotate board) = 1 <->
            exists i j, 0 <= i < 3 /\ 0 <= j < 4 /\
                        bget board i j = bget board (i + 1) j).
  { rewrite Hcol. split; intros (i & j & Hi & Hj & He).
    - rewrite !rotate_bget in He by (trivial; lia).
      exists j, (3 - i). repeat split; trivial; lia.
    - exists (3 - j), i. split; [lia|]. split; [lia|].
      rewrite !rotate_bget by (trivial; lia).
      now replace (3 - (3 - j)) with j by lia. }
  destruct (is_over_outer (Z.to_nat SIZE + 1) board 0) eqn:Ez.
  - cbn [fst snd]. split; [reflexivity|]. split; [now left|].
    split; [discriminate|]. intros (Hnz & _).
    destruct (proj1 Hzero eq_refl) as (i & j & Hi & Hj & He).
    now destruct (Hnz i j ltac:(lia) Hj).
  - assert (Hnz : forall i j, 0 <= i < 4 -> 0 <= j < 4 -> bget board i j <> 0).
    { intros i j Hi Hj He.
      assert (Ht : false = true)
        by (apply Hzero; exists i, j; repeat split; trivial; lia).
      discriminate Ht. }
    destruct (Z.eqb_spec (find_same board) 0) as [E1|E1]; cbn [negb].
    + destruct (Z.eqb_spec (find_same (rotate board)) 0) as [E2|E2]; cbn [negb fst snd].
      * split; [now apply rotate_four|]. split; [now right|].
        split; [|reflexivity]. intros _. split; [exact Hnz|]. split.
        -- intros i j Hi Hj He.
           assert (find_same board = 1) by (apply Hrow; now exists i, j). lia.
        -- intros i j Hi Hj He.
           assert (find_same (rotate board) = 1)
             by (apply Hcol'; now exists i, j). lia.
      * split; [now apply rotate_four|]. split; [now left|].
        split; [discriminate|]. intros (_ & _ & Hv).
        assert (E3 : find_same (rotate board) = 1) by lia.
        apply Hcol' in E3. destruct E3 as (i & j & Hi & Hj & He).
        now destruct (Hv i j Hi Hj).
    + cbn [fst snd]. split; [reflexivity|]. split; [now left|].
      split; [discriminate|]. intros (_ & Hh & _).
      assert (E3 : find_same board = 1) by lia.
      apply Hrow in E3. destruct E3 as (i & j & Hi & Hj & He).
      now destruct (Hh i j Hi Hj).
Qed.

Lemma is_win_inner_spec (board : list (list Z)) (target x : Z) (fuel : nat) :
  forall y win, 0 <= y -> (Z.to_nat (4 - y) <= fuel)%nat ->
    win = 0 \/ win = 1 ->
    let r := is_win_inner fuel board target x y win in
    (r = 0 \/ r = 1) /\
    (r = 1 <-> win = 1 \/ exists j, y <= j < 4 /\ bget board x j = target).
Proof.
  induction fuel as [|k IH]; intros y win Hy Hfuel Hwin; cbn zeta;
    cbn [is_win_inner].
  - split; [exact Hwin|]. split; [now left|].
    intros [Hw | (j & Hj & _)]; [exact Hw | lia].
  - unfold SIZE. destruct (Z.ltb_spec y 4) as [Hlt|Hge].
    + destruct (Z.eqb_spec (bget board x y) target) as [He|Hne].
      * destruct (IH (y + 1) 1) as [Hv Hiff]; [lia|lia|now right|].
        split; [exact Hv|]. split; [|intros _; apply Hiff; now left].
        intros _. right. exists y. split; [lia | exact He].
      * destruct (IH (y + 1) win) as [Hv Hiff]; [lia|lia|exact Hwin|].
        split; [exact Hv|]. rewrite Hiff.
        split; (intros [Hw | (j & Hj & He)]; [now left|right]).
        -- exists j. split; [lia | exact He].
        -- exists j. split; [|exact He].
           destruct (Z.eq_dec j y) as [->|]; [contradiction | lia].
    + split; [exact Hwin|]. split; [now left|].
      intros [Hw | (j & Hj & _)]; [exact Hw | lia].
Qed.

Lemma is_win_outer_spec (board : list (list Z)) (target : Z) (fuel : nat) :
  forall x win, 0 <= x -> (Z.to_nat (4 - x) <= fuel)%nat ->
    win = 0 \/ win = 1 ->
    let r := is_win_outer fuel board target x win in
    (r = 0 \/ r = 1) /\
    (r = 1 <->
     win = 1 \/ exists i j, x <= i < 4 /\ 0 <= j < 4 /\ bget board i j = target).
Proof.
  induction fuel as [|k IH]; intros x win Hx Hfuel Hwin; cbn zeta;
    cbn [is_win_outer].
  - split; [exact Hwin|]. split; [now left|].
    intros [Hw | (i & j & Hi & _)]; [exact Hw | lia].
  - change (x <? SIZE) with (x <? 4). destruct (Z.ltb_spec x 4) as [Hlt|Hge].
    + destruct (is_win_inner_spec board target x (Z.to_nat SIZE + 1) 0 win)
        as [Hv1 Hiff1]; [lia|unfold SIZE; lia|exact Hwin|].
      destruct (IH (x + 1) _ ltac:(lia) ltac:(lia) Hv1) as [Hv Hiff].
      split; [exact Hv|]. rewrite Hiff, Hiff1. split.
      * intros [[Hw | (j & Hj & He)] | (i & j & Hi & Hj & He)].
        -- now left.
        -- right. exists x, j. repeat split; trivial; lia.
        -- right. exists i, j. repeat split; trivial; lia.
      * intros [Hw | (i & j & Hi & Hj & He)]; [now left; left|].
        destruct (Z.eq_dec i x) as [->|].
        -- left. right. exists j. split; [lia | exact He].
        -- right. exists i, j. repeat split; trivial; lia.
    + split; [exact Hwin|]. split; [now left|].
      intros [Hw | (i & j & Hi & _)]; [exact Hw | lia].
Qed.

(** X25.  [is_win] returns 1 when some cell of the board holds the
    target score and 0 when none does. *)
Theorem is_win_target (board : list (list Z)) (g : game) :
  (is_win board g = 0 \/ is_win board g = 1) /\
  (is_win board g = 1 <->
   exists i j, 0 <= i < 4 /\ 0 <= j < 4 /\ bget board i j = target_score g).
Proof.
  unfold is_win.
  destruct (is_win_outer_spec board (target_score g) (Z.to_nat SIZE + 1) 0 0)
    as [Hv Hiff]; [lia | unfold SIZE; lia | now left|].
  split; [exact Hv|]. rewrite Hiff. split.
  - intros [H1 | Hex]; [discriminate | exact Hex].
  - intros Hex. now right.
Qed.

(** *** Moving a row *)

Lemma to_uint16_small (v : Z) : 0 <= v < 65536 -> to_uint16 v = v.
Proof. intros Hv. unfold to_uint16. apply Z.mod_small. lia. Qed.

Lemma to_int8_small (v : Z) : 0 <= v < 128 -> to_int8 v = v.
Proof.
  intros Hv. unfold to_int8. rewrite Z.mod_small by lia.
  destruct (Z.ltb_spec v 128); lia.
Qed.

(** The loop of [move_array] makes its four rounds. *)
Lemma move_array_unroll (array : list Z) (sc best : Z) :
  move_array array sc best =
  let '(array, scores, i, _) :=
    move_array_body 3 (move_array_body 2 (move_array_body 1
      (move_array_body 0 (array, (sc, best), 0, 0)))) in
  (i, array, scores).
Proof. reflexivity. Qed.

Lemma move_array_body_eq (y : Z) (array : list Z) (sc best i stop : Z) :
  move_array_body y (array, (sc, best), i, stop) =
  if negb (aget array y =? 0) then
    let t := to_uint8 (find array (to_int8 stop) (to_int8 y)) in
    if negb (t =? y) then
      if negb (aget array t =? 0) then
        (aset (aset array t (to_uint16 (aget array t + aget array y))) y 0,
         (sc + (aget array t + aget array y),
          if best <=? sc + (aget array t + aget array y)
          then sc + (aget array t + aget array y) else best),
         1, to_uint8 (t + 1))
      else
        (aset (aset array t (to_uint16 (aget array t + aget array y))) y 0,
         (sc, best), 1, stop)
    else (array, (sc, best), i, stop)
  else (array, (sc, best), i, stop).
Proof.
  unfold move_array_body.
  destruct (negb (aget array y =? 0)); [|reflexivity].
  cbv zeta.
  destruct (negb (_ =? y)); [|reflexivity].
  destruct (negb (_ =? 0)); reflexivity.
Qed.

Lemma packed_cells (w x y z : Z) :
  (w = 0 -> x = 0 /\ y = 0 /\ z = 0) ->
  (x = 0 -> y = 0 /\ z = 0) ->
  (y = 0 -> z = 0) ->
  packed [w; x; y; z].
Proof.
  intros Hw Hx Hy i j Hij Hj. unfold SIZE in Hj.
  assert (Hi : i = 0 \/ i = 1 \/ i = 2) by lia.
  assert (Hj' : j = 1 \/ j = 2 \/ j = 3) by lia.
  destruct Hi as [-> | [-> | ->] ]; destruct Hj' as [-> | [-> | ->] ];
    try lia;
    cbv [aget default id from_option lookup list_lookup Z.to_nat Pos.to_nat
         Pos.iter_op Init.Nat.add]; intros; tauto.
Qed.

(** Running [move_array] on a row written out: numerals are computed,
    a test on a cell splits the proof, and the body is entered once the
    state it is applied to is known. *)
Ltac is_pos p :=
  lazymatch p with
  | xH => idtac
  | xO ?q => is_pos q
  | xI ?q => is_pos q
  end.

Ltac is_Z z :=
  lazymatch z with
  | Z0 => idtac
  | Zpos ?p => is_pos p
  | Zneg ?p => is_pos p
  end.

Ltac eval_closed :=
  repeat match goal with
  | |- context [to_int8 ?x] => is_Z x;
      let v := eval vm_compute in (to_int8 x) in change (to_int8 x) with v
  | |- context [to_uint8 ?x] => is_Z x;
      let v := eval vm_compute in (to_uint8 x) in change (to_uint8 x) with v
  | |- context [?x - ?y] => is_Z x; is_Z y;
      let v := eval vm_compute in (x - y) in change (x - y) with v
  | |- context [?x + ?y] => is_Z x; is_Z y;
      let v := eval vm_compute in (x + y) in change (x + y) with v
  | |- context [?x =? ?y] => is_Z x; is_Z y;
      let v := eval vm_compute in (x =? y) in change (x =? y) with v
  | |- context [?x >=? ?y] => is_Z x; is_Z y;
      let v := eval vm_compute in (x >=? y) in change (x >=? y) with v
  | |- context [aget (?a :: ?l) ?k] => is_Z k;
      let v := eval cbv [aget default id from_option lookup list_lookup
                         Z.to_nat Pos.to_nat Pos.iter_op Init.Nat.add]
                 in (aget (a :: l) k) in
      change (aget (a :: l) k) with v
  | |- context [aset (?a :: ?l) ?k ?w] => is_Z k;
      let v := eval cbv [aset insert list_insert Z.to_nat Pos.to_nat
                         Pos.iter_op Init.Nat.add] in (aset (a :: l) k w) in
      change (aset (a :: l) k w) with v
  | |- context [negb true] => change (negb true) with false
  | |- context [negb false] => change (negb false) with true
  | |- context [?x =? ?x] => rewrite (Z.eqb_refl x)
  | H : ?x <> ?y |- context [?x =? ?y] => rewrite (proj2 (Z.eqb_neq x y) H)
  | |- context [0 + ?x] => rewrite (Z.add_0_l x)
  | |- context [to_uint16 ?v] => rewrite (to_uint16_small v) by lia
  | |- context [find _ _ _] =>
      cbv beta iota delta [find find_loop];
      change (Z.to_nat SIZE) with 4%nat
  | _ => progress cbv beta iota
  end.

Ltac split_test :=
  match goal with
  | |- context [Z.eqb ?x 0] => is_var x;
      destruct (Z.eqb_spec x 0); [subst x|]
  | |- context [Z.eqb ?x ?y] => is_var x; is_var y;
      destruct (Z.eqb_spec x y); [subst y|]
  end.

Ltac step_body :=
  match goal with
  | |- context [move_array_body ?y (?arr, (?s, ?b), ?i, ?st)] =>
      rewrite (move_array_body_eq y arr s b i st); cbv zeta
  end.

Ltac run_move_array :=
  repeat first [progress eval_closed | split_test | step_body].

Ltac eval_row_move :=
  cbv beta iota zeta delta [row_move tiles merge_row app replicate length
                            Nat.sub Init.Nat.sub];
  repeat first
    [ progress eval_closed
    | match goal with
      | |- context [Z.eqb ?x ?y] =>
          first [ rewrite (proj2 (Z.eqb_neq x y)) by lia
                | rewrite (proj2 (Z.eqb_eq x y)) by lia ]
      end ].

Ltac solve_move_array :=
  cbn [fst snd];
  repeat match goal with
  | |- context [?x <=? ?y] => is_var x; destruct (Z.leb_spec x y)
  | |- context [?x <=? ?y] => destruct (Z.leb_spec x y)
  | |- context [?x =? ?y] => destruct (Z.eqb_spec x y)
  end;
  repeat match goal with
  | |- _ /\ _ => split
  end;
  try reflexivity; try lia;
  first
    [ left; repeat split; first [reflexivity | lia]
    | right; split; [reflexivity | intros Heq; injection Heq; intros; lia]
    | apply packed_cells; lia
    | cbv [asum fold_right]; lia
    | repeat constructor; lia ].

(** [move_array] on a row written out, against [row_move]. *)
Lemma move_array_cells (a b c d sc best : Z) :
  0 <= a < 32768 -> 0 <= b < 32768 -> 0 <= c < 32768 -> 0 <= d < 32768 ->
  forall r m g,
    move_array [a; b; c; d] sc best = r -> row_move [a; b; c; d] = (m, g) ->
    row_outcome [a; b; c; d] sc best r m g.
Proof.
  intros Ha Hb Hc Hd r m g. rewrite move_array_unroll.
  run_move_array; intros <-; eval_row_move; intros [= <- <-];
    unfold row_outcome, cells_below; solve_move_array.
Qed.

Lemma cells_below_inv (bound : Z) (a b c d : Z) :
  cells_below bound [a; b; c; d] ->
  0 <= a < bound /\ 0 <= b < bound /\ 0 <= c < bound /\ 0 <= d < bound.
Proof.
  intros H. inversion H as [|? ? Ha H1]; subst.
  inversion H1 as [|? ? Hb H2]; subst.
  inversion H2 as [|? ? Hc H3]; subst.
  inversion H3 as [|? ? Hd _]; subst. tauto.
Qed.

(** The same for any row of four cells. *)
Lemma move_array_spec (array : list Z) (sc best : Z) :
  length array = 4%nat -> cells_below 32768 array ->
  exists flag m s b,
    move_array array sc best = (flag, m, (s, b)) /\
    m = fst (row_move array) /\
    s = sc + snd (row_move array) /\
    b = (if snd (row_move array) =? 0 then best
         else Z.max best (sc + snd (row_move array))) /\
    (flag = 0 /\ m = array /\ s = sc /\ b = best \/
     flag = 1 /\ m <> array) /\
    length m = 4%nat /\
    asum m = asum array /\
    packed m /\
    sc <= s <= sc + asum array /\
    best <= b /\
    cells_below 65536 m.
Proof.
  intros Hlen Hcells.
  destruct (row_inv array Hlen) as (a & b0 & c & d & ->).
  destruct (cells_below_inv _ _ _ _ _ Hcells) as (Ha & Hb & Hc & Hd).
  destruct (row_move [a; b0; c; d]) as [m g] eqn:Erow.
  destruct (move_array [a; b0; c; d] sc best) as [[flag m'] [s b]] eqn:Emove.
  destruct (move_array_cells a b0 c d sc best Ha Hb Hc Hd _ m g Emove Erow)
    as (Hm & Hs & Hbest & Hflag & Hl & Hsum & Hp & Hg & Hbelow).
  cbn [fst snd] in *. subst m'.
  exists flag, m, s, b. split; [reflexivity|].
  split; [reflexivity|]. split; [exact Hs|]. split; [exact Hbest|].
  split.
  { destruct Hflag as [(Hf & Hsame & Hg0) | (Hf & Hdiff)].
    - left. subst g. rewrite Z.eqb_refl in Hbest. repeat split; trivial; lia.
    - right. now split. }
  split; [exact Hl|]. split; [exact Hsum|]. split; [exact Hp|].
  split; [lia|]. split; [|exact Hbelow].
  subst b. destruct (g =? 0); lia.
Qed.

(** X26.  [move_array] makes the move of the game 2048 on a row of four
    tiles below 32768: the tiles slide to the front in their order,
    equal neighbours merge in pairs from the front, each tile at most
    once, and the rest of the row is empty.  The score rises by the sum
    of the tiles made by merging; the best score becomes the new score
    when a merge was made and the new score is not below it, and stays
    otherwise. *)
Theorem move_array_slide_merge (array : list Z) (sc best : Z) :
  length array = 4%nat -> cells_below 32768 array ->
  - 2147483648 <= sc -> sc + asum array <= 2147483647 ->
  snd (fst (move_array array sc best)) = fst (row_move array) /\
  snd (move_array array sc best) =
    (sc + snd (row_move array),
     if snd (row_move array) =? 0 then best
     else Z.max best (sc + snd (row_move array))).
Proof.
  intros Hlen Hcells _ _.
  destruct (move_array_spec array sc best Hlen Hcells)
    as (flag & m & s & b & -> & -> & -> & -> & _).
  split; reflexivity.
Qed.

Lemma move_array_slide_merge_witness :
  snd (fst (move_array [2; 0; 2; 4] 10 12)) = [4; 4; 0; 0] /\
  snd (move_array [2; 0; 2; 4] 10 12) = (14, 14).
Proof.
  assert (Hcells : cells_below 32768 [2; 0; 2; 4])
    by (repeat constructor; lia).
  destruct (move_array_slide_merge [2; 0; 2; 4] 10 12 eq_refl Hcells
              ltac:(lia) ltac:(cbv [asum fold_right]; lia)) as [Ha Hs].
  split; [exact Ha | exact Hs].
Defined.

(** X27.  What [move_array] returns and keeps, on a row of four tiles
    below 32768.  It returns 0 when it leaves the row and the two scores
    as they were, and 1 when it changes the row; it returns nothing
    else.  Afterwards the row still has four cells, below 65536, with
    the same sum; no tile follows an empty cell; the score did not fall
    and rose by at most the sum of the row, and the best score did not
    fall. *)
Theorem move_array_flag (array : list Z) (sc best : Z) :
  length array = 4%nat -> cells_below 32768 array ->
  - 2147483648 <= sc -> sc + asum array <= 2147483647 ->
  let r := move_array array sc best in
  (fst (fst r) = 0 /\ snd (fst r) = array /\ snd r = (sc, best) \/
   fst (fst r) = 1 /\ snd (fst r) <> array) /\
  length (snd (fst r)) = 4%nat /\
  cells_below 65536 (snd (fst r)) /\
  asum (snd (fst r)) = asum array /\
  packed (snd (fst r)) /\
  sc <= fst (snd r) <= sc + asum array /\
  best <= snd (snd r).
Proof.
  intros Hlen Hcells _ _. cbv zeta.
  destruct (move_array_spec array sc best Hlen Hcells)
    as (flag & m & s & b & -> & _ & _ & _ & Hflag & Hl & Hsum & Hp & Hs & Hb
        & Hbelow).
  cbn [fst snd]. split.
  { destruct Hflag as [(-> & -> & -> & ->) | (-> & Hdiff)].
    - left. repeat split; reflexivity.
    - right. now split. }
  repeat split; trivial; lia.
Qed.

Lemma move_array_flag_witness :
  fst (fst (move_array [2; 4; 0; 0] 10 12)) = 0 \/
  fst (fst (move_array [2; 4; 0; 0] 10 12)) = 1.
Proof.
  assert (Hcells : cells_below 32768 [2; 4; 0; 0])
    by (repeat constructor; lia).
  destruct (move_array_flag [2; 4; 0; 0] 10 12 eq_refl Hcells
              ltac:(lia) ltac:(cbv [asum fold_right]; lia))
    as [[(H0 & _) | (H1 & _)] _]; [left; exact H0 | right; exact H1].
Defined.

(** *** The four moves *)

Lemma move_up_loop_rows (r0 r1 r2 r3 : list Z) (sc best : Z) :
  move_up_loop (Z.to_nat SIZE + 1) 0 [r0; r1; r2; r3] sc best 0 =
  let '(f0, m0, (s0, b0)) := move_array r0 sc best in
  let '(f1, m1, (s1, b1)) := move_array r1 s0 b0 in
  let '(f2, m2, (s2, b2)) := move_array r2 s1 b1 in
  let '(f3, m3, (s3, b3)) := move_array r3 s2 b2 in
  (Z.lor (Z.lor (Z.lor (Z.lor 0 f0) f1) f2) f3, [m0; m1; m2; m3], (s3, b3)).
Proof.
  change (Z.to_nat SIZE + 1)%nat with 5%nat.
  cbn [move_up_loop].
  change (0 <? SIZE) with true. cbv iota.
  change (default [] ([r0; r1; r2; r3] !! Z.to_nat 0)) with r0.
  destruct (move_array r0 sc best) as [[f0 m0] [s0 b0]].
  change (0 + 1 <? SIZE) with true. cbv iota.
  change (default [] (<[Z.to_nat 0:=m0]> [r0; r1; r2; r3] !! Z.to_nat (0 + 1))) with r1.
  destruct (move_array r1 s0 b0) as [[f1 m1] [s1 b1]].
  change (0 + 1 + 1 <? SIZE) with true. cbv iota.
  match goal with |- context [move_array ?x s1 b1] => change x with r2 end.
  destruct (move_array r2 s1 b1) as [[f2 m2] [s2 b2]].
  change (0 + 1 + 1 + 1 <? SIZE) with true. cbv iota.
  match goal with |- context [move_array ?x s2 b2] => change x with r3 end.
  destruct (move_array r3 s2 b2) as [[f3 m3] [s3 b3]].
  reflexivity.
Qed.

Lemma bsum_rows (r0 r1 r2 r3 : list Z) :
  bsum [r0; r1; r2; r3] = asum r0 + asum r1 + asum r2 + asum r3.
Proof.
  unfold bsum. cbn [map]. unfold asum at 1. cbn [fold_right]. lia.
Qed.

Lemma move_up_spec (r0 r1 r2 r3 : list Z) (g : game) :
  length r0 = 4%nat -> length r1 = 4%nat ->
  length r2 = 4%nat -> length r3 = 4%nat ->
  cells_below 32768 r0 -> cells_below 32768 r1 ->
  cells_below 32768 r2 -> cells_below 32768 r3 ->
  exists i m0 m1 m2 m3 g',
    move_up [r0; r1; r2; r3] g = (i, [m0; m1; m2; m3], g') /\
    (m0 = fst (row_move r0) /\ m1 = fst (row_move r1) /\
     m2 = fst (row_move r2) /\ m3 = fst (row_move r3)) /\
    (length m0 = 4%nat /\ length m1 = 4%nat /\
     length m2 = 4%nat /\ length m3 = 4%nat) /\
    move_outcome [r0; r1; r2; r3] g (i, [m0; m1; m2; m3], g').
Proof.
  intros L0 L1 L2 L3 C0 C1 C2 C3.
  unfold move_up. rewrite move_up_loop_rows.
  destruct (move_array_spec r0 (score g) (best_score g) L0 C0)
    as (f0 & m0 & s0 & b0 & E0 & M0 & _ & _ & F0 & K0 & S0 & _ & Hs0 & Hb0 & B0).
  rewrite E0.
  destruct (move_array_spec r1 s0 b0 L1 C1)
    as (f1 & m1 & s1 & b1 & E1 & M1 & _ & _ & F1 & K1 & S1 & _ & Hs1 & Hb1 & B1).
  rewrite E1.
  destruct (move_array_spec r2 s1 b1 L2 C2)
    as (f2 & m2 & s2 & b2 & E2 & M2 & _ & _ & F2 & K2 & S2 & _ & Hs2 & Hb2 & B2).
  rewrite E2.
  destruct (move_array_spec r3 s2 b2 L3 C3)
    as (f3 & m3 & s3 & b3 & E3 & M3 & _ & _ & F3 & K3 & S3 & _ & Hs3 & Hb3 & B3).
  rewrite E3.
  eexists _, m0, m1, m2, m3, _. split; [reflexivity|].
  split; [tauto|]. split; [tauto|].
  unfold move_outcome. cbn [fst snd score best_score target_score].
  split; [split; [reflexivity | repeat constructor; assumption]|].
  split; [repeat constructor; assumption|].
  rewrite !bsum_rows.
  split; [lia|].
  split; [|repeat split; lia].
  destruct F0 as [(-> & -> & -> & ->) | (-> & D0)];
    destruct F1 as [(-> & -> & -> & ->) | (-> & D1)];
    destruct F2 as [(-> & -> & -> & ->) | (-> & D2)];
    destruct F3 as [(-> & -> & -> & ->) | (-> & D3)];
    first
      [ left; repeat split; reflexivity
      | right; split; [reflexivity | intros Heq; injection Heq; intros; congruence] ].
Qed.

Lemma Forall_cells_inv (bound : Z) (r0 r1 r2 r3 : list Z) :
  Forall (cells_below bound) [r0; r1; r2; r3] ->
  cells_below bound r0 /\ cells_below bound r1 /\
  cells_below bound r2 /\ cells_below bound r3.
Proof.
  intros H. inversion H as [|? ? H0 T1]; subst.
  inversion T1 as [|? ? H1 T2]; subst.
  inversion T2 as [|? ? H2 T3]; subst.
  inversion T3 as [|? ? H3 _]; subst. tauto.
Qed.

Lemma rotate_cells_below (bound : Z) (board : list (list Z)) :
  board_ok board -> Forall (cells_below bound) board ->
  Forall (cells_below bound) (rotate board).
Proof.
  intros Hok Hcells. board_cells board Hok. rewrite rotate_cells.
  destruct (Forall_cells_inv _ _ _ _ _ Hcells) as (C0 & C1 & C2 & C3).
  apply cells_below_inv in C0, C1, C2, C3.
  unfold cells_below. repeat constructor; lia.
Qed.

Lemma rotate_bsum (board : list (list Z)) :
  board_ok board -> bsum (rotate board) = bsum board.
Proof.
  intros Hok. board_cells board Hok. rewrite rotate_cells.
  unfold bsum, asum. cbn [map fold_right]. lia.
Qed.

(** A move made on the board turned by [turn] and turned back by
    [back]. *)
Lemma move_outcome_turned (turn back : list (list Z) -> list (list Z))
  (board : list (list Z)) (g g1 g3 : game)
  (i : Z) (moved : list (list Z)) (g2 : game) :
  (forall b, board_ok b ->
     board_ok (back b) /\ bsum (back b) = bsum b /\
     (Forall (cells_below 65536) b -> Forall (cells_below 65536) (back b)) /\
     turn (back b) = b) ->
  bsum (turn board) = bsum board -> back (turn board) = board ->
  score g1 = score g -> best_score g1 = best_score g ->
  target_score g1 = target_score g ->
  score g3 = score g2 -> best_score g3 = best_score g2 ->
  target_score g3 = target_score g2 ->
  move_outcome (turn board) g1 (i, moved, g2) ->
  move_outcome board g (i, back moved, g3).
Proof.
  intros Hback Hsum0 Hround Hs1 Hb1 Ht1 Hs3 Hb3 Ht3.
  unfold move_outcome. cbn [fst snd].
  intros (Hok' & Hbelow & Hsum & Hflag & Hsc & Hbest & Htarget).
  destruct (Hback moved Hok') as (Hok2 & Hsum2 & Hbelow2 & Hinv).
  rewrite Hsum0 in Hsum, Hsc.
  split; [exact Hok2|]. split; [now apply Hbelow2|].
  split; [now rewrite Hsum2|].
  split; [|repeat split; lia].
  destruct Hflag as [(-> & -> & Hs & Hb) | (-> & Hdiff)].
  - left. split; [reflexivity|]. split; [exact Hround|]. lia.
  - right. split; [reflexivity|]. intros Heq. apply Hdiff.
    now rewrite <- Heq, Hinv.
Qed.

(** Turning back by one, two and three quarters. *)
Lemma rotate_back_1 (b : list (list Z)) :
  board_ok b ->
  board_ok (rotate b) /\ bsum (rotate b) = bsum b /\
  (Forall (cells_below 65536) b -> Forall (cells_below 65536) (rotate b)) /\
  rotate (rotate (rotate (rotate b))) = b.
Proof.
  intros Hok. split; [now apply rotate_ok|].
  split; [now apply rotate_bsum|].
  split; [now apply rotate_cells_below | now apply rotate_four].
Qed.

Lemma rotate_back_2 (b : list (list Z)) :
  board_ok b ->
  board_ok (rotate (rotate b)) /\ bsum (rotate (rotate b)) = bsum b /\
  (Forall (cells_below 65536) b ->
   Forall (cells_below 65536) (rotate (rotate b))) /\
  rotate (rotate (rotate (rotate b))) = b.
Proof.
  intros Hok. pose proof (rotate_ok b Hok) as Hok1.
  split; [now apply rotate_ok|].
  split; [now rewrite !rotate_bsum|].
  split; [|now apply rotate_four].
  intros Hb. now apply rotate_cells_below, rotate_cells_below.
Qed.

Lemma rotate_back_3 (b : list (list Z)) :
  board_ok b ->
  board_ok (rotate (rotate (rotate b))) /\
  bsum (rotate (rotate (rotate b))) = bsum b /\
  (Forall (cells_below 65536) b ->
   Forall (cells_below 65536) (rotate (rotate (rotate b)))) /\
  rotate (rotate (rotate (rotate b))) = b.
Proof.
  intros Hok. pose proof (rotate_ok b Hok) as Hok1.
  pose proof (rotate_ok _ Hok1) as Hok2.
  split; [now apply rotate_ok|].
  split; [now rewrite !rotate_bsum|].
  split; [|now apply rotate_four].
  intros Hb. now apply rotate_cells_below, rotate_cells_below, rotate_cells_below.
Qed.

Lemma move_up_outcome (board : list (list Z)) (g : game) :
  board_ok board -> Forall (cells_below 32768) board ->
  move_outcome board g (move_up board g).
Proof.
  intros Hok Hcells.
  destruct (board_ok_inv board Hok) as (r0 & r1 & r2 & r3 & -> & L0 & L1 & L2 & L3).
  destruct (Forall_cells_inv _ _ _ _ _ Hcells) as (C0 & C1 & C2 & C3).
  destruct (move_up_spec r0 r1 r2 r3 g L0 L1 L2 L3 C0 C1 C2 C3)
    as (i & m0 & m1 & m2 & m3 & g' & -> & _ & _ & Hout).
  exact Hout.
Qed.

Lemma move_down_outcome (board : list (list Z)) (g : game) :
  board_ok board -> Forall (cells_below 32768) board ->
  move_outcome board g (move_down board g).
Proof.
  intros Hok Hcells. unfold move_down. cbv zeta.
  pose proof (rotate_ok _ Hok) as Hok1.
  pose proof (rotate_ok _ Hok1) as Hok2.
  pose proof (move_up_outcome (rotate (rotate board))
                (rotate_psd (rotate_psd g)) Hok2
                ltac:(now apply rotate_cells_below, rotate_cells_below))
    as Hup.
  destruct (move_up (rotate (rotate board)) (rotate_psd (rotate_psd g)))
    as [[i moved] g2].
  apply (move_outcome_turned (fun b => rotate (rotate b))
           (fun b => rotate (rotate b)) board g
           (rotate_psd (rotate_psd g)) _ i moved g2);
    try reflexivity; try exact Hup.
  - exact rotate_back_2.
  - now rewrite !rotate_bsum.
  - now apply rotate_four.
Qed.

Lemma move_left_outcome (board : list (list Z)) (g : game) :
  board_ok board -> Forall (cells_below 32768) board ->
  move_outcome board g (move_left board g).
Proof.
  intros Hok Hcells. unfold move_left. cbv zeta.
  pose proof (rotate_ok _ Hok) as Hok1.
  pose proof (move_up_outcome (rotate board) (rotate_psd g) Hok1
                ltac:(now apply rotate_cells_below)) as Hup.
  destruct (move_up (rotate board) (rotate_psd g)) as [[i moved] g2].
  apply (move_outcome_turned (fun b => rotate b)
           (fun b => rotate (rotate (rotate b))) board g
           (rotate_psd g) _ i moved g2);
    try reflexivity; try exact Hup.
  - exact rotate_back_3.
  - now rewrite !rotate_bsum.
  - now apply rotate_four.
Qed.

Lemma move_right_outcome (board : list (list Z)) (g : game) :
  board_ok board -> Forall (cells_below 32768) board ->
  move_outcome board g (move_right board g).
Proof.
  intros Hok Hcells. unfold move_right. cbv zeta.
  pose proof (rotate_ok _ Hok) as Hok1.
  pose proof (rotate_ok _ Hok1) as Hok2.
  pose proof (rotate_ok _ Hok2) as Hok3.
  pose proof (move_up_outcome (rotate (rotate (rotate board)))
                (rotate_psd (rotate_psd (rotate_psd g))) Hok3
                ltac:(now apply rotate_cells_below, rotate_cells_below,
                        rotate_cells_below)) as Hup.
  destruct (move_up (rotate (rotate (rotate board)))
              (rotate_psd (rotate_psd (rotate_psd g)))) as [[i moved] g2].
  apply (move_outcome_turned (fun b => rotate (rotate (rotate b)))
           (fun b => rotate b) board g
           (rotate_psd (rotate_psd (rotate_psd g))) _ i moved g2);
    try reflexivity; try exact Hup.
  - exact rotate_back_1.
  - now rewrite !rotate_bsum.
  - now apply rotate_four.
Qed.

Ltac explicit_lines :=
  cbv [row column map aget default id from_option lookup list_lookup
       Z.to_nat Pos.to_nat Pos.iter_op Init.Nat.add rev app].

Ltac board_ranges Hcells :=
  let C0 := fresh "C" in let C1 := fresh "C" in
  let C2 := fresh "C" in let C3 := fresh "C" in
  destruct (Forall_cells_inv _ _ _ _ _ Hcells) as (C0 & C1 & C2 & C3);
  apply cells_below_inv in C0, C1, C2, C3.

Ltac moved_rows E :=
  match goal with
  | |- context [move_up [?r0; ?r1; ?r2; ?r3] ?g] =>
      let M0 := fresh "M" in let M1 := fresh "M" in
      let M2 := fresh "M" in let M3 := fresh "M" in
      let K0 := fresh "K" in let K1 := fresh "K" in
      let K2 := fresh "K" in let K3 := fresh "K" in
      destruct (move_up_spec r0 r1 r2 r3 g eq_refl eq_refl eq_refl eq_refl
                  ltac:(unfold cells_below; repeat constructor; lia)
                  ltac:(unfold cells_below; repeat constructor; lia)
                  ltac:(unfold cells_below; repeat constructor; lia)
                  ltac:(unfold cells_below; repeat constructor; lia))
        as (? & ? & ? & ? & ? & ? & E & (M0 & M1 & M2 & M3)
            & (K0 & K1 & K2 & K3) & _);
      rewrite E;
      apply row_inv in K0, K1, K2, K3;
      destruct K0 as (? & ? & ? & ? & ->);
      destruct K1 as (? & ? & ? & ? & ->);
      destruct K2 as (? & ? & ? & ? & ->);
      destruct K3 as (? & ? & ? & ? & ->)
  end.

Lemma move_up_rows (board : list (list Z)) (g : game) (i : Z) :
  board_ok board -> Forall (cells_below 32768) board -> 0 <= i < 4 ->
  row (snd (fst (move_up board g))) i = fst (row_move (row board i)).
Proof.
  intros Hok Hcells Hi. board_cells board Hok. board_ranges Hcells.
  moved_rows E. cbn [fst snd].
  destruct (index4 i Hi) as [-> | [-> | [-> | ->] ] ]; explicit_lines;
    assumption.
Qed.

Lemma move_down_rows (board : list (list Z)) (g : game) (i : Z) :
  board_ok board -> Forall (cells_below 32768) board -> 0 <= i < 4 ->
  rev (row (snd (fst (move_down board g))) i) =
  fst (row_move (rev (row board i))).
Proof.
  intros Hok Hcells Hi. board_cells board Hok. board_ranges Hcells.
  unfold move_down. cbv zeta. rewrite !rotate_cells.
  moved_rows E. cbn [fst snd]. rewrite !rotate_cells.
  destruct (index4 i Hi) as [-> | [-> | [-> | ->] ] ]; explicit_lines;
    assumption.
Qed.

Lemma move_left_columns (board : list (list Z)) (g : game) (j : Z) :
  board_ok board -> Forall (cells_below 32768) board -> 0 <= j < 4 ->
  column (snd (fst (move_left board g))) j =
  fst (row_move (column board j)).
Proof.
  intros Hok Hcells Hj. board_cells board Hok. board_ranges Hcells.
  unfold move_left. cbv zeta. rewrite !rotate_cells.
  moved_rows E. cbn [fst snd]. rewrite !rotate_cells.
  destruct (index4 j Hj) as [-> | [-> | [-> | ->] ] ]; explicit_lines;
    assumption.
Qed.

Lemma move_right_columns (board : list (list Z)) (g : game) (j : Z) :
  board_ok board -> Forall (cells_below 32768) board -> 0 <= j < 4 ->
  rev (column (snd (fst (move_right board g))) j) =
  fst (row_move (rev (column board j))).
Proof.
  intros Hok Hcells Hj. board_cells board Hok. board_ranges Hcells.
  unfold move_right. cbv zeta. rewrite !rotate_cells.
  moved_rows E. cbn [fst snd]. rewrite !rotate_cells.
  destruct (index4 j Hj) as [-> | [-> | [-> | ->] ] ]; explicit_lines;
    assumption.
Qed.

(** X28.  Each of [move_up], [move_down], [move_left] and [move_right],
    on a 4x4 board of tiles below 32768 and with a score that cannot
    overflow: the board afterwards is a 4x4 board with the same sum of
    tiles; the function returns 0 exactly when it leaves the board, the
    score and the best score as they were, and 1 when the board has
    changed; the score does not fall and rises by at most the sum of the
    board. *)
Theorem moves_outcome (board : list (list Z)) (g : game) :
  board_ok board -> Forall (cells_below 32768) board ->
  - 2147483648 <= score g -> score g + bsum board <= 2147483647 ->
  move_outcome board g (move_up board g) /\
  move_outcome board g (move_down board g) /\
  move_outcome board g (move_left board g) /\
  move_outcome board g (move_right board g).
Proof.
  intros Hok Hcells _ _.
  split; [now apply move_up_outcome|].
  split; [now apply move_down_outcome|].
  split; [now apply move_left_outcome | now apply move_right_outcome].
Qed.

(** X29.  Where the four moves push the tiles, on a 4x4 board of tiles
    below 32768: [move_up] makes the move of the game on every row
    towards its first cell and [move_down] towards its last cell;
    [move_left] makes it on every column towards the first row and
    [move_right] towards the last row. *)
Theorem moves_lines (board : list (list Z)) (g : game) :
  board_ok board -> Forall (cells_below 32768) board ->
  - 2147483648 <= score g -> score g + bsum board <= 2147483647 ->
  (forall i, 0 <= i < 4 ->
     row (snd (fst (move_up board g))) i = fst (row_move (row board i))) /\
  (forall i, 0 <= i < 4 ->
     rev (row (snd (fst (move_down board g))) i) =
     fst (row_move (rev (row board i)))) /\
  (forall j, 0 <= j < 4 ->
     column (snd (fst (move_left board g))) j =
     fst (row_move (column board j))) /\
  (forall j, 0 <= j < 4 ->
     rev (column (snd (fst (move_right board g))) j) =
     fst (row_move (rev (column board j)))).
Proof.
  intros Hok Hcells _ _.
  split; [intros i Hi; now apply move_up_rows|].
  split; [intros i Hi; now apply move_down_rows|].
  split; [intros j Hj; now apply move_left_columns|].
  intros j Hj; now apply move_right_columns.
Qed.

(** *** A new tile *)

Lemma to_int16_small (v : Z) : 0 <= v < 32768 -> to_int16 v = v.
Proof.
  intros Hv. unfold to_int16. rewrite Z.mod_small by lia.
  destruct (Z.ltb_spec v 32768); lia.
Qed.

Lemma add_random_inner_spec (board : list (list Z)) (x : Z) (fuel : nat) :
  0 <= x < 4 ->
  forall y cells, 0 <= y <= 4 -> (Z.to_nat (4 - y) <= fuel)%nat ->
    let found := add_random_inner fuel board x y cells in
    (length found <= length cells + Z.to_nat (4 - y))%nat /\
    forall p, In p found <->
      In p cells \/ exists j, y <= j < 4 /\ p = (x, j) /\ bget board x j = 0.
Proof.
  intros Hx. induction fuel as [|k IH]; intros y cells Hy Hfuel; cbv zeta;
    cbn [add_random_inner].
  - split; [lia|]. intros p. split; [now left|].
    intros [Hin | (j & Hj & _)]; [exact Hin | lia].
  - change (y <? SIZE) with (y <? 4).
    destruct (Z.ltb_spec y 4) as [Hlt|Hge].
    + rewrite (to_int8_small (y + 1)) by lia.
      rewrite !to_uint16_small by lia.
      destruct (IH (y + 1)
                  (if bget board x y =? 0 then cells ++ [(x, y)] else cells)
                  ltac:(lia) ltac:(lia)) as [Hlen Hiff].
      split.
      * etransitivity; [exact Hlen|].
        destruct (bget board x y =? 0); [rewrite length_app; cbn [length]|]; lia.
      * intros p. rewrite Hiff.
        destruct (Z.eqb_spec (bget board x y) 0) as [He|Hne].
        -- rewrite in_app_iff. cbn [In]. split.
           ++ intros [[Hin | [<- | [] ] ] | (j & Hj & Hp & Hz)].
              ** now left.
              ** right. exists y. repeat split; trivial; lia.
              ** right. exists j. repeat split; trivial; lia.
           ++ intros [Hin | (j & Hj & Hp & Hz)]; [now left; left|].
              destruct (Z.eq_dec j y) as [->|].
              ** left. right. left. now symmetry.
              ** right. exists j. repeat split; trivial; lia.
        -- split.
           ++ intros [Hin | (j & Hj & Hp & Hz)]; [now left|].
              right. exists j. repeat split; trivial; lia.
           ++ intros [Hin | (j & Hj & Hp & Hz)]; [now left|].
              destruct (Z.eq_dec j y) as [->|]; [contradiction|].
              right. exists j. repeat split; trivial; lia.
    + split; [lia|]. intros p. split; [now left|].
      intros [Hin | (j & Hj & _)]; [exact Hin | lia].
Qed.

Lemma add_random_outer_spec (board : list (list Z)) (fuel : nat) :
  forall x cells, 0 <= x <= 4 -> (Z.to_nat (4 - x) <= fuel)%nat ->
    let found := add_random_outer fuel board x cells in
    (length found <= length cells + 4 * Z.to_nat (4 - x))%nat /\
    forall p, In p found <->
      In p cells \/
      exists i j, x <= i < 4 /\ 0 <= j < 4 /\ p = (i, j) /\ bget board i j = 0.
Proof.
  induction fuel as [|k IH]; intros x cells Hx Hfuel; cbv zeta;
    cbn [add_random_outer].
  - split; [lia|]. intros p. split; [now left|].
    intros [Hin | (i & j & Hi & _)]; [exact Hin | lia].
  - change (x <? SIZE) with (x <? 4).
    destruct (Z.ltb_spec x 4) as [Hlt|Hge].
    + rewrite (to_int8_small (x + 1)) by lia.
      destruct (add_random_inner_spec board x (Z.to_nat SIZE + 1) ltac:(lia)
                  0 cells ltac:(lia) ltac:(unfold SIZE; lia)) as [Hlen1 Hiff1].
      destruct (IH (x + 1)
                  (add_random_inner (Z.to_nat SIZE + 1) board x 0 cells)
                  ltac:(lia) ltac:(lia)) as [Hlen Hiff].
      split; [lia|].
      intros p. rewrite Hiff, Hiff1. split.
      * intros [[Hin | (j & Hj & Hp & Hz)] | (i & j & Hi & Hj & Hp & Hz)].
        -- now left.
        -- right. exists x, j. repeat split; trivial; lia.
        -- right. exists i, j. repeat split; trivial; lia.
      * intros [Hin | (i & j & Hi & Hj & Hp & Hz)]; [now left; left|].
        destruct (Z.eq_dec i x) as [->|].
        -- left. right. exists j. repeat split; trivial; lia.
        -- right. exists i, j. repeat split; trivial; lia.
    + split; [lia|]. intros p. split; [now left|].
      intros [Hin | (i & j & Hi & _)]; [exact Hin | lia].
Qed.

Lemma bset_cell (board : list (list Z)) (i j n : Z) :
  board_ok board -> 0 <= i < 4 -> 0 <= j < 4 ->
  board_ok (bset board i j n) /\
  bget (bset board i j n) i j = n /\
  forall i' j', 0 <= i' < 4 -> 0 <= j' < 4 -> (i', j') <> (i, j) ->
    bget (bset board i j n) i' j' = bget board i' j'.
Proof.
  intros Hok Hi Hj. board_cells board Hok.
  destruct (index4 i Hi) as [-> | [-> | [-> | ->] ] ];
    destruct (index4 j Hj) as [-> | [-> | [-> | ->] ] ];
    (split; [split; [reflexivity | repeat constructor]|]);
    (split; [reflexivity|]);
    intros i' j' Hi' Hj' Hne;
    destruct (index4 i' Hi') as [-> | [-> | [-> | ->] ] ];
    destruct (index4 j' Hj') as [-> | [-> | [-> | ->] ] ];
    first [reflexivity | now destruct Hne].
Qed.

(** X30.  [add_random] on a 4x4 board, [r1] and [r2] being what the two
    calls of [rand()] return.  A board without an empty cell is left as
    it is.  On a board with an empty cell exactly one cell changes: it
    was empty and now holds 4 when [r2 mod 3] is 2 and 2 otherwise; every
    other cell is as before. *)
Theorem add_random_fills (board : list (list Z)) (r1 r2 : Z) :
  board_ok board -> 0 <= r1 -> 0 <= r2 ->
  ((forall i j, 0 <= i < 4 -> 0 <= j < 4 -> bget board i j <> 0) ->
   add_random board r1 r2 = board) /\
  ((exists i j, 0 <= i < 4 /\ 0 <= j < 4 /\ bget board i j = 0) ->
   exists i j, 0 <= i < 4 /\ 0 <= j < 4 /\ bget board i j = 0 /\
     bget (add_random board r1 r2) i j = (if r2 mod 3 =? 2 then 4 else 2) /\
     (forall i' j', 0 <= i' < 4 -> 0 <= j' < 4 -> (i', j') <> (i, j) ->
        bget (add_random board r1 r2) i' j' = bget board i' j') /\
     board_ok (add_random board r1 r2)).
Proof.
  intros Hok Hr1 Hr2. unfold add_random. cbv zeta.
  destruct (add_random_outer_spec board (Z.to_nat SIZE + 1) 0 []
              ltac:(lia) ltac:(unfold SIZE; lia)) as [Hlen Hin].
  set (cells := add_random_outer (Z.to_nat SIZE + 1) board 0 []) in *.
  clearbody cells. cbn [length] in Hlen.
  rewrite (to_int16_small (Z.of_nat (length cells))) by lia.
  split.
  - intros Hfull.
    destruct cells as [|p rest] eqn:Ecells; [reflexivity|].
    exfalso. destruct (proj1 (Hin p) (or_introl eq_refl))
      as [[] | (i & j & Hi & Hj & _ & Hz)].
    now apply (Hfull i j).
  - intros (i0 & j0 & Hi0 & Hj0 & Hz0).
    assert (Hmem : In (i0, j0) cells).
    { apply Hin. right. exists i0, j0. repeat split; trivial; lia. }
    assert (Hpos : 0 < Z.of_nat (length cells)).
    { destruct cells; [destruct Hmem | cbn [length]; lia]. }
    destruct (Z.gtb_spec (Z.of_nat (length cells)) 0) as [_|]; [|lia].
    pose proof (Z.rem_bound_pos r1 (Z.of_nat (length cells)) Hr1 Hpos) as Hrem.
    rewrite (to_int16_small (Z.rem r1 _)) by lia.
    assert (Hnth : In (nth (Z.to_nat (Z.rem r1 (Z.of_nat (length cells))))
                         cells (0, 0)) cells) by (apply nth_In; lia).
    destruct (nth _ cells (0, 0)) as [x y].
    apply Hin in Hnth. destruct Hnth as [[] | (i & j & Hi & Hj & [= -> ->] & Hz)].
    rewrite !to_int8_small by lia.
    assert (Hn : to_uint16 ((Z.quot (Z.rem r2 3) (3 - 1) + 1) * 2) =
                 (if r2 mod 3 =? 2 then 4 else 2)).
    { rewrite Z.rem_mod_nonneg by lia.
      assert (Hm : r2 mod 3 = 0 \/ r2 mod 3 = 1 \/ r2 mod 3 = 2)
        by (pose proof (Z.mod_pos_bound r2 3); lia).
      destruct Hm as [-> | [-> | ->] ]; reflexivity. }
    rewrite Hn.
    destruct (bset_cell board i j (if r2 mod 3 =? 2 then 4 else 2)
                Hok ltac:(lia) ltac:(lia)) as (Hok' & Hcell & Hrest).
    exists i, j. split; [lia|]. split; [lia|]. split; [exact Hz|].
    split; [exact Hcell|]. split; [exact Hrest | exact Hok'].
Qed.

(** *** Instances on two boards *)

Lemma board_play_ok : board_ok board_play.
Proof. split; [reflexivity | repeat constructor]. Qed.

Lemma board_stuck_ok : board_ok board_stuck.
Proof. split; [reflexivity | repeat constructor]. Qed.

Lemma board_play_cells : Forall (cells_below 32768) board_play.
Proof. unfold cells_below. repeat constructor; lia. Qed.

Lemma rotate_quarter_turn_witness :
  board_ok (rotate board_play) /\
  bsum (rotate board_play) = bsum board_play /\
  rotate (rotate (rotate (rotate board_play))) = board_play.
Proof.
  destruct (rotate_quarter_turn board_play board_play_ok)
    as (Hok & _ & Hsum & Hfour).
  split; [exact Hok|]. split; [exact Hsum | exact Hfour].
Defined.

Lemma is_over_no_move_witness :
  snd (is_over board_stuck) = board_stuck /\
  (fst (is_over board_stuck) = 0 \/ fst (is_over board_stuck) = 1).
Proof.
  destruct (is_over_no_move board_stuck board_stuck_ok) as (Hsame & Hval & _).
  split; [exact Hsame | exact Hval].
Defined.

Lemma moves_outcome_witness :
  bsum (snd (fst (move_down board_play (MkGame 10 20 2048 board_play)))) =
  bsum board_play /\
  bsum (snd (fst (move_left board_play (MkGame 10 20 2048 board_play)))) =
  bsum board_play.
Proof.
  destruct (moves_outcome board_play (MkGame 10 20 2048 board_play)
              board_play_ok board_play_cells
              ltac:(cbn [score]; lia) ltac:(vm_compute; discriminate))
    as (_ & (_ & _ & Hdown & _) & (_ & _ & Hleft & _) & _).
  split; [exact Hdown | exact Hleft].
Defined.

Lemma moves_lines_witness :
  column (snd (fst (move_left board_play (MkGame 10 20 2048 board_play)))) 0 =
  fst (row_move (column board_play 0)).
Proof.
  destruct (moves_lines board_play (MkGame 10 20 2048 board_play)
              board_play_ok board_play_cells
              ltac:(cbn [score]; lia) ltac:(vm_compute; discriminate))
    as (_ & _ & Hleft & _).
  apply Hleft. lia.
Defined.

Lemma add_random_fills_witness :
  exists i j, 0 <= i < 4 /\ 0 <= j < 4 /\ bget board_play i j = 0 /\
    bget (add_random board_play 7 5) i j = 4.
Proof.
  destruct (add_random_fills board_play 7 5 board_play_ok
              ltac:(lia) ltac:(lia)) as [_ Hfill].
  destruct Hfill as (i & j & Hi & Hj & Hz & Hcell & _).
  - exists 0, 3. split; [lia|]. split; [lia | reflexivity].
  - exists i, j. split; [exact Hi|]. split; [exact Hj|].
    split; [exact Hz | exact Hcell].
Defined.

End GameFacts.
